(** * figma-claude-proxy: the request pipeline in front of the provider call

    A shallow embedding of the TypeScript sources under [api/]:

    - [api/claude-proxy.ts] (two revisions of one file): [checkRateLimit],
      [validateClaudeRequest], [handleProxyError] and the buffered [handler];
    - [api/claude-stream-v2.ts]: the streaming [handler];
    - [api/claude-stream.ts] (two revisions): the Edge streaming [handler]
      with its validation loop and its message log;
    - [api/agent-analyze.ts] (the revision that answers through
      [toDataStreamResponse], and the later one that checks the credential
      and answers through [toTextStreamResponse]): its [handler], the agent
      run left abstract;
    - [api/test-basic.ts]: the test [handler];
    - [api/design-agent.ts]: the [execute] functions of the tools
      [analyzeDesignQuality] and [suggestImprovements].

    JavaScript values are an inductive type, property reads on [null] and
    [undefined] raise a [TypeError] with the engine's text, a lookup
    [table[key]] turns the key into a string and finds the members of
    [Object.prototype] too, and every function that can raise returns a
    [completion].  The rate-limit store is a finite map from client
    identifiers to entries; a handler run returns the final response object
    together with the store and the trace of its effects (log lines and
    outbound calls). *)

From Stdlib Require Import ZArith String Ascii List Bool Lia.
From stdpp Require Import base option list strings gmap pretty.

Set Warnings "-register-all".
Local Open Scope string_scope.
Local Open Scope Z_scope.
(* [++] is list append throughout; strings are joined with [+:+]. *)
Disable Notation "_ ++ _" : string_scope.

(** ** JavaScript values *)

Module Js.

(** Values as [JSON.parse] builds them, plus [undefined].  Numbers are
    integer valued (token counts, HTTP statuses, epoch milliseconds); an
    object is its list of own properties in source order. *)
Inductive value : Type :=
  | VUndefined
  | VNull
  | VBool (b : bool)
  | VNum (n : Z)
  | VStr (s : string)
  | VArr (items : list value)
  | VObj (fields : list (string * value)).

(** An [Error] object as the handlers read it: [name], [message], [stack]. *)
Record js_error : Type := JsError {
  err_name : string;
  err_message : string;
  err_stack : string
}.

(** [error.toString()] of [Error.prototype]. *)
Definition error_toString (e : js_error) : string :=
  if decide (err_name e = "") then err_message e
  else if decide (err_message e = "") then err_name e
  else err_name e +:+ ": " +:+ err_message e.

(** ToBoolean. *)
Definition truthy (v : value) : bool :=
  match v with
  | VUndefined | VNull => false
  | VBool b => b
  | VNum n => negb (n =? 0)
  | VStr s => negb (String.eqb s "")
  | VArr _ | VObj _ => true
  end.

(** [a || b] on values. *)
Definition or_else (a b : value) : value := if truthy a then a else b.

Definition isArray (v : value) : bool :=
  match v with VArr _ => true | _ => false end.

Fixpoint assoc (k : string) (fields : list (string * value)) : value :=
  match fields with
  | [] => VUndefined
  | (k', v) :: rest => if String.eqb k k' then v else assoc k rest
  end.

(** [v.k] for a [v] that is neither [null] nor [undefined].  The names the
    sources read ([messages], [model], [max_tokens], [maxTokens], [role],
    [content], [error], [type], [message], [length]) are not inherited from
    a prototype, except [length] on arrays and strings. *)
Definition own (v : value) (k : string) : value :=
  match v with
  | VObj fields => assoc k fields
  | VArr items => if String.eqb k "length" then VNum (Z.of_nat (length items)) else VUndefined
  | VStr s => if String.eqb k "length" then VNum (Z.of_nat (String.length s)) else VUndefined
  | _ => VUndefined
  end.

Definition nullish (v : value) : bool :=
  match v with VUndefined | VNull => true | _ => false end.

(** [v?.k]. *)
Definition get_opt (v : value) (k : string) : value :=
  if nullish v then VUndefined else own v k.

(** A destructuring default, [{k = d} = v]: [d] for an [undefined] field. *)
Definition default_to (d v : value) : value :=
  match v with VUndefined => d | _ => v end.

(** [list.includes(v)] for a list of string literals (SameValueZero). *)
Definition includes (l : list string) (v : value) : bool :=
  match v with
  | VStr s => bool_decide (s ∈ l)
  | _ => false
  end.

(** [parts.join(sep)]. *)
Fixpoint join (sep : string) (parts : list string) : string :=
  match parts with
  | [] => ""
  | [p] => p
  | p :: rest => p +:+ sep +:+ join sep rest
  end.

(** ToNumber, [None] standing for NaN.  What a string, an array or an
    object converts to is left to [coerce]. *)
Definition to_number (coerce : value -> option Z) (v : value) : option Z :=
  match v with
  | VUndefined => None
  | VNull => Some 0
  | VBool b => Some (if b then 1 else 0)
  | VNum n => Some n
  | _ => coerce v
  end.

(** [v < k] and [v > k] against a number literal: false on NaN. *)
Definition lt_num (coerce : value -> option Z) (v : value) (k : Z) : bool :=
  match to_number coerce v with Some n => n <? k | None => false end.

Definition gt_num (coerce : value -> option Z) (v : value) (k : Z) : bool :=
  match to_number coerce v with Some n => k <? n | None => false end.

End Js.

Import Js.

(** ** Completions: a normal result or a thrown value *)

Record axios_response : Type := AxiosResponse {
  resp_status : Z;
  resp_headers : gmap string string;
  resp_data : value
}.

(** An [AxiosError]: [error.code] and, when the provider answered,
    [error.response]. *)
Record axios_error : Type := AxiosError {
  ax_error : js_error;
  ax_code : option string;
  ax_response : option axios_response
}.

(** What a [catch (error)] can receive here: an [Error] raised by the
    runtime or a library, or an [AxiosError]. *)
Inductive thrown : Type :=
  | ThrownError (e : js_error)
  | ThrownAxios (e : axios_error).

(** The [Error] fields of a caught value. *)
Definition error_of (t : thrown) : js_error :=
  match t with
  | ThrownError e => e
  | ThrownAxios e => ax_error e
  end.

Inductive completion (A : Type) : Type :=
  | Normal (a : A)
  | Abrupt (t : thrown).
Arguments Normal {A} a.
Arguments Abrupt {A} t.

#[global] Instance completion_ret : MRet completion := fun A a => Normal a.

#[global] Instance completion_fmap : FMap completion := fun A B f c =>
  match c with
  | Normal a => Normal (f a)
  | Abrupt t => Abrupt t
  end.

#[global] Instance completion_bind : MBind completion := fun A B k c =>
  match c with
  | Normal a => k a
  | Abrupt t => Abrupt t
  end.

(** [null] or [undefined], as error texts name them. *)
Definition nullish_name (v : value) : string :=
  match v with VNull => "null" | _ => "undefined" end.

(** The [TypeError] of a property read on [null] or [undefined], worded as
    V8 words it (the engine of Node.js and of the Edge runtime).  The stack
    names files and lines of the deployment and is left empty. *)
Definition type_error (v : value) (what : string) : js_error :=
  JsError "TypeError"
    ("Cannot read properties of " +:+ nullish_name v +:+ " (reading '" +:+ what +:+ "')") "".

(** [v.k]. *)
Definition get (v : value) (k : string) : completion value :=
  if nullish v then Abrupt (ThrownError (type_error v k)) else Normal (own v k).

(** The [TypeError] of a destructuring [const {first, ...} = source] whose
    right-hand side is [null] or [undefined]: V8 names the first property
    of the pattern and the source text of the right-hand side,
    [(intermediate value)] for an [await]. *)
Definition destructure_error (source : string) (v : value) (first : string) : js_error :=
  JsError "TypeError"
    ("Cannot destructure property '" +:+ first +:+ "' of '" +:+ source +:+ "' as it is "
     +:+ nullish_name v +:+ ".") "".

(** The property [k] of a pattern [const {first, ..., k, ...} = source],
    [v] being the value of [source]. *)
Definition destructure (source first : string) (v : value) (k : string) : completion value :=
  if nullish v then Abrupt (ThrownError (destructure_error source v first)) else Normal (own v k).

(** *** Property keys *)

(** The [TypeError] of a conversion to a primitive that neither [toString]
    nor [valueOf] achieves. *)
Definition cannot_convert : js_error :=
  JsError "TypeError" "Cannot convert object to primitive value" "".

Definition has_own (k : string) (fields : list (string * value)) : bool :=
  existsb (fun field => String.eqb k field.1) fields.

(** [Array.prototype.join] with the separator [","], [key_of] being the
    conversion of an element: [null] and [undefined] count as empty. *)
Definition join_keys (key_of : value -> completion string) : list value -> completion string :=
  fix join_items (items : list value) : completion string :=
    match items with
    | [] => Normal ""
    | item :: rest =>
        first ← (if nullish item then Normal "" else key_of item);
        match rest with
        | [] => Normal first
        | _ => others ← join_items rest; Normal (first +:+ "," +:+ others)
        end
    end.

(** ToPropertyKey of a value parsed from JSON, as [table[v]] applies it.
    A number is written in decimal notation (JavaScript changes to the
    exponent notation from [10^21] on).  An array is the join of its
    elements.  An object is ["[object Object]"], unless it has a property
    [toString] of its own: that property is not a function, the inherited
    [valueOf] returns the object itself, and the conversion throws. *)
Fixpoint to_key (v : value) : completion string :=
  match v with
  | VUndefined => Normal "undefined"
  | VNull => Normal "null"
  | VBool b => Normal (if b then "true" else "false")
  | VNum n => Normal (pretty n)
  | VStr s => Normal s
  | VArr items => join_keys to_key items
  | VObj fields =>
      if has_own "toString" fields then Abrupt (ThrownError cannot_convert)
      else Normal "[object Object]"
  end.

(** The names every object literal inherits from [Object.prototype]. *)
Definition Object_prototype : list string :=
  ["constructor"; "__defineGetter__"; "__defineSetter__"; "hasOwnProperty";
   "__lookupGetter__"; "__lookupSetter__"; "isPrototypeOf"; "propertyIsEnumerable";
   "toString"; "valueOf"; "__proto__"; "toLocaleString"].

(** What [table[model] || model] evaluates to: a value, or a member that
    the table inherits from [Object.prototype] (a function, for
    [__proto__] the prototype itself), named by its key. *)
Inductive mapped : Type :=
  | Plain (v : value)
  | Inherited (name : string).

Fixpoint entry_of (key : string) (table : list (string * string)) : option string :=
  match table with
  | [] => None
  | (k, m) :: rest => if String.eqb key k then Some m else entry_of key rest
  end.

(** [table[model] || model] for an object literal [table] whose own
    properties are strings: an own entry that is not empty, else an
    inherited member (they are all truthy), else [model] itself. *)
Definition lookup_or (table : list (string * string)) (model : value) : completion mapped :=
  key ← to_key model;
  Normal (match entry_of key table with
          | Some m => if String.eqb m "" then Plain model else Plain (VStr m)
          | None => if bool_decide (key ∈ Object_prototype) then Inherited key else Plain model
          end).

(** The value can be used as a property key. *)
Definition convertible (v : value) : Prop := exists key, to_key v = Normal key.

(** ** The response object and the effects of a handler run *)

(** What [res.json(v)] and [res.end()] send; [Text] is the plain body of
    a [new Response(text, ...)]. *)
Inductive payload : Type :=
  | Json (v : value)
  | Text (s : string)
  | NoBody.

(** A [VercelResponse] as the handlers drive it: [setHeader], [status],
    [json], [write] and [end].  [written] holds the chunks of [res.write]
    in order. *)
Record response : Type := Response {
  statusCode : Z;
  headers : gmap string string;
  written : list string;
  headersSent : bool;
  sent : option payload
}.

Definition fresh_response : response := Response 200 ∅ [] false None.

Inductive level : Type := INFO | WARN | ERROR.

(** Effects other than writes to [res]: a log line with the values handed
    to the logger, a log line that is handed the caught value, an
    [axios.post], a [streamText] call with the argument of [anthropic(...)],
    and a log line that is handed the mapped model. *)
Inductive event : Type :=
  | Log (lvl : level) (message : string) (details : list value)
  | LogThrown (lvl : level) (message : string) (error : thrown)
  | Post (url : string) (body : value) (apiKey : string) (timeout : Z)
  | StreamText (model : mapped) (messages maxTokens : value)
  | LogModel (lvl : level) (message : string) (model : mapped) (details : list value).

Definition is_outbound (e : event) : bool :=
  match e with
  | Post _ _ _ _ | StreamText _ _ _ => true
  | _ => false
  end.

(** The outbound calls of a trace, in order. *)
Definition outbound (t : list event) : list event := filter (fun e => is_outbound e = true) t.

(** The mutable world of one handler run: the response object, the
    module-level variables of the file ([G]) and the trace so far. *)
Record state (G : Type) : Type := State {
  res : response;
  globals : G;
  trace : list event
}.
Arguments State {G} res globals trace.
Arguments res {G} s.
Arguments globals {G} s.
Arguments trace {G} s.

(** Statements: they run in a state and complete normally or abruptly, and
    what they did to the state stays done when they throw. *)
Definition M (G A : Type) : Type := state G -> completion A * state G.

Definition ret {G A} (a : A) : M G A := fun s => (Normal a, s).

Definition lift {G A} (c : completion A) : M G A := fun s => (c, s).

Definition seq {G A B} (m : M G A) (k : A -> M G B) : M G B := fun s =>
  match m s with
  | (Normal a, s') => k a s'
  | (Abrupt t, s') => (Abrupt t, s')
  end.

(** [try { m } catch (error) { h error }]. *)
Definition try_catch {G A} (m : M G A) (h : thrown -> M G A) : M G A := fun s =>
  match m s with
  | (Normal a, s') => (Normal a, s')
  | (Abrupt t, s') => h t s'
  end.

#[global] Instance M_ret {G} : MRet (M G) := fun A a => ret a.
#[global] Instance M_bind {G} : MBind (M G) := fun A B k m => seq m k.

Definition update_res {G} (f : response -> response) : M G unit := fun s =>
  (Normal tt, State (f (res s)) (globals s) (trace s)).

Definition current_res {G} : M G response := fun s => (Normal (res s), s).

Definition emit {G} (e : event) : M G unit := fun s =>
  (Normal tt, State (res s) (globals s) (trace s ++ [e])).

(** The five methods on the response object itself. *)
Definition set_header (name v : string) (r : response) : response :=
  Response (statusCode r) (<[name := v]> (headers r)) (written r) (headersSent r) (sent r).

Definition set_status (code : Z) (r : response) : response :=
  Response code (headers r) (written r) (headersSent r) (sent r).

Definition send_json (v : value) (r : response) : response :=
  Response (statusCode r) (<["Content-Type" := "application/json; charset=utf-8"]> (headers r))
           (written r) true (Some (Json v)).

Definition send_end (r : response) : response :=
  Response (statusCode r) (headers r) (written r) true
           (match sent r with Some p => Some p | None => Some NoBody end).

Definition send_chunk (chunk : string) (r : response) : response :=
  Response (statusCode r) (headers r) (written r ++ [chunk]) true (sent r).

Definition setHeader {G} (name v : string) : M G unit := update_res (set_header name v).
Definition status {G} (code : Z) : M G unit := update_res (set_status code).
Definition json {G} (v : value) : M G unit := update_res (send_json v).
Definition end_ {G} : M G unit := update_res send_end.
Definition write {G} (chunk : string) : M G unit := update_res (send_chunk chunk).

(** [console.log], [console.warn], [console.error] and [log(level, ...)]. *)
Definition log {G} (lvl : level) (message : string) (details : list value) : M G unit :=
  emit (Log lvl message details).

Definition when {G} (b : bool) (m : M G unit) : M G unit := if b then m else ret tt.

(** A string as a value, and [undefined] for an absent one. *)
Definition of_option (o : option string) : value :=
  match o with Some s => VStr s | None => VUndefined end.

(** The field of the JSON body that was sent, [undefined] when the body
    has no such field or nothing was sent as JSON. *)
Definition body_field (r : response) (k : string) : value :=
  match sent r with
  | Some (Json v) => get_opt v k
  | _ => VUndefined
  end.

(** *** String helpers of the handlers *)

(** White space of [String.prototype.trim] among the Latin-1 code points. *)
Definition is_space (a : ascii) : bool :=
  let n := nat_of_ascii a in
  ((9 <=? n) && (n <=? 13) || (n =? 32) || (n =? 160))%nat.

Fixpoint trim_start (s : string) : string :=
  match s with
  | String a rest => if is_space a then trim_start rest else s
  | EmptyString => EmptyString
  end.

Fixpoint trim_end (s : string) : string :=
  match s with
  | String a rest =>
      match trim_end rest with
      | EmptyString => if is_space a then EmptyString else String a EmptyString
      | rest' => String a rest'
      end
  | EmptyString => EmptyString
  end.

Definition trim (s : string) : string := trim_end (trim_start s).

(** [s.split(",")[0]]. *)
Fixpoint first_segment (s : string) : string :=
  match s with
  | String a rest => if Ascii.eqb a "," then EmptyString else String a (first_segment rest)
  | EmptyString => EmptyString
  end.

Definition nonempty (s : string) : bool := negb (String.eqb s "").

(** ** api/claude-proxy.ts *)

Module ClaudeProxy.

(** *** checkRateLimit *)

Record entry : Type := Entry { count : Z; resetTime : Z }.

(** [limit] and [window] are the values of
    [parseInt(process.env.RATE_LIMIT_REQUESTS || "100")] and
    [parseInt(process.env.RATE_LIMIT_WINDOW_MS || "60000")], for settings
    that parse as integers. *)
Record limits : Type := Limits { limit : Z; window : Z }.

Definition default_limits : limits := Limits 100 60000.

(** [rateLimitStore] is threaded through; [current.count++] writes through
    the object held by the map, hence the insert. *)
Definition checkRateLimit (cfg : limits) (now : Z) (clientId : string)
    (rateLimitStore : gmap string entry) : bool * gmap string entry :=
  match rateLimitStore !! clientId with
  | None => (true, <[clientId := Entry 1 (now + window cfg)]> rateLimitStore)
  | Some current =>
      if resetTime current <? now then
        (true, <[clientId := Entry 1 (now + window cfg)]> rateLimitStore)
      else if count current <? limit cfg then
        (true, <[clientId := Entry (count current + 1) (resetTime current)]> rateLimitStore)
      else (false, rateLimitStore)
  end.

(** A sequence of calls, each with the clock it reads and its client, run
    in order on the shared store: the verdicts and the store left behind. *)
Fixpoint checkRateLimit_all (cfg : limits) (calls : list (Z * string))
    (rateLimitStore : gmap string entry) : list bool * gmap string entry :=
  match calls with
  | [] => ([], rateLimitStore)
  | (now, clientId) :: rest =>
      let '(admitted, store1) := checkRateLimit cfg now clientId rateLimitStore in
      let '(verdicts, store2) := checkRateLimit_all cfg rest store1 in
      (admitted :: verdicts, store2)
  end.

(** *** validateClaudeRequest *)

Record validation : Type := Validation { valid : bool; error : option string }.

Definition invalid (reason : string) : validation := Validation false (Some reason).
Definition ok : validation := Validation true None.

(** What differs between the two revisions of the file. *)
Record revision : Type := Revision {
  allowedModels : list string;
  maxTokensBound : Z;
  maxTokensReason : string;
  timeoutMs : Z;
  timeoutReason : string;
  verbose : bool   (* the revision that reports through [log(level, ...)] *)
}.

Definition revision_1 : revision := {|
  allowedModels := [ "claude-3-5-sonnet-20241022"; "claude-3-5-sonnet-20240620";
                     "claude-3-opus-20240229"; "claude-3-sonnet-20240229";
                     "claude-3-haiku-20240307" ];
  maxTokensBound := 4096;
  maxTokensReason := "max_tokens must be between 1 and 4096";
  timeoutMs := 30000;
  timeoutReason := "Claude API request timed out after 30 seconds";
  verbose := false
|}.

Definition revision_2 : revision := {|
  allowedModels := [ "claude-sonnet-4-5-20250929"; "claude-haiku-4-5-20251001";
                     "claude-opus-4-1-20250805"; "claude-sonnet-4-20250514";
                     "claude-opus-4-20250514"; "claude-3-7-sonnet-20250219";
                     "claude-3-5-haiku-20241022"; "claude-3-haiku-20240307" ];
  maxTokensBound := 8192;
  maxTokensReason := "max_tokens must be between 1 and 8192";
  timeoutMs := 60000;
  timeoutReason := "Claude API request timed out after 60 seconds";
  verbose := true
|}.

(** The [for (const msg of body.messages)] loop: [Some v] is its early
    [return v], [None] is falling out of the loop. *)
Fixpoint check_messages (msgs : list value) : completion (option validation) :=
  match msgs with
  | [] => Normal None
  | msg :: rest =>
      role ← get msg "role";
      if negb (truthy role) then
        Normal (Some (invalid "Each message must have 'role' and 'content'"))
      else
        content ← get msg "content";
        if negb (truthy content) then
          Normal (Some (invalid "Each message must have 'role' and 'content'"))
        else if negb (includes ["user"; "assistant"] role) then
          Normal (Some (invalid "Message role must be 'user' or 'assistant'"))
        else check_messages rest
  end.

Definition validateClaudeRequest (coerce : value -> option Z) (rev : revision)
    (body : value) : completion validation :=
  messages ← get body "messages";
  if negb (truthy messages) || negb (isArray messages) then
    Normal (invalid "Missing or invalid 'messages' array")
  else
    match messages with
    | VArr items =>
        if (Z.of_nat (length items) =? 0) then
          Normal (invalid "Messages array cannot be empty")
        else
          early ← check_messages items;
          match early with
          | Some v => Normal v
          | None =>
              model ← get body "model";
              if negb (truthy model) then Normal (invalid "Missing 'model' field")
              else if negb (includes (allowedModels rev) model) then
                Normal (invalid ("Invalid model. Allowed models: " +:+ join ", " (allowedModels rev)))
              else
                max_tokens ← get body "max_tokens";
                if truthy max_tokens
                   && (lt_num coerce max_tokens 1 || gt_num coerce max_tokens (maxTokensBound rev))
                then Normal (invalid (maxTokensReason rev))
                else Normal ok
          end
    | _ => Normal (invalid "Missing or invalid 'messages' array")  (* excluded by [isArray] *)
    end.

(** *** handleProxyError *)

Section Handlers.

Context (coerce : value -> option Z) (rev : revision).

(** The module-level [rateLimitStore] is the global of this file. *)
Local Abbreviation Stmt := (M (gmap string entry)).

(** [error.response.headers["retry-after"] || "60"]. *)
Definition retryAfter_of (hdrs : gmap string string) : string :=
  match hdrs !! "retry-after" with
  | Some h => if nonempty h then h else "60"
  | None => "60"
  end.

(** [data.error?.message || fallback], [data.error] raising on a [null] or
    [undefined] [data]. *)
Definition upstream_field (data : value) (k fallback : string) : completion value :=
  e ← get data "error";
  Normal (or_else (get_opt e k) (VStr fallback)).

Definition handleProxyError (error : thrown) : Stmt unit :=
  let unexpected : Stmt unit :=
    emit (LogThrown ERROR (if verbose rev then "Unexpected proxy error" else "Unexpected proxy error:") error);;
    status 500;;
    json (VObj [("error", VStr "internal_server_error");
                ("message", VStr "An unexpected error occurred while proxying your request")])
  in
  match error with
  | ThrownAxios (AxiosError _ code (Some response)) =>
      let st := resp_status response in
      let data := resp_data response in
      (if verbose rev then
         e ← lift (get data "error");
         log ERROR "Claude API error" [VNum st; get_opt e "type"; get_opt e "message"]
       else log ERROR "Claude API error" [VNum st; data]);;
      if st =? 429 then
        let retryAfter := retryAfter_of (resp_headers response) in
        setHeader "Retry-After" retryAfter;;
        status 429;;
        message ← lift (upstream_field data "message" "Claude API rate limit reached");
        json (VObj [("error", VStr "rate_limit_exceeded");
                    ("message", message);
                    ("retry_after", VStr retryAfter)])
      else if (st =? 401) || (st =? 403) then
        status st;;
        json (VObj [("error", VStr "authentication_failed");
                    ("message", VStr "Invalid or expired API credentials")])
      else if st =? 529 then
        setHeader "Retry-After" "60";;
        status 503;;
        json (VObj [("error", VStr "service_unavailable");
                    ("message", VStr "Claude API is experiencing high traffic")])
      else if st =? 400 then
        status 400;;
        message ← lift (upstream_field data "message" "Invalid request to Claude API");
        json (VObj [("error", VStr "invalid_request"); ("message", message)])
      else
        status st;;
        kind ← lift (upstream_field data "type" "api_error");
        message ← lift (upstream_field data "message" "Unknown error from Claude API");
        json (VObj [("error", kind); ("message", message)])
  | ThrownAxios (AxiosError _ code None) =>
      if bool_decide (code = Some "ECONNABORTED") then
        status 504;;
        json (VObj [("error", VStr "request_timeout"); ("message", VStr (timeoutReason rev))])
      else if bool_decide (code = Some "ECONNREFUSED") || bool_decide (code = Some "ENOTFOUND") then
        status 503;;
        json (VObj [("error", VStr "service_unavailable");
                    ("message", VStr "Could not connect to Claude API")])
      else unexpected
  | ThrownError _ => unexpected
  end.

(** *** handler *)

(** The parts of the [VercelRequest] the handler reads. *)
Record request : Type := Request {
  method : string;
  x_forwarded_for : option string;   (* req.headers["x-forwarded-for"] *)
  remoteAddress : option string;     (* req.socket.remoteAddress *)
  body : value
}.

(** [process.env] as the handler reads it. *)
Record environment : Type := Environment {
  ANTHROPIC_API_KEY : option string;
  rate_limits : limits
}.

(** [axios.post(url, body, {headers, timeout})]: the provider's answer, or
    the error axios rejects with. *)
Definition provider : Type := string -> value -> completion axios_response.

Definition clientId_of (req : request) : string :=
  let forwarded := match x_forwarded_for req with
                   | Some h => trim (first_segment h)
                   | None => ""
                   end in
  if nonempty forwarded then forwarded
  else match remoteAddress req with
       | Some a => if nonempty a then a else "unknown"
       | None => "unknown"
       end.

(** [checkRateLimit(clientId)] as a statement on the module-level store. *)
Definition rate_limit (cfg : limits) (now : Z) (clientId : string) : Stmt bool := fun s =>
  let call := checkRateLimit cfg now clientId (globals s) in
  (Normal call.1, State (res s) call.2 (trace s)).

(** The handler from the provider's answer on: the rate-limit headers it
    copies and the body it passes through. *)
Definition relay_response (clientId : string) (response : axios_response) : Stmt unit :=
  when (verbose rev)
    (model ← lift (get (resp_data response) "model");
     stop_reason ← lift (get (resp_data response) "stop_reason");
     usage ← lift (get (resp_data response) "usage");
     log INFO "Claude API response received"
       [VStr clientId; VNum (resp_status response); model; stop_reason;
        get_opt usage "input_tokens"; get_opt usage "output_tokens";
        of_option (resp_headers response !! "anthropic-ratelimit-requests-remaining")]);;
  match resp_headers response !! "anthropic-ratelimit-requests-remaining" with
  | Some h => when (nonempty h) (setHeader "X-RateLimit-Remaining" h)
  | None => ret tt
  end;;
  match resp_headers response !! "anthropic-ratelimit-requests-reset" with
  | Some h => when (nonempty h) (setHeader "X-RateLimit-Reset" h)
  | None => ret tt
  end;;
  status 200;;
  json (resp_data response).

(** The handler from the credential check on, for a key that is set: the
    one [axios.post] and what follows it. *)
Definition forward (upstream : provider) (apiKey clientId : string) (req : request) : Stmt unit :=
  when (verbose rev)
    (model ← lift (get (body req) "model");
     max_tokens ← lift (get (body req) "max_tokens");
     log INFO "Forwarding request to Claude API" [VStr clientId; model; max_tokens]);;
  emit (Post "https://api.anthropic.com/v1/messages" (body req) apiKey (timeoutMs rev));;
  response ← lift (upstream apiKey (body req));
  relay_response clientId response.

Definition handler (env : environment) (now : Z) (upstream : provider) (req : request) : Stmt unit :=
  setHeader "Access-Control-Allow-Origin" "*";;
  setHeader "Access-Control-Allow-Methods" "POST, OPTIONS";;
  setHeader "Access-Control-Allow-Headers" "Content-Type, Authorization, X-Requested-With";;
  if String.eqb (method req) "OPTIONS" then status 200;; end_
  else
    try_catch
      (let clientId := clientId_of req in
       when (verbose rev)
         (log INFO "Incoming proxy request"
            [VStr clientId; VStr (method req); get_opt (body req) "model";
             get_opt (body req) "max_tokens"; get_opt (get_opt (body req) "messages") "length"]);;
       if negb (String.eqb (method req) "POST") then
         when (verbose rev) (log WARN "Invalid method" [VStr (method req); VStr clientId]);;
         status 405;;
         json (VObj [("error", VStr "method_not_allowed");
                     ("message", VStr "Only POST requests are supported")])
       else
         admitted ← rate_limit (rate_limits env) now clientId;
         if negb admitted then
           when (verbose rev) (log WARN "Rate limit exceeded" [VStr clientId]);;
           setHeader "Retry-After" "60";;
           status 429;;
           json (VObj [("error", VStr "rate_limit_exceeded");
                       ("message", VStr "Too many requests. Please try again later.")])
         else
           validation ← lift (validateClaudeRequest coerce rev (body req));
           if negb (valid validation) then
             when (verbose rev)
               (log WARN "Invalid request body" [VStr clientId; of_option (error validation); body req]);;
             status 400;;
             json (VObj [("error", VStr "invalid_request"); ("message", of_option (error validation))])
           else
             let not_configured : Stmt unit :=
               log ERROR "ANTHROPIC_API_KEY not configured" [];;
               status 500;;
               json (VObj [("error", VStr "server_configuration_error");
                           ("message", VStr "API key not configured on server")]) in
             match ANTHROPIC_API_KEY env with
             | Some apiKey =>
                 if nonempty apiKey then forward upstream apiKey clientId req
                 else not_configured
             | None => not_configured
             end)
      handleProxyError.

End Handlers.

End ClaudeProxy.

(** ** api/claude-stream-v2.ts *)

Module ClaudeStreamV2.

Record request : Type := Request { method : string; body : value }.

(** How [result.textStream] ends: the provider completes, or the iteration
    throws. *)
Inductive ending : Type :=
  | Completed
  | Failed (e : js_error).

(** The text fragments of [result.textStream], in the order they arrive. *)
Record text_stream : Type := TextStream { fragments : list string; finish : ending }.

(** [await streamText({model: anthropic(mappedModel), messages, temperature: 1, maxTokens})]. *)
Definition sdk : Type := mapped -> value -> value -> completion text_stream.

Definition LF : string := String (ascii_of_nat 10) EmptyString.

Definition modelMap : list (string * string) :=
  [("claude-sonnet-4-5-20250929", "claude-sonnet-4");
   ("claude-haiku-4-5-20251001", "claude-haiku-4");
   ("claude-opus-4-1-20250805", "claude-opus-4")].

(** [modelMap[model] || model]. *)
Definition mappedModel (model : value) : completion mapped := lookup_or modelMap model.

(** [process.env.ANTHROPIC_API_KEY?.startsWith('sk-ant-')], [undefined]
    read as false. *)
Definition key_ok (key : option string) : bool :=
  match key with
  | Some k => String.prefix "sk-ant-" k
  | None => false
  end.

Local Abbreviation Stmt := (M unit).

(** [for await (const chunk of stream) res.write(`data: ${chunk}\n\n`)]. *)
Fixpoint relay (chunks : list string) : Stmt unit :=
  match chunks with
  | [] => ret tt
  | chunk :: rest => write ("data: " +:+ chunk +:+ LF +:+ LF);; relay rest
  end.

Definition handler (ANTHROPIC_API_KEY : option string) (streamText : sdk) (req : request) : Stmt unit :=
  setHeader "Access-Control-Allow-Origin" "*";;
  setHeader "Access-Control-Allow-Methods" "POST, OPTIONS";;
  setHeader "Access-Control-Allow-Headers" "Content-Type";;
  if String.eqb (method req) "OPTIONS" then status 204;; end_
  else if negb (String.eqb (method req) "POST") then
    status 405;; json (VObj [("error", VStr "Method not allowed")])
  else
    try_catch
      (model ← lift (destructure "req.body" "model" (body req) "model");
       messages ← lift (destructure "req.body" "model" (body req) "messages");
       maxTokens ← lift (default_to (VNum 4096)
                           <$> destructure "req.body" "model" (body req) "maxTokens");
       if negb (truthy model) || negb (truthy messages) then
         status 400;; json (VObj [("error", VStr "Missing required fields: model, messages")])
       else
         mapped ← lift (mappedModel model);
         if negb (key_ok ANTHROPIC_API_KEY) then
           status 500;; json (VObj [("error", VStr "ANTHROPIC_API_KEY not configured")])
         else
           emit (LogModel INFO "[STREAM-V2] Starting stream:" mapped [own messages "length"]);;
           emit (StreamText mapped messages maxTokens);;
           result ← lift (streamText mapped messages maxTokens);
           setHeader "Content-Type" "text/event-stream";;
           setHeader "Cache-Control" "no-cache";;
           setHeader "Connection" "keep-alive";;
           relay (fragments result);;
           match finish result with
           | Completed => write ("data: [DONE]" +:+ LF +:+ LF);; end_
           | Failed e => lift (Abrupt (ThrownError e))
           end)
      (fun error =>
         emit (LogThrown ERROR "[STREAM-V2] Error:" error);;
         r ← current_res;
         if headersSent r then end_
         else
           status 500;;
           json (VObj [("error", or_else (VStr (err_message (error_of error)))
                                         (VStr "Internal server error"));
                       ("details", VStr (error_toString (error_of error)))])).

End ClaudeStreamV2.

(** ** api/agent-analyze.ts, the revision answering through [toDataStreamResponse] *)

Module AgentAnalyze.

(** [body] is the outcome of [await req.json()]. *)
Record request : Type := Request { method : string; body : completion value }.

(** [createDesignAgent(context || {})], [streamText] on its result with the
    prompt and [maxTokens], and [result.toDataStreamResponse({headers:
    corsHeaders})]: the response the SDK builds, or what it throws. *)
Definition agent : Type := value -> value -> value -> completion response.

Definition corsHeaders : gmap string string :=
  <["Access-Control-Allow-Headers" := "Content-Type"]>
    (<["Access-Control-Allow-Methods" := "POST, OPTIONS"]>
       (<["Access-Control-Allow-Origin" := "*"]> ∅)).

Local Abbreviation Stmt := (M unit).

(** [return new Response(body, {status, headers})]. *)
Definition respond (code : Z) (hdrs : gmap string string) (p : payload) : Stmt unit :=
  update_res (fun _ => Response code hdrs [] true (Some p)).

Definition json_headers : gmap string string := <["Content-Type" := "application/json"]> corsHeaders.

Definition handler (run_agent : agent) (req : request) : Stmt unit :=
  if String.eqb (method req) "OPTIONS" then respond 204 corsHeaders NoBody
  else if negb (String.eqb (method req) "POST") then respond 405 corsHeaders (Text "Method not allowed")
  else
    try_catch
      (parsed ← lift (body req);
       userPrompt ← lift (destructure "body" "userPrompt" parsed "userPrompt");
       context ← lift (destructure "body" "userPrompt" parsed "context");
       model ← lift (default_to (VStr "claude-sonnet-4")
                       <$> destructure "body" "userPrompt" parsed "model");
       maxTokens ← lift (default_to (VNum 4096)
                           <$> destructure "body" "userPrompt" parsed "maxTokens");
       if negb (truthy userPrompt) then
         respond 400 json_headers (Json (VObj [("error", VStr "Missing required field: userPrompt")]))
       else
         log INFO "Agent request:" [model; own userPrompt "length"; VBool (truthy context)];;
         emit (StreamText (Plain (VStr "claude-sonnet-4"))
                 (VArr [VObj [("role", VStr "user"); ("content", userPrompt)]]) maxTokens);;
         answer ← lift (run_agent (or_else context (VObj [])) userPrompt maxTokens);
         update_res (fun _ => answer))
      (fun error =>
         emit (LogThrown ERROR "Agent execution error:" error);;
         respond 500 json_headers
           (Json (VObj [("error", or_else (VStr (err_message (error_of error)))
                                          (VStr "Internal server error"));
                        ("details", VStr (error_toString (error_of error)));
                        ("stack", VStr (err_stack (error_of error)))]))).

End AgentAnalyze.

(** ** Vocabulary of the statements below *)

Module Rules.

Import ClaudeProxy.

(** Rule 3 on one message, as the loop body decides it: the message is an
    object or another non-nullish value, [role] and [content] are truthy,
    and [role] is one of the two literals. *)
Definition message_ok (msg : value) : bool :=
  negb (nullish msg)
  && truthy (own msg "role")
  && truthy (own msg "content")
  && includes ["user"; "assistant"] (own msg "role").

(** The reason the loop gives for a message that fails rule 3. *)
Definition message_reason (msg : value) : string :=
  if truthy (own msg "role") && truthy (own msg "content")
  then "Message role must be 'user' or 'assistant'"
  else "Each message must have 'role' and 'content'".

(** Rule 5 as the code decides it: a truthy [max_tokens] outside
    [1 .. maxTokensBound]. *)
Definition max_tokens_rejected (coerce : value -> option Z) (rev : revision) (max_tokens : value) : bool :=
  truthy max_tokens
  && (lt_num coerce max_tokens 1 || gt_num coerce max_tokens (maxTokensBound rev)).

(** Every rule passes. *)
Definition passes (coerce : value -> option Z) (rev : revision) (body : value) : Prop :=
  nullish body = false
  /\ exists items,
      own body "messages" = VArr items
      /\ items <> []
      /\ Forall (fun msg => message_ok msg = true) items
      /\ truthy (own body "model") = true
      /\ includes (allowedModels rev) (own body "model") = true
      /\ max_tokens_rejected coerce rev (own body "max_tokens") = false.


(** A request body [{model, messages: [{role, content}], max_tokens}]. *)
Definition chat (model : string) (role : string) (content : value) (max_tokens : value) : value :=
  VObj [("model", VStr model);
        ("max_tokens", max_tokens);
        ("messages", VArr [VObj [("role", VStr role); ("content", content)]])].

(** What a statement run from state [s] leaves: how it completed, the
    response object, the module-level variables and the trace. *)
Definition outcome {G A} (m : M G A) (s : state G) : completion A := (m s).1.
Definition response_after {G A} (m : M G A) (s : state G) : response := res (m s).2.
Definition globals_after {G A} (m : M G A) (s : state G) : G := globals (m s).2.
Definition trace_after {G A} (m : M G A) (s : state G) : list event := trace (m s).2.

(** A handler starts on a fresh response object with an empty trace. *)
Definition start {G} (g : G) : state G := State fresh_response g [].

(** A statement that issues no outbound call, however it completes. *)
Definition quiet {G A} (m : M G A) : Prop :=
  forall s, outbound (trace (m s).2) = outbound (trace s).

(** The credential is absent or empty: [!apiKey]. *)
Definition key_missing (env : environment) : Prop :=
  ANTHROPIC_API_KEY env = None \/ ANTHROPIC_API_KEY env = Some "".

(** The client's bucket admits a call made at clock [now]. *)
Definition admits (env : environment) (now : Z) (req : request) (store : gmap string entry) : bool :=
  (checkRateLimit (rate_limits env) now (clientId_of req) store).1.

(** A run of [m] from [s] that answers [code] with the JSON body [body]
    and makes no outbound call. *)
Definition rejected {G} (m : M G unit) (s : state G) (code : Z) (body : value) : Prop :=
  outcome m s = Normal tt
  /\ statusCode (response_after m s) = code
  /\ sent (response_after m s) = Some (Json body)
  /\ outbound (trace_after m s) = [].

(** The one [axios.post] of the buffered handler. *)
Definition the_post (rev : revision) (apiKey : string) (req : request) : event :=
  Post "https://api.anthropic.com/v1/messages" (body req) apiKey (timeoutMs rev).

(** One server-sent event of the streaming endpoint: [data: <text>\n\n]. *)
Definition sse (text : string) : string :=
  "data: " +:+ text +:+ ClaudeStreamV2.LF +:+ ClaudeStreamV2.LF.

(** The request reaches the provider call of the streaming handler: a POST
    whose body has a truthy [model] and [messages]. *)
Definition streamable (req : ClaudeStreamV2.request) : Prop :=
  ClaudeStreamV2.method req = "POST"
  /\ nullish (ClaudeStreamV2.body req) = false
  /\ truthy (own (ClaudeStreamV2.body req) "model") = true
  /\ truthy (own (ClaudeStreamV2.body req) "messages") = true.

(** The model of the [streamText] call for a request whose [model] can be
    used as a property key; for one that cannot there is no call, and the
    [model] stands here as it is. *)
Definition mapped_model (req : ClaudeStreamV2.request) : mapped :=
  match ClaudeStreamV2.mappedModel (own (ClaudeStreamV2.body req) "model") with
  | Normal m => m
  | Abrupt _ => Plain (own (ClaudeStreamV2.body req) "model")
  end.

(** The arguments of the [streamText] call for a request. *)
Definition stream_call (req : ClaudeStreamV2.request) : event :=
  StreamText (mapped_model req)
             (own (ClaudeStreamV2.body req) "messages")
             (default_to (VNum 4096) (own (ClaudeStreamV2.body req) "maxTokens")).

(** What the mapping of the model and the SDK do with the request: the
    exception of the mapping, or what the SDK makes of that call. *)
Definition stream_result (streamText : ClaudeStreamV2.sdk) (req : ClaudeStreamV2.request)
    : completion ClaudeStreamV2.text_stream :=
  m ← ClaudeStreamV2.mappedModel (own (ClaudeStreamV2.body req) "model");
  streamText m
             (own (ClaudeStreamV2.body req) "messages")
             (default_to (VNum 4096) (own (ClaudeStreamV2.body req) "maxTokens")).

(** The body of the [catch] block's answer in the streaming handler. *)
Definition echoed (error : thrown) : value :=
  VObj [("error", or_else (VStr (err_message (error_of error))) (VStr "Internal server error"));
        ("details", VStr (error_toString (error_of error)))].

(** The body of the [catch] block's answer in the agent handler. *)
Definition echoed_with_stack (error : thrown) : value :=
  VObj [("error", or_else (VStr (err_message (error_of error))) (VStr "Internal server error"));
        ("details", VStr (error_toString (error_of error)));
        ("stack", VStr (err_stack (error_of error)))].

(** A chat request for the streaming endpoint. *)
Definition stream_request : ClaudeStreamV2.request :=
  ClaudeStreamV2.Request "POST"
    (VObj [("model", VStr "claude-sonnet-4-5-20250929");
           ("messages", VArr [VObj [("role", VStr "user"); ("content", VStr "Hi")]])]).

(** An SDK whose stream yields the given fragments and completes. *)
Definition streaming (fs : list string) : ClaudeStreamV2.sdk := fun _ _ _ =>
  Normal (ClaudeStreamV2.TextStream fs ClaudeStreamV2.Completed).


(** A connection failure as Node reports it. *)
Definition timed_out : js_error :=
  JsError "Error" "connect ETIMEDOUT 160.79.104.10:443"
    "Error: connect ETIMEDOUT 160.79.104.10:443 at TCPConnectWrap.afterConnect [as oncomplete] (node:net:1555:16)".

(** A provider that answers every request with a message envelope. *)
Definition answering : provider := fun _ _ =>
  Normal (AxiosResponse 200 ∅
            (VObj [("type", VStr "message"); ("role", VStr "assistant");
                   ("content", VArr [VObj [("type", VStr "text"); ("text", VStr "Hello")]])])).

(** The line [handleProxyError] logs for an answer of the provider. *)
Definition upstream_log (rev : revision) (st : Z) (data : value) : event :=
  if verbose rev then
    Log ERROR "Claude API error"
      [VNum st; get_opt (own data "error") "type"; get_opt (own data "error") "message"]
  else Log ERROR "Claude API error" [VNum st; data].

(** The line it logs for a failure it does not classify. *)
Definition unexpected_log (rev : revision) (error : thrown) : event :=
  LogThrown ERROR (if verbose rev then "Unexpected proxy error" else "Unexpected proxy error:") error.

(** The body of its answer to such a failure. *)
Definition internal_server_error : value :=
  VObj [("error", VStr "internal_server_error");
        ("message", VStr "An unexpected error occurred while proxying your request")].

(** The provider's error body [{type: "error", error: {type, message}}]. *)
Definition provider_error (kind message : string) : value :=
  VObj [("type", VStr "error");
        ("error", VObj [("type", VStr kind); ("message", VStr message)])].

(** An [AxiosError] as axios builds it for an answered request. *)
Definition request_failed : js_error :=
  JsError "AxiosError" "Request failed" "AxiosError: Request failed".

(** An [AxiosError] carrying the provider's response. *)
Definition upstream_failure (e : js_error) (code : option string) (st : Z)
    (hdrs : gmap string string) (data : value) : thrown :=
  ThrownAxios (AxiosError e code (Some (AxiosResponse st hdrs data))).

(** An [AxiosError] without a response: the request never got an answer. *)
Definition transport_failure (e : js_error) (code : string) : thrown :=
  ThrownAxios (AxiosError e (Some code) None).

(** No conversion of strings, arrays and objects to numbers: all NaN. *)
Definition no_coercion : value -> option Z := fun _ => None.

End Rules.

(** ** Vocabulary of the further properties *)

Module Coverage.

Import ClaudeProxy.

(** Every entry holds a count between 1 and the limit (1 when the limit is
    smaller: the first call of a window is always counted). *)
Definition bounded (cfg : limits) (store : gmap string entry) : Prop :=
  map_Forall (fun _ e => 1 <= count e <= Z.max 1 (limit cfg)) store.

(** The calls of a sequence made for client [c]. *)
Definition calls_of (c : string) (calls : list (Z * string)) : list (Z * string) :=
  filter (fun call => call.2 = c) calls.

(** How many calls of client [c] a run of [calls] admitted, [verdicts]
    being the verdicts in call order. *)
Fixpoint admissions (c : string) (calls : list (Z * string)) (verdicts : list bool) : nat :=
  match calls, verdicts with
  | (_, d) :: calls', admitted :: verdicts' =>
      (if bool_decide (d = c) && admitted then 1 else 0)%nat + admissions c calls' verdicts'
  | _, _ => 0%nat
  end.

End Coverage.

Module Coverage2.

Import ClaudeProxy.

(** The reasons [validateClaudeRequest] can give, in the order of its rules. *)
Definition reasons (rev : revision) : list string :=
  [ "Missing or invalid 'messages' array";
    "Messages array cannot be empty";
    "Each message must have 'role' and 'content'";
    "Message role must be 'user' or 'assistant'";
    "Missing 'model' field";
    "Invalid model. Allowed models: " +:+ join ", " (allowedModels rev);
    maxTokensReason rev ].

(** A response sent as a JSON body whose [error] and [message] are truthy. *)
Definition answers_with_kind (r : response) : Prop :=
  exists body,
    sent r = Some (Json body)
    /\ truthy (get_opt body "error") = true
    /\ truthy (get_opt body "message") = true.

(** [handleProxyError] reads [data.error] of a provider answer whose parsed
    body is [null] or [undefined]: always in the revision that logs the
    error type, and otherwise for every status but 401, 403 and 529. *)
Definition reads_missing_body (rev : revision) (error : thrown) : bool :=
  match error with
  | ThrownAxios (AxiosError _ _ (Some response)) =>
      nullish (resp_data response)
      && (verbose rev
          || negb ((resp_status response =? 401) || (resp_status response =? 403)
                   || (resp_status response =? 529)))
  | _ => false
  end.

(** The parsed body of the provider's answer, if the error carries one. *)
Definition upstream_body (error : thrown) : value :=
  match error with
  | ThrownAxios (AxiosError _ _ (Some response)) => resp_data response
  | _ => VUndefined
  end.

End Coverage2.

Module Coverage3.

Import ClaudeProxy.

(** A predicate on states that a statement keeps, however it completes. *)
Definition inv {G A} (I : state G -> Prop) (m : M G A) : Prop :=
  forall s, I s -> I (m s).2.

(** The three CORS headers of a response, [allow] being the value of
    [Access-Control-Allow-Headers]. *)
Definition has_cors (allow : string) (r : response) : Prop :=
  headers r !! "Access-Control-Allow-Origin" = Some "*"
  /\ headers r !! "Access-Control-Allow-Methods" = Some "POST, OPTIONS"
  /\ headers r !! "Access-Control-Allow-Headers" = Some allow.

(** The response object once the buffered handler has set its CORS headers. *)
Definition cors_response : response :=
  set_header "Access-Control-Allow-Headers" "Content-Type, Authorization, X-Requested-With"
    (set_header "Access-Control-Allow-Methods" "POST, OPTIONS"
       (set_header "Access-Control-Allow-Origin" "*" fresh_response)).

(** The store after the handler's call of [checkRateLimit]. *)
Definition charged (env : environment) (now : Z) (req : request) (store : gmap string entry)
    : gmap string entry :=
  (checkRateLimit (rate_limits env) now (clientId_of req) store).2.

(** What the logging revision has logged when the rate limiter is called. *)
Definition incoming_log (rev : revision) (req : request) : list event :=
  if verbose rev then
    [Log INFO "Incoming proxy request"
       [VStr (clientId_of req); VStr (method req); get_opt (body req) "model";
        get_opt (body req) "max_tokens"; get_opt (get_opt (body req) "messages") "length"]]
  else [].

(** The state in which the buffered handler starts forwarding. *)
Definition forwarding_state (rev : revision) (env : environment) (now : Z) (req : request)
    (store : gmap string entry) : state (gmap string entry) :=
  State cors_response (charged env now req store) (incoming_log rev req).

(** [if (response.headers[name]) res.setHeader(to, response.headers[name])]. *)
Definition copy_header (name to : string) (upstream : axios_response) (r : response) : response :=
  match resp_headers upstream !! name with
  | Some h => if nonempty h then set_header to h r else r
  | None => r
  end.

(** The response of the buffered handler to a provider answer it relays. *)
Definition relayed (upstream : axios_response) : response :=
  send_json (resp_data upstream)
    (set_status 200
       (copy_header "anthropic-ratelimit-requests-reset" "X-RateLimit-Reset" upstream
          (copy_header "anthropic-ratelimit-requests-remaining" "X-RateLimit-Remaining" upstream
             cors_response))).

(** What the logging revision logs before the provider call. *)
Definition forward_log (rev : revision) (clientId : string) (req : request) : list event :=
  if verbose rev then
    [Log INFO "Forwarding request to Claude API"
       [VStr clientId; own (body req) "model"; own (body req) "max_tokens"]]
  else [].

(** The request passes the four checks of the buffered handler with the
    credential [apiKey]. *)
Definition forwardable (coerce : value -> option Z) (rev : revision) (env : environment)
    (now : Z) (req : request) (store : gmap string entry) (apiKey : string) : Prop :=
  method req = "POST"
  /\ (checkRateLimit (rate_limits env) now (clientId_of req) store).1 = true
  /\ (exists v, validateClaudeRequest coerce rev (body req) = Normal v /\ valid v = true)
  /\ ANTHROPIC_API_KEY env = Some apiKey
  /\ apiKey <> "".

(** A server with a credential and the default limits, a first request of
    a client, and a provider that is overloaded. *)
Definition example_env : environment :=
  Environment (Some "sk-ant-api03-example") default_limits.

Definition example_request : request :=
  Request "POST" (Some "203.0.113.7") None
    (Rules.chat "claude-3-haiku-20240307" "user" (VStr "Hi") (VNum 100)).

Definition overloaded : provider := fun _ _ =>
  Abrupt (Rules.upstream_failure Rules.request_failed (Some "ERR_BAD_RESPONSE") 529 ∅
            (Rules.provider_error "overloaded_error" "Overloaded")).

End Coverage3.

(** ** Stream scenarios *)

Module Coverage4.

(** An SDK whose stream yields the given fragments and then throws. *)
Definition breaking (fs : list string) (e : js_error) : ClaudeStreamV2.sdk := fun _ _ _ =>
  Normal (ClaudeStreamV2.TextStream fs (ClaudeStreamV2.Failed e)).

End Coverage4.

(** ** api/agent-analyze.ts on the Node.js runtime *)

(** The later revision of the agent endpoint: it checks the credential
    before the agent is built and answers through
    [toTextStreamResponse]. *)
Module AgentAnalyzeNode.

Import AgentAnalyze.

Local Abbreviation Stmt := (M unit).

Definition handler (ANTHROPIC_API_KEY : option string) (run_agent : agent) (req : request)
    : Stmt unit :=
  if String.eqb (method req) "OPTIONS" then respond 204 corsHeaders NoBody
  else if negb (String.eqb (method req) "POST") then respond 405 corsHeaders (Text "Method not allowed")
  else
    try_catch
      (parsed ← lift (body req);
       userPrompt ← lift (destructure "body" "userPrompt" parsed "userPrompt");
       context ← lift (destructure "body" "userPrompt" parsed "context");
       model ← lift (default_to (VStr "claude-sonnet-4")
                       <$> destructure "body" "userPrompt" parsed "model");
       maxTokens ← lift (default_to (VNum 4096)
                           <$> destructure "body" "userPrompt" parsed "maxTokens");
       if negb (truthy userPrompt) then
         respond 400 json_headers (Json (VObj [("error", VStr "Missing required field: userPrompt")]))
       else
         let not_set : Stmt unit :=
           log ERROR "[AGENT] MISSING ANTHROPIC_API_KEY!" [];;
           respond 500 json_headers
             (Json (VObj [("error", VStr "Server configuration error: ANTHROPIC_API_KEY is not set");
                          ("hint", VStr "Add ANTHROPIC_API_KEY to Vercel environment variables")])) in
         match ANTHROPIC_API_KEY with
         | None => not_set
         | Some apiKey =>
             if negb (nonempty apiKey) then not_set
             else if negb (String.prefix "sk-ant-" apiKey) then
               log ERROR "[AGENT] INVALID ANTHROPIC_API_KEY FORMAT!" [];;
               respond 500 json_headers
                 (Json (VObj [("error", VStr "Server configuration error: ANTHROPIC_API_KEY has invalid format");
                              ("hint", VStr "API key should start with sk-ant-")]))
             else
               log INFO "[AGENT] ANTHROPIC_API_KEY exists:" [VBool true];;
               log INFO "[AGENT] ANTHROPIC_API_KEY length:" [VNum (Z.of_nat (String.length apiKey))];;
               log INFO "[AGENT] ANTHROPIC_API_KEY prefix:" [VStr (String.substring 0%nat 10%nat apiKey +:+ "...")];;
               log INFO "[AGENT] Agent request:" [model; own userPrompt "length"; VBool (truthy context)];;
               log INFO "[AGENT] Creating design agent..." [];;
               log INFO "[AGENT] Executing agent with streamText..." [];;
               emit (StreamText (Plain (VStr "claude-sonnet-4"))
                       (VArr [VObj [("role", VStr "user"); ("content", userPrompt)]]) maxTokens);;
               answer ← lift (run_agent (or_else context (VObj [])) userPrompt maxTokens);
               log INFO "[AGENT] streamText completed successfully" [];;
               update_res (fun _ => answer)
         end)
      (fun error =>
         emit (LogThrown ERROR "Agent execution error:" error);;
         respond 500 json_headers
           (Json (VObj [("error", or_else (VStr (err_message (error_of error)))
                                          (VStr "Internal server error"));
                        ("details", VStr (error_toString (error_of error)));
                        ("stack", VStr (err_stack (error_of error)))]))).

End AgentAnalyzeNode.

(** ** Vocabulary for the agent endpoint *)

Module Coverage5.

Import AgentAnalyze.

(** The request is a POST whose JSON body [parsed] holds a prompt. *)
Definition prompted (req : request) (parsed : value) : Prop :=
  method req = "POST" /\ body req = Normal parsed /\ nullish parsed = false
  /\ truthy (own parsed "userPrompt") = true.

(** The [streamText] call of the agent for the body [parsed]. *)
Definition agent_call (parsed : value) : event :=
  StreamText (Plain (VStr "claude-sonnet-4"))
    (VArr [VObj [("role", VStr "user"); ("content", own parsed "userPrompt")]])
    (default_to (VNum 4096) (own parsed "maxTokens")).

(** What the agent run makes of the body [parsed]. *)
Definition agent_result (run_agent : agent) (parsed : value) : completion response :=
  run_agent (or_else (own parsed "context") (VObj [])) (own parsed "userPrompt")
    (default_to (VNum 4096) (own parsed "maxTokens")).

(** An answer made by the handler itself: it carries the CORS headers and
    one of the four statuses. *)
Definition own_answer (r : response) : Prop :=
  Coverage3.has_cors "Content-Type" r /\ sent r <> None
  /\ statusCode r ∈ [204; 405; 400; 500].

(** The credential passes the two checks of the later revision. *)
Definition usable_key (key : option string) : Prop :=
  exists k, key = Some k /\ k <> "" /\ String.prefix "sk-ant-" k = true.

(** A prompt for the agent, and an agent that answers with an event
    stream. *)
Definition agent_request : request :=
  Request "POST" (Normal (VObj [("userPrompt", VStr "Check if this design is accessible")])).

Definition agent_stream : response :=
  Response 200 (<["Content-Type" := "text/plain; charset=utf-8"]> corsHeaders)
    ["Looks accessible."] true (Some NoBody).

Definition answering_agent : agent := fun _ _ _ => Normal agent_stream.

End Coverage5.

(** ** api/claude-stream.ts *)

(** The Edge streaming endpoint, in its two revisions: the later one also
    checks the format of the credential and logs more. *)
Module ClaudeStream.

Import AgentAnalyze.

(** [checks_format]: the revision tests [apiKey.startsWith('sk-ant-')]. *)
Record revision : Type := Revision { checks_format : bool }.

Definition first_draft : revision := Revision false.
Definition with_format_check : revision := Revision true.

(** [await streamText({model: anthropic(mappedModel), messages,
    temperature: 1})]: it throws, or it returns a result, which is
    represented by what [result.toTextStreamResponse({headers:
    corsHeaders})] makes of it. *)
Definition sdk : Type := mapped -> value -> completion (completion response).

Definition modelMap : list (string * string) :=
  [("claude-sonnet-4-5-20250929", "claude-sonnet-4");
   ("claude-haiku-4-5-20251001", "claude-haiku-4");
   ("claude-opus-4-1-20250805", "claude-opus-4");
   ("claude-3-haiku-20240307", "claude-3-haiku-20240307");
   ("claude-3-5-sonnet-20241022", "claude-3-5-sonnet-20241022")].

(** [modelMap[model] || model]. *)
Definition mappedModel (model : value) : completion mapped := lookup_or modelMap model.

Definition typeof (v : value) : string :=
  match v with
  | VUndefined => "undefined"
  | VNull => "object"
  | VBool _ => "boolean"
  | VNum _ => "number"
  | VStr _ => "string"
  | VArr _ | VObj _ => "object"
  end.

(** [content === undefined || content === null || content === '']. *)
Definition no_content (content : value) : bool :=
  match content with
  | VUndefined | VNull => true
  | VStr s => String.eqb s ""
  | _ => false
  end.

(** The [for (let i = 0; i < messages.length; i++)] loop from index [i]
    on: [Some answer] is the body of its early 400 answer, [None] is
    falling out of the loop. *)
Fixpoint validate_messages (i : nat) (messages : list value) : completion (option value) :=
  match messages with
  | [] => Normal None
  | msg :: rest =>
      role ← get msg "role";
      if negb (truthy role) then
        Normal (Some (VObj [("error", VStr ("Message at index " +:+ pretty i +:+ " is missing 'role'"));
                            ("message", msg)]))
      else
        content ← get msg "content";
        if no_content content then
          Normal (Some (VObj [("error", VStr ("Message at index " +:+ pretty i
                                              +:+ " is missing or has empty 'content'"));
                              ("message", VObj [("role", role);
                                                ("contentType", VStr (typeof content))])]))
        else validate_messages (S i) rest
  end.

(** [part => ({type: part.type, hasImage: !!part.image, hasText: !!part.text})]. *)
Definition describe_part (part : value) : completion value :=
  type ← get part "type";
  image ← get part "image";
  text ← get part "text";
  Normal (VObj [("type", type); ("hasImage", VBool (truthy image)); ("hasText", VBool (truthy text))]).

Definition contentLength (content : value) : value :=
  match content with
  | VStr s => VNum (Z.of_nat (String.length s))
  | VArr parts => VNum (Z.of_nat (length parts))
  | _ => VStr "N/A"
  end.

Definition contentPreview (content : value) : completion value :=
  match content with
  | VStr s => Normal (VStr (String.substring 0%nat 100%nat s))
  | VArr parts => VArr <$> mapM describe_part parts
  | _ => Normal (VStr "unknown")
  end.

Local Abbreviation Stmt := (M unit).

(** [messages.forEach((msg, index) => console.log(`Message ${index}:`,
    {...}))].  The details are [role], [contentType], [isArray],
    [contentLength] and [contentPreview]; [fullContent], the first 500
    characters of the JSON text of the content, is not recorded. *)
Fixpoint log_messages (index : nat) (messages : list value) : Stmt unit :=
  match messages with
  | [] => ret tt
  | msg :: rest =>
      role ← lift (get msg "role");
      content ← lift (get msg "content");
      preview ← lift (contentPreview content);
      log INFO ("Message " +:+ pretty index +:+ ":")
        [role; VStr (typeof content); VBool (isArray content); contentLength content; preview];;
      log_messages (S index) rest
  end.

(** The [try] block around [streamText], whose [catch] logs and rethrows. *)
Definition call_streamText (rev : revision) (streamText : sdk) (model : mapped)
    (messages : value) : Stmt (completion response) :=
  try_catch
    (when (checks_format rev) (log INFO "[STREAM] Calling streamText..." []);;
     emit (StreamText model messages VUndefined);;
     result ← lift (streamText model messages);
     log INFO "[STREAM] streamText returned successfully" [];;
     ret result)
    (fun streamError =>
       emit (LogThrown ERROR "[STREAM] streamText threw error:" streamError);;
       when (checks_format rev)
         (log ERROR "[STREAM] Error details:"
            [VStr (err_name (error_of streamError)); VStr (err_message (error_of streamError));
             VStr (String.substring 0%nat 500%nat (err_stack (error_of streamError)))]);;
       lift (Abrupt streamError)).

(** What follows the validation of the body: the mapping of the model,
    the checks of the credential, the logs and the call. *)
Definition stream (rev : revision) (ANTHROPIC_API_KEY : option string) (streamText : sdk)
    (model messages maxTokens : value) (items : list value) : Stmt unit :=
  mappedModel ← lift (mappedModel model);
  let not_set : Stmt unit :=
    log ERROR "MISSING ANTHROPIC_API_KEY!" [];;
    respond 500 json_headers
      (Json (VObj [("error", VStr "Server configuration error: ANTHROPIC_API_KEY is not set");
                   ("hint", VStr "Add ANTHROPIC_API_KEY to Vercel environment variables")])) in
  match ANTHROPIC_API_KEY with
  | None => not_set
  | Some apiKey =>
      if negb (nonempty apiKey) then not_set
      else if checks_format rev && negb (String.prefix "sk-ant-" apiKey) then
        log ERROR "INVALID ANTHROPIC_API_KEY FORMAT!" [];;
        respond 500 json_headers
          (Json (VObj [("error", VStr "Server configuration error: ANTHROPIC_API_KEY has invalid format");
                       ("hint", VStr "API key should start with sk-ant-")]))
      else
        log INFO "ANTHROPIC_API_KEY exists:" [VBool true];;
        log INFO "ANTHROPIC_API_KEY length:" [VNum (Z.of_nat (String.length apiKey))];;
        when (checks_format rev)
          (log INFO "ANTHROPIC_API_KEY prefix:"
             [VStr (String.substring 0%nat 10%nat apiKey +:+ "...")]);;
        emit (LogModel INFO "Streaming request:" mappedModel
                [VNum (Z.of_nat (length items)); maxTokens]);;
        log INFO "Detailed messages structure:" [];;
        log_messages 0 items;;
        log INFO "[STREAM] About to call streamText..." [];;
        emit (LogModel INFO "[STREAM] Model:" mappedModel []);;
        log INFO "[STREAM] Messages count:" [VNum (Z.of_nat (length items))];;
        result ← call_streamText rev streamText mappedModel messages;
        log INFO "[STREAM] Converting to text stream response..." [];;
        response ← lift result;
        log INFO "[STREAM] Response created, returning..." [];;
        update_res (fun _ => response)
  end.

Definition handler (rev : revision) (ANTHROPIC_API_KEY : option string) (streamText : sdk)
    (req : request) : Stmt unit :=
  if String.eqb (method req) "OPTIONS" then respond 204 corsHeaders NoBody
  else if negb (String.eqb (method req) "POST") then respond 405 corsHeaders (Text "Method not allowed")
  else
    try_catch
      (parsed ← lift (body req);
       model ← lift (destructure "(intermediate value)" "model" parsed "model");
       messages ← lift (destructure "(intermediate value)" "model" parsed "messages");
       maxTokens ← lift (default_to (VNum 4096)
                           <$> destructure "(intermediate value)" "model" parsed "maxTokens");
       if negb (truthy model) || negb (truthy messages) then
         respond 400 json_headers
           (Json (VObj [("error", VStr "Missing required fields: model, messages")]))
       else
         match messages with
         | VArr items =>
             if (Z.of_nat (length items) =? 0) then
               respond 400 json_headers
                 (Json (VObj [("error", VStr "messages must be a non-empty array")]))
             else
               early ← lift (validate_messages 0 items);
               match early with
               | Some answer => respond 400 json_headers (Json answer)
               | None => stream rev ANTHROPIC_API_KEY streamText model messages maxTokens items
               end
         | _ =>
             respond 400 json_headers
               (Json (VObj [("error", VStr "messages must be a non-empty array")]))
         end)
      (fun error =>
         emit (LogThrown ERROR "Streaming error:" error);;
         respond 500 json_headers
           (Json (VObj [("error", or_else (VStr (err_message (error_of error)))
                                          (VStr "Internal server error"));
                        ("details", VStr (error_toString (error_of error)))]))).

End ClaudeStream.

(** ** Vocabulary for api/claude-stream.ts *)

Module Coverage6.

Import AgentAnalyze ClaudeStream.

(** The loop body lets the message through. *)
Definition message_passes (msg : value) : bool :=
  negb (nullish msg) && truthy (own msg "role") && negb (no_content (own msg "content")).

(** The body of the 400 answer for the message [msg] at index [i]. *)
Definition failure_answer (i : nat) (msg : value) : value :=
  if truthy (own msg "role") then
    VObj [("error", VStr ("Message at index " +:+ pretty i +:+ " is missing or has empty 'content'"));
          ("message", VObj [("role", own msg "role");
                            ("contentType", VStr (typeof (own msg "content")))])]
  else
    VObj [("error", VStr ("Message at index " +:+ pretty i +:+ " is missing 'role'"));
          ("message", msg)].

(** The body passes the checks of the endpoint: [model] is truthy and
    [messages] is a non-empty array of messages that pass. *)
Definition well_formed (parsed : value) (items : list value) : Prop :=
  nullish parsed = false
  /\ truthy (own parsed "model") = true
  /\ own parsed "messages" = VArr items
  /\ items <> []
  /\ Forall (fun msg => message_passes msg = true) items.

(** The content of the message is an array that holds [null] or
    [undefined]: the part [part.type] cannot be read of. *)
Definition unloggable (msg : value) : bool :=
  match own msg "content" with
  | VArr parts => existsb nullish parts
  | _ => false
  end.

(** The credential passes the checks of the revision. *)
Definition key_accepted (rev : revision) (key : option string) : bool :=
  match key with
  | Some k => nonempty k && (negb (checks_format rev) || String.prefix "sk-ant-" k)
  | None => false
  end.

(** The one [streamText] call, for the model that [model] is mapped to:
    no [maxTokens] is handed over. *)
Definition stream_call (model : mapped) (messages : value) : event :=
  StreamText model messages VUndefined.

(** The first part that is [null] or [undefined] in the content of a
    message, and in the first message that cannot be logged. *)
Definition broken_in (msg : value) : value :=
  match own msg "content" with
  | VArr parts => default VUndefined (List.find nullish parts)
  | _ => VUndefined
  end.

Fixpoint broken_part (items : list value) : value :=
  match items with
  | [] => VUndefined
  | msg :: rest => if unloggable msg then broken_in msg else broken_part rest
  end.

(** The answer to a request whose credential fails the checks. *)
Definition key_answer (key : option string) : value :=
  match key with
  | Some (String _ _) =>
      VObj [("error", VStr "Server configuration error: ANTHROPIC_API_KEY has invalid format");
            ("hint", VStr "API key should start with sk-ant-")]
  | _ =>
      VObj [("error", VStr "Server configuration error: ANTHROPIC_API_KEY is not set");
            ("hint", VStr "Add ANTHROPIC_API_KEY to Vercel environment variables")]
  end.

(** What becomes of a body that passed the validation: the exception of
    the mapping of the model, the answer to a credential that fails, the
    exception of the message log, or what the SDK makes of the request. *)
Definition stream_verdict (rev : revision) (key : option string) (streamText : sdk)
    (model messages : value) (items : list value) : completion response :=
  m ← mappedModel model;
  if negb (key_accepted rev key) then
    Normal (Response 500 json_headers [] true (Some (Json (key_answer key))))
  else if existsb unloggable items then
    Abrupt (ThrownError (type_error (broken_part items) "type"))
  else
    match streamText m messages with
    | Normal result => result
    | Abrupt t => Abrupt t
    end.

(** The calls that go with it. *)
Definition stream_calls (rev : revision) (key : option string) (model messages : value)
    (items : list value) : list event :=
  match mappedModel model with
  | Normal m =>
      if key_accepted rev key && negb (existsb unloggable items)
      then [stream_call m messages] else []
  | Abrupt _ => []
  end.

(** The request reaches the provider with the model [m]: it is a POST
    whose body [parsed] passes the validation, its [model] is mapped to
    [m], the credential is accepted and the messages can be logged. *)
Definition reaches_provider (rev : revision) (key : option string) (req : request)
    (parsed : value) (m : mapped) : Prop :=
  method req = "POST" /\ body req = Normal parsed
  /\ mappedModel (own parsed "model") = Normal m
  /\ key_accepted rev key = true
  /\ exists items, well_formed parsed items /\ existsb unloggable items = false.

(** A run of [m] from [s] that returns the JSON answer [body] with status
    [code] and makes no outbound call. *)
Definition answers (m : M unit unit) (s : state unit) (code : Z) (body : value) : Prop :=
  Rules.outcome m s = Normal tt
  /\ Rules.response_after m s = Response code json_headers [] true (Some (Json body))
  /\ outbound (Rules.trace_after m s) = [].

(** The body of the [catch] block's answer. *)
Definition echoed (error : thrown) : value :=
  VObj [("error", or_else (VStr (err_message (error_of error))) (VStr "Internal server error"));
        ("details", VStr (error_toString (error_of error)))].


Definition chat_with_null_part : value :=
  VObj [("model", VStr "claude-sonnet-4-5-20250929");
        ("messages", VArr [VObj [("role", VStr "user");
                                 ("content", VArr [VObj [("type", VStr "text"); ("text", VStr "Hi")];
                                                   VNull])]])].

(** A chat that asks for at most [n] tokens. *)
Definition chat_with_budget (n : Z) : value :=
  VObj [("model", VStr "claude-sonnet-4-5-20250929");
        ("messages", VArr [VObj [("role", VStr "user"); ("content", VStr "Hi")]]);
        ("maxTokens", VNum n)].

(** An SDK that answers with a text stream. *)
Definition text_response : response :=
  Response 200 (<["Content-Type" := "text/plain; charset=utf-8"]> corsHeaders)
    ["Hello"] true (Some NoBody).

Definition answering_sdk : sdk := fun _ _ => Normal (Normal text_response).

End Coverage6.

(** ** api/test-basic.ts *)

Module TestBasic.

Import AgentAnalyze.

Local Abbreviation Stmt := (M unit).

(** [JSON.stringify] of an object literal: the properties whose value is
    [undefined] are left out. *)
Definition stringify (fields : list (string * value)) : value :=
  VObj (List.filter (fun field => match field.2 with VUndefined => false | _ => true end) fields).

(** [apiKey?.substring(0, 10)]. *)
Definition substring_opt (apiKey : value) : value :=
  match apiKey with
  | VStr s => VStr (String.substring 0%nat 10%nat s)
  | _ => VUndefined
  end.

(** Only [req.method] is read. *)
Definition handler (ANTHROPIC_API_KEY : option string) (req : request) : Stmt unit :=
  log INFO "[TEST] Handler called" [];;
  if String.eqb (method req) "OPTIONS" then respond 204 corsHeaders NoBody
  else
    try_catch
      (let apiKey := of_option ANTHROPIC_API_KEY in
       log INFO "[TEST] API Key exists:" [VBool (truthy apiKey)];;
       log INFO "[TEST] API Key length:" [get_opt apiKey "length"];;
       respond 200 json_headers
         (Json (stringify [("success", VBool true);
                           ("message", VStr "Test endpoint works!");
                           ("apiKeyExists", VBool (truthy apiKey));
                           ("apiKeyLength", get_opt apiKey "length");
                           ("apiKeyPrefix", substring_opt apiKey)])))
      (fun error =>
         emit (LogThrown ERROR "[TEST] Error:" error);;
         respond 500 json_headers
           (Json (stringify [("error", VStr (err_message (error_of error)));
                             ("stack", VStr (err_stack (error_of error)))]))).

End TestBasic.

(** ** api/design-agent.ts: two of the agent's tools *)

(** The [execute] functions of [analyzeDesignQuality] and
    [suggestImprovements], as closures over the [context] handed to
    [createDesignAgent].  Their parameters have passed the zod schema:
    the flags are booleans, [focusArea] and [priority] are strings. *)
Module DesignAgent.

(** The [TypeError] of a call of something that is not a function; the
    text is the engine's. *)
Definition not_a_function (what : string) : js_error :=
  JsError "TypeError" (what +:+ " is not a function") "".

(** The elements of [items] for which [keep] holds, [keep] being able to
    throw. *)
Fixpoint filter_items (keep : value -> completion bool) (items : list value)
    : completion (list value) :=
  match items with
  | [] => Normal []
  | item :: rest =>
      kept ← keep item;
      others ← filter_items keep rest;
      Normal (if kept : bool then item :: others else others)
  end.

(** [receiver.filter(item => item[field])]: values parsed from JSON have a
    [filter] method only when they are arrays. *)
Definition filter_by (what field : string) (receiver : value) : completion (list value) :=
  match receiver with
  | VArr items => filter_items (fun item => truthy <$> get item field) items
  | _ => Abrupt (ThrownError (not_a_function what))
  end.

(** [receiver.map(item => item[field])]. *)
Definition map_field (what field : string) (receiver : value) : completion (list value) :=
  match receiver with
  | VArr items => mapM (fun item => get item field) items
  | _ => Abrupt (ThrownError (not_a_function what))
  end.

(** SameValueZero on values parsed from JSON: primitives are compared by
    value, and two arrays or objects are never the same object. *)
Definition same_value (a b : value) : bool :=
  match a, b with
  | VUndefined, VUndefined | VNull, VNull => true
  | VBool x, VBool y => Bool.eqb x y
  | VNum x, VNum y => x =? y
  | VStr x, VStr y => String.eqb x y
  | _, _ => false
  end.

(** [new Set(values).size]. *)
Fixpoint set_size (values : list value) : nat :=
  match values with
  | [] => 0
  | v :: rest => if existsb (same_value v) rest then set_size rest else S (set_size rest)
  end.

Record finding : Type := Finding { category : string; score : Z; message : string }.

Definition finding_value (f : finding) : value :=
  VObj [("category", VStr (category f)); ("score", VNum (score f)); ("message", VStr (message f))].

(** The consistency, hierarchy and spacing checks, each pushing at most
    one finding. *)
Definition consistency (pageData : value) : completion (list finding) :=
  detached ← filter_by "pageData.components.filter" "detached" (own pageData "components");
  let detachedCount := length detached in
  Normal [Finding "consistency"
            (if (detachedCount =? 0)%nat then 25 else Z.max 0 (25 - Z.of_nat detachedCount * 2))
            (pretty detachedCount +:+ " detached component instances found")].

Definition hierarchy (pageData : value) : completion (list finding) :=
  sizes ← map_field "pageData.textContent.map" "fontSize" (own pageData "textContent");
  let fontSizes := List.filter truthy sizes in
  let uniqueSizes := set_size fontSizes in
  Normal [Finding "hierarchy"
            (if (3 <=? uniqueSizes)%nat && (uniqueSizes <=? 8)%nat then 25 else 15)
            (pretty uniqueSizes +:+ " unique font sizes used (optimal: 3-8)")].

Definition spacing (pageData : value) : completion (list finding) :=
  frames ← filter_by "pageData.framesHierarchical.filter" "autoLayout"
             (own pageData "framesHierarchical");
  let autoLayoutCount := length frames in
  Normal [Finding "spacing"
            (if (0 <? autoLayoutCount)%nat then 25 else 10)
            (pretty autoLayoutCount +:+ " frames use auto-layout")].

(** [analysis.findings.reduce((sum, f) => sum + f.score, 0)]. *)
Definition total (findings : list finding) : Z :=
  fold_left (fun sum f => sum + score f) findings 0.

Definition analyzeDesignQuality (context : value)
    (checkConsistency checkHierarchy checkSpacing checkAlignment : bool) : completion value :=
  pageData ← destructure "context" "pageData" context "pageData";
  first ← (if checkConsistency && truthy (get_opt pageData "components")
           then consistency pageData else Normal []);
  second ← (if checkHierarchy && truthy (get_opt pageData "textContent")
            then hierarchy pageData else Normal []);
  third ← (if checkSpacing && truthy (get_opt pageData "framesHierarchical")
           then spacing pageData else Normal []);
  let findings := first ++ second ++ third in
  Normal (VObj [("success", VBool true);
                ("score", VNum (total findings));
                ("maxScore", VNum 100);
                ("findings", VArr (map finding_value findings))]).

Record suggestion : Type := Suggestion {
  priority : string;
  area : string;
  title : string;
  description : string;
  affectedNodes : Z;
  effort : string
}.

Definition suggestion_value (s : suggestion) : value :=
  VObj [("priority", VStr (priority s)); ("category", VStr (area s)); ("title", VStr (title s));
        ("description", VStr (description s)); ("affectedNodes", VNum (affectedNodes s));
        ("effort", VStr (effort s))].

(** The suggestion for detached components, if the page data has any. *)
Definition reconnect (pageData : value) : completion (list suggestion) :=
  if truthy (get_opt pageData "components") then
    detached ← filter_by "pageData.components.filter" "detached" (own pageData "components");
    let detachedCount := length detached in
    Normal (if (0 <? detachedCount)%nat
            then [Suggestion "medium" "design-system" "Reconnect detached components"
                    (pretty detachedCount +:+ " component instances are detached from main")
                    (Z.of_nat detachedCount) "medium"]
            else [])
  else Normal [].

(** The suggestions before the filter by priority. *)
Definition suggestions_for (context : value) (focusArea : string) : completion (list suggestion) :=
  pageData ← destructure "context" "pageData" context "pageData";
  let first :=
    if String.eqb focusArea "accessibility" || String.eqb focusArea "all"
    then [Suggestion "high" "accessibility" "Improve color contrast"
            "Several text elements have insufficient contrast ratios" 5 "low"]
    else [] in
  second ← (if String.eqb focusArea "design-system" || String.eqb focusArea "all"
            then reconnect pageData else Normal []);
  let third :=
    if String.eqb focusArea "visual-hierarchy" || String.eqb focusArea "all"
    then [Suggestion "medium" "visual-hierarchy" "Improve visual hierarchy"
            "Consider increasing contrast between heading and body text" 3 "low"]
    else [] in
  Normal (first ++ second ++ third).

Definition suggestImprovements (context : value) (focusArea wanted : string) : completion value :=
  suggestions ← suggestions_for context focusArea;
  let filtered :=
    if String.eqb wanted "all" then suggestions
    else List.filter (fun s => String.eqb (priority s) wanted || String.eqb (priority s) "critical")
           suggestions in
  Normal (VObj [("success", VBool true);
                ("suggestionCount", VNum (Z.of_nat (length filtered)));
                ("suggestions", VArr (map suggestion_value filtered));
                ("summary", VStr ("Generated " +:+ pretty (length filtered) +:+ " " +:+ wanted
                                  +:+ " priority suggestions for " +:+ focusArea))]).

End DesignAgent.

(** ** Vocabulary for the test endpoint and the tools *)

Module Coverage7.

(** A page with two detached components out of three, four font sizes and
    no frames. *)
Definition example_page : value :=
  VObj [("pageData",
         VObj [("components", VArr [VObj [("name", VStr "Button"); ("detached", VBool true)];
                                    VObj [("name", VStr "Card")];
                                    VObj [("name", VStr "Badge"); ("detached", VBool true)]]);
               ("textContent", VArr [VObj [("fontSize", VNum 12)]; VObj [("fontSize", VNum 16)];
                                     VObj [("fontSize", VNum 16)]; VObj [("fontSize", VNum 24)];
                                     VObj [("fontSize", VNum 32)]])])].

(** The score of a finding lies between 0 and 25. *)
Definition within_quarter (f : DesignAgent.finding) : Prop := 0 <= DesignAgent.score f <= 25.

End Coverage7.

(** ** Vocabulary for the [catch] blocks *)

Module Coverage8.

Import Rules.

(** What the [catch] block of the streaming handler makes of an exception
    thrown before anything was written: status 500, the exception's text,
    no call of the provider, and the exception logged. *)
Definition caught_early (key : option string) (streamText : ClaudeStreamV2.sdk)
    (req : ClaudeStreamV2.request) (t : thrown) : Prop :=
  rejected (ClaudeStreamV2.handler key streamText req) (start tt) 500 (echoed t)
  /\ written (response_after (ClaudeStreamV2.handler key streamText req) (start tt)) = []
  /\ trace_after (ClaudeStreamV2.handler key streamText req) (start tt)
     = [LogThrown ERROR "[STREAM-V2] Error:" t].

(** The log line of the streaming handler before its call. *)
Definition starting_log (req : ClaudeStreamV2.request) : event :=
  LogModel INFO "[STREAM-V2] Starting stream:" (mapped_model req)
    [own (own (ClaudeStreamV2.body req) "messages") "length"].

End Coverage8.

(** ** Vocabulary for the two revisions of the agent endpoint *)

Module Coverage9.

Import AgentAnalyze.

(** What the two revisions of the agent handler do with the SDK:
    [createDesignAgent(context || {})] and [await streamText({...})] for the
    prompt and [maxTokens], and the two ways the result is turned into a
    response, each with the CORS headers. *)
Record agent_sdk (R : Type) : Type := AgentSdk {
  streamText : value -> value -> value -> completion R;
  toDataStreamResponse : R -> completion response;
  toTextStreamResponse : R -> completion response
}.

Arguments AgentSdk {R} _ _ _.
Arguments streamText {R} _ _ _ _.
Arguments toDataStreamResponse {R} _ _.
Arguments toTextStreamResponse {R} _ _.

(** The agent run of the earlier revision, [return
    result.toDataStreamResponse(...)], and of the later one, [return
    result.toTextStreamResponse(...)]. *)
Definition data_agent {R} (sdk : agent_sdk R) : agent :=
  fun context userPrompt maxTokens =>
    result ← streamText sdk context userPrompt maxTokens;
    toDataStreamResponse sdk result.

Definition text_agent {R} (sdk : agent_sdk R) : agent :=
  fun context userPrompt maxTokens =>
    result ← streamText sdk context userPrompt maxTokens;
    toTextStreamResponse sdk result.

(** The [streamText] call for the body [parsed]. *)
Definition asked {R} (sdk : agent_sdk R) (parsed : value) : completion R :=
  streamText sdk (or_else (own parsed "context") (VObj [])) (own parsed "userPrompt")
    (default_to (VNum 4096) (own parsed "maxTokens")).

(** The answer of a handler whose agent run ends in [run]. *)
Definition agent_answer (run : completion response) : response :=
  match run with
  | Normal answer => answer
  | Abrupt t => Response 500 json_headers [] true (Some (Json (Rules.echoed_with_stack t)))
  end.

(** An SDK whose result is a text, rendered as a data stream or as a text
    stream. *)
Definition data_stream (text : string) : response :=
  Response 200 (<["X-Vercel-AI-Data-Stream" := "v1"]>
                  (<["Content-Type" := "text/plain; charset=utf-8"]> corsHeaders))
    ["0:" +:+ text] true (Some NoBody).

Definition text_stream (text : string) : response :=
  Response 200 (<["Content-Type" := "text/plain; charset=utf-8"]> corsHeaders)
    [text] true (Some NoBody).

Definition answering_agent_sdk : agent_sdk string :=
  AgentSdk (fun _ _ _ => Normal "Looks accessible.")
    (fun text => Normal (data_stream text)) (fun text => Normal (text_stream text)).

End Coverage9.

(** * Properties *)

(** ** The rate limiter *)

Section RateLimiter.

Import ClaudeProxy.

Implicit Types (cfg : limits) (now : Z) (c d : string) (store : gmap string entry).

Lemma checkRateLimit_fresh cfg now c store :
  store !! c = None ->
  checkRateLimit cfg now c store = (true, <[c := Entry 1 (now + window cfg)]> store).
Proof. intros H. unfold checkRateLimit. now rewrite H. Qed.

Lemma checkRateLimit_expired cfg now c store e :
  store !! c = Some e -> resetTime e < now ->
  checkRateLimit cfg now c store = (true, <[c := Entry 1 (now + window cfg)]> store).
Proof.
  intros H Hlt. unfold checkRateLimit. rewrite H.
  apply Z.ltb_lt in Hlt. now rewrite Hlt.
Qed.

Lemma checkRateLimit_within cfg now c store e :
  store !! c = Some e -> ~ resetTime e < now -> count e < limit cfg ->
  checkRateLimit cfg now c store = (true, <[c := Entry (count e + 1) (resetTime e)]> store).
Proof.
  intros H Hge Hlt. unfold checkRateLimit. rewrite H.
  apply Z.ltb_nlt in Hge. apply Z.ltb_lt in Hlt. now rewrite Hge, Hlt.
Qed.

Lemma checkRateLimit_full cfg now c store e :
  store !! c = Some e -> ~ resetTime e < now -> ~ count e < limit cfg ->
  checkRateLimit cfg now c store = (false, store).
Proof.
  intros H Hge Hfull. unfold checkRateLimit. rewrite H.
  apply Z.ltb_nlt in Hge. apply Z.ltb_nlt in Hfull. now rewrite Hge, Hfull.
Qed.

(** The store after a call is the old one, or the old one with the
    caller's entry written. *)
Lemma checkRateLimit_store cfg now c store :
  (checkRateLimit cfg now c store).2 = store
  \/ exists e, (checkRateLimit cfg now c store).2 = <[c := e]> store.
Proof.
  unfold checkRateLimit. destruct (store !! c) as [e|]; [|eauto].
  destruct (resetTime e <? now); [eauto|].
  destruct (count e <? limit cfg); eauto.
Qed.

Lemma checkRateLimit_other cfg now c d store :
  d <> c -> (checkRateLimit cfg now c store).2 !! d = store !! d.
Proof.
  intros Hne. destruct (checkRateLimit_store cfg now c store) as [-> | [e ->]]; [done|].
  now rewrite lookup_insert_ne.
Qed.

Lemma checkRateLimit_dom cfg now c store :
  dom store ⊆ dom (checkRateLimit cfg now c store).2.
Proof.
  destruct (checkRateLimit_store cfg now c store) as [-> | [e ->]]; [done|].
  rewrite dom_insert_L. set_solver.
Qed.

Lemma checkRateLimit_all_cons cfg now c rest store :
  checkRateLimit_all cfg ((now, c) :: rest) store =
  ((checkRateLimit cfg now c store).1
     :: (checkRateLimit_all cfg rest (checkRateLimit cfg now c store).2).1,
   (checkRateLimit_all cfg rest (checkRateLimit cfg now c store).2).2).
Proof.
  simpl. destruct (checkRateLimit cfg now c store) as [b s1]. simpl.
  now destruct (checkRateLimit_all cfg rest s1).
Qed.

Lemma checkRateLimit_all_dom cfg calls store :
  dom store ⊆ dom (checkRateLimit_all cfg calls store).2.
Proof.
  revert store. induction calls as [|[now c] rest IH]; intros store; [done|].
  rewrite checkRateLimit_all_cons. simpl.
  etrans; [apply (checkRateLimit_dom cfg now c)|apply IH].
Qed.

Lemma checkRateLimit_all_other cfg calls d store :
  Forall (fun call => call.2 <> d) calls ->
  (checkRateLimit_all cfg calls store).2 !! d = store !! d.
Proof.
  revert store. induction calls as [|[now c] rest IH]; intros store Hall; [done|].
  inversion Hall as [|? ? Hc Hrest]; subst. simpl in Hc.
  rewrite checkRateLimit_all_cons. simpl.
  rewrite IH by assumption. apply checkRateLimit_other. congruence.
Qed.

(** At one clock, within the window, a client is admitted until its count
    reaches the limit and rejected from then on: of [n] further calls the
    first [limit - count] are admitted. *)
Lemma checkRateLimit_all_fixed_clock cfg now c n store e :
  store !! c = Some e -> ~ resetTime e < now ->
  (checkRateLimit_all cfg (replicate n (now, c)) store).1
  = replicate (Z.to_nat (Z.min (Z.of_nat n) (Z.max 0 (limit cfg - count e)))) true
    ++ replicate (n - Z.to_nat (Z.min (Z.of_nat n) (Z.max 0 (limit cfg - count e)))) false.
Proof.
  revert store e. induction n as [|n IH]; intros store e He Hwin.
  { replace (Z.to_nat (Z.min (Z.of_nat 0) (Z.max 0 (limit cfg - count e)))) with 0%nat by lia.
    reflexivity. }
  cbn [replicate]. rewrite checkRateLimit_all_cons. cbn [fst].
  destruct (Z.lt_ge_cases (count e) (limit cfg)) as [Hlt | Hge].
  - rewrite (checkRateLimit_within _ _ _ _ _ He Hwin Hlt). cbn [fst snd].
    rewrite (IH _ (Entry (count e + 1) (resetTime e))); [|apply lookup_insert_eq|exact Hwin].
    cbn [count].
    replace (Z.to_nat (Z.min (Z.of_nat (S n)) (Z.max 0 (limit cfg - count e))))
      with (S (Z.to_nat (Z.min (Z.of_nat n) (Z.max 0 (limit cfg - (count e + 1)))))) by lia.
    reflexivity.
  - rewrite (checkRateLimit_full _ _ _ _ _ He Hwin) by lia. cbn [fst snd].
    rewrite (IH _ e He Hwin).
    replace (Z.to_nat (Z.min (Z.of_nat (S n)) (Z.max 0 (limit cfg - count e)))) with 0%nat by lia.
    replace (Z.to_nat (Z.min (Z.of_nat n) (Z.max 0 (limit cfg - count e)))) with 0%nat by lia.
    cbn [replicate app]. now rewrite Nat.sub_0_r.
Qed.

(** A new client calling [S n] times at one clock, with a window that is
    not negative: the first call is admitted whatever the limit is, and of
    the others the first [limit - 1]. *)
Lemma checkRateLimit_all_new_client cfg now c n store :
  store !! c = None -> 0 <= window cfg ->
  (checkRateLimit_all cfg (replicate (S n) (now, c)) store).1
  = true :: replicate (Z.to_nat (Z.min (Z.of_nat n) (Z.max 0 (limit cfg - 1)))) true
    ++ replicate (n - Z.to_nat (Z.min (Z.of_nat n) (Z.max 0 (limit cfg - 1)))) false.
Proof.
  intros Hnone Hwin. cbn [replicate]. rewrite checkRateLimit_all_cons.
  rewrite (checkRateLimit_fresh _ _ _ _ Hnone). cbn [fst snd]. f_equal.
  rewrite (checkRateLimit_all_fixed_clock _ _ _ _ _ (Entry 1 (now + window cfg)));
    [reflexivity|apply lookup_insert_eq|cbn [resetTime]; lia].
Qed.

(** C1. [checkRateLimit] is a fixed-window counter.  For every
    configuration, clock, client and store: when the client has no entry,
    or its entry's [resetTime] is strictly below the clock, the call stores
    [{count: 1, resetTime: now + window}] and admits; otherwise it admits
    and adds one to [count] exactly when [count < limit], and rejects with
    the store untouched when not.  With [limit = 3] and [window = 1000],
    four calls of a new client at one clock are admitted three times and
    then rejected, and a call once the clock is past [now + 1000] is
    admitted again with a count of 1. *)
Theorem checkRateLimit_fixed_window :
  (forall cfg now c store,
      ((store !! c = None \/ exists e, store !! c = Some e /\ resetTime e < now) ->
       checkRateLimit cfg now c store = (true, <[c := Entry 1 (now + window cfg)]> store))
      /\ (forall e, store !! c = Some e -> ~ resetTime e < now ->
            (count e < limit cfg ->
             checkRateLimit cfg now c store
             = (true, <[c := Entry (count e + 1) (resetTime e)]> store))
            /\ (~ count e < limit cfg ->
                checkRateLimit cfg now c store = (false, store))))
  /\ (forall now later c store,
        store !! c = None -> now + 1000 < later ->
        checkRateLimit_all (Limits 3 1000)
          [(now, c); (now, c); (now, c); (now, c); (later, c)] store
        = ([true; true; true; false; true], <[c := Entry 1 (later + 1000)]> store)).
Proof.
  split.
  - intros cfg now c store. split.
    + intros [Hnone | (e & He & Hlt)].
      * now apply checkRateLimit_fresh.
      * now apply (checkRateLimit_expired cfg now c store e).
    + intros e He Hge. split; intros Hc.
      * now apply checkRateLimit_within.
      * now apply (checkRateLimit_full cfg now c store e).
  - intros now later c store Hnone Hlater.
    cbn [checkRateLimit_all].
    rewrite (checkRateLimit_fresh _ _ _ _ Hnone).
    rewrite (checkRateLimit_within _ now c _ (Entry 1 (now + 1000)));
      [|apply lookup_insert_eq|simpl; lia|simpl; lia].
    cbn [count resetTime window limit]. rewrite insert_insert_eq.
    rewrite (checkRateLimit_within _ now c _ (Entry 2 (now + 1000)));
      [|apply lookup_insert_eq|simpl; lia|simpl; lia].
    cbn [count resetTime window limit]. rewrite insert_insert_eq.
    rewrite (checkRateLimit_full _ now c _ (Entry 3 (now + 1000)));
      [|apply lookup_insert_eq|simpl; lia|simpl; lia].
    rewrite (checkRateLimit_expired _ later c _ (Entry 3 (now + 1000)));
      [|apply lookup_insert_eq|simpl; lia].
    cbn [window]. now rewrite insert_insert_eq.
Qed.

Lemma checkRateLimit_fixed_window_witness :
  checkRateLimit_all (Limits 3 1000)
    [(0, "203.0.113.7"); (0, "203.0.113.7"); (0, "203.0.113.7"); (0, "203.0.113.7");
     (1001, "203.0.113.7")] ∅
  = ([true; true; true; false; true], <["203.0.113.7" := Entry 1 2001]> ∅).
Proof.
  apply (proj2 checkRateLimit_fixed_window 0 1001 "203.0.113.7" ∅).
  - apply lookup_empty.
  - lia.
Defined.

(** C10. A call for client [c] leaves the entry of every other client as
    it was, and no call removes an entry: the key set of the store after a
    call, and after any sequence of calls, contains the key set before.
    An entry is therefore still there, unchanged, after any calls made for
    other clients, whether or not its window has passed. *)
Theorem checkRateLimit_frame :
  (forall cfg now c d store,
      d <> c -> (checkRateLimit cfg now c store).2 !! d = store !! d)
  /\ (forall cfg now c store, dom store ⊆ dom (checkRateLimit cfg now c store).2)
  /\ (forall cfg calls store, dom store ⊆ dom (checkRateLimit_all cfg calls store).2)
  /\ (forall cfg calls d store,
        Forall (fun call => call.2 <> d) calls ->
        (checkRateLimit_all cfg calls store).2 !! d = store !! d).
Proof.
  split; [|split; [|split]].
  - intros. now apply checkRateLimit_other.
  - intros. apply checkRateLimit_dom.
  - intros. apply checkRateLimit_all_dom.
  - intros. now apply checkRateLimit_all_other.
Qed.

Lemma checkRateLimit_frame_witness :
  (checkRateLimit default_limits 70000 "a" (<["b" := Entry 100 60000]> ∅)).2 !! "b"
  = (<["b" := Entry 100 60000]> ∅ : gmap string entry) !! "b".
Proof.
  apply (proj1 checkRateLimit_frame default_limits 70000 "a" "b"). discriminate.
Defined.

End RateLimiter.

(** ** The request validator *)

Section Validator.

Import ClaudeProxy Rules.

Context (coerce : value -> option Z) (rev : revision).

Lemma get_defined v k : nullish v = false -> get v k = Normal (own v k).
Proof. intros H. unfold get. now rewrite H. Qed.

Lemma get_nullish v k : nullish v = true -> get v k = Abrupt (ThrownError (type_error v k)).
Proof. intros H. unfold get. now rewrite H. Qed.

Lemma destructure_defined source first v k :
  nullish v = false -> destructure source first v k = Normal (own v k).
Proof. intros H. unfold destructure. now rewrite H. Qed.

Lemma destructure_nullish source first v k :
  nullish v = true ->
  destructure source first v k = Abrupt (ThrownError (destructure_error source v first)).
Proof. intros H. unfold destructure. now rewrite H. Qed.

Lemma check_messages_cons msg rest :
  check_messages (msg :: rest) =
  if nullish msg then Abrupt (ThrownError (type_error msg "role"))
  else if negb (truthy (own msg "role")) then
    Normal (Some (invalid "Each message must have 'role' and 'content'"))
  else if negb (truthy (own msg "content")) then
    Normal (Some (invalid "Each message must have 'role' and 'content'"))
  else if negb (includes ["user"; "assistant"] (own msg "role")) then
    Normal (Some (invalid "Message role must be 'user' or 'assistant'"))
  else check_messages rest.
Proof.
  cbn [check_messages]. unfold get.
  destruct (nullish msg); [reflexivity|]. cbn [mbind completion_bind].
  destruct (truthy (own msg "role")); reflexivity.
Qed.

Lemma check_messages_step msg rest :
  message_ok msg = true -> check_messages (msg :: rest) = check_messages rest.
Proof.
  unfold message_ok. intros H. rewrite check_messages_cons.
  destruct (nullish msg); [discriminate|].
  destruct (truthy (own msg "role")); [|discriminate].
  destruct (truthy (own msg "content")); [|discriminate].
  destruct (includes _ _); [reflexivity|discriminate].
Qed.

Lemma check_messages_pass items :
  Forall (fun msg => message_ok msg = true) items -> check_messages items = Normal None.
Proof.
  induction 1 as [|msg rest Hmsg _ IH]; [reflexivity|].
  now rewrite check_messages_step.
Qed.

Lemma check_messages_first_failure good bad rest :
  Forall (fun msg => message_ok msg = true) good ->
  nullish bad = false -> message_ok bad = false ->
  check_messages (good ++ bad :: rest) = Normal (Some (invalid (message_reason bad))).
Proof.
  intros Hgood Hdef Hbad. induction Hgood as [|msg good Hmsg _ IH].
  - cbn [app]. rewrite check_messages_cons. rewrite Hdef.
    unfold message_ok in Hbad. unfold message_reason. rewrite Hdef in Hbad.
    destruct (truthy (own bad "role")); [|reflexivity].
    destruct (truthy (own bad "content")); [|reflexivity].
    cbn in Hbad |- *. now rewrite Hbad.
  - cbn [app]. now rewrite check_messages_step.
Qed.

Lemma check_messages_nullish good bad rest :
  Forall (fun msg => message_ok msg = true) good ->
  nullish bad = true ->
  check_messages (good ++ bad :: rest) = Abrupt (ThrownError (type_error bad "role")).
Proof.
  intros Hgood Hnull. induction Hgood as [|msg good Hmsg _ IH].
  - cbn [app]. rewrite check_messages_cons. now rewrite Hnull.
  - cbn [app]. now rewrite check_messages_step.
Qed.

(** A list of messages passes rule 3, or has a first message that fails it. *)
Lemma first_failure items :
  Forall (fun msg => message_ok msg = true) items
  \/ exists good bad rest,
      items = good ++ bad :: rest
      /\ Forall (fun msg => message_ok msg = true) good
      /\ message_ok bad = false.
Proof.
  induction items as [|msg items IH]; [left; constructor|].
  destruct (message_ok msg) eqn:Hmsg.
  - destruct IH as [IH | (good & bad & rest & -> & Hgood & Hbad)].
    + left. now constructor.
    + right. exists (msg :: good), bad, rest. repeat split; [|assumption].
      now constructor.
  - right. exists [], msg, items. repeat split; [constructor|assumption].
Qed.

(** The validator on a body that is an object (or any value but [null]
    and [undefined]), as a cascade over its three fields. *)
Lemma validateClaudeRequest_unfold body :
  nullish body = false ->
  validateClaudeRequest coerce rev body =
  match own body "messages" with
  | VArr [] => Normal (invalid "Messages array cannot be empty")
  | VArr items =>
      early ← check_messages items;
      match early with
      | Some v => Normal v
      | None =>
          if negb (truthy (own body "model")) then Normal (invalid "Missing 'model' field")
          else if negb (includes (allowedModels rev) (own body "model")) then
            Normal (invalid ("Invalid model. Allowed models: " +:+ join ", " (allowedModels rev)))
          else if max_tokens_rejected coerce rev (own body "max_tokens")
          then Normal (invalid (maxTokensReason rev))
          else Normal ok
      end
  | _ => Normal (invalid "Missing or invalid 'messages' array")
  end.
Proof.
  intros Hbody. unfold validateClaudeRequest, max_tokens_rejected.
  rewrite !(get_defined body) by assumption. cbn [mbind completion_bind].
  destruct (own body "messages") as [| |b|n|s0|items|fields]; cbn; try reflexivity.
  - now destruct b.
  - now destruct (n =? 0).
  - now destruct (String.eqb s0 "").
  - destruct items as [|msg items]; reflexivity.
Qed.

Lemma validateClaudeRequest_nullish body :
  nullish body = true ->
  validateClaudeRequest coerce rev body = Abrupt (ThrownError (type_error body "messages")).
Proof.
  intros H. unfold validateClaudeRequest.
  rewrite (get_nullish body "messages") by assumption. reflexivity.
Qed.

Lemma validateClaudeRequest_passes body :
  validateClaudeRequest coerce rev body = Normal ok <-> passes coerce rev body.
Proof.
  split.
  - intros Hok. destruct (nullish body) eqn:Hbody.
    { rewrite validateClaudeRequest_nullish in Hok by assumption. discriminate. }
    split; [assumption|].
    rewrite validateClaudeRequest_unfold in Hok by assumption.
    destruct (own body "messages") as [| |b|n|s0|items|fields]; try discriminate.
    destruct items as [|msg items]; [discriminate|].
    exists (msg :: items). split; [reflexivity|]. split; [discriminate|].
    destruct (first_failure (msg :: items)) as [Hall | (good & bad & rest & Heq & Hgood & Hbad)].
    + rewrite (check_messages_pass _ Hall) in Hok. cbn [mbind completion_bind] in Hok.
      destruct (truthy (own body "model")); [|discriminate].
      destruct (includes _ _); [|discriminate].
      destruct (max_tokens_rejected _ _ _); [discriminate|]. now repeat split.
    + rewrite Heq in Hok. destruct (nullish bad) eqn:Hnull.
      * rewrite check_messages_nullish in Hok by assumption. discriminate.
      * rewrite check_messages_first_failure in Hok by assumption. discriminate.
  - intros (Hbody & items & Hmsgs & Hne & Hall & Hmodel & Hallowed & Hmax).
    rewrite validateClaudeRequest_unfold by assumption. rewrite Hmsgs.
    destruct items as [|msg items]; [congruence|].
    rewrite (check_messages_pass _ Hall). cbn [mbind completion_bind].
    now rewrite Hmodel, Hallowed, Hmax.
Qed.


End Validator.

Section ValidatorCases.

Import ClaudeProxy Rules.



(** Rule 5 once rules 1 to 4 pass: the verdict is that of the guard
    [body.max_tokens && (body.max_tokens < 1 || body.max_tokens > bound)]. *)
Lemma validateClaudeRequest_max_tokens coerce rev body items :
  nullish body = false ->
  own body "messages" = VArr items -> items <> [] ->
  Forall (fun msg => message_ok msg = true) items ->
  truthy (own body "model") = true ->
  includes (allowedModels rev) (own body "model") = true ->
  validateClaudeRequest coerce rev body
  = Normal (if max_tokens_rejected coerce rev (own body "max_tokens")
            then invalid (maxTokensReason rev) else ok).
Proof.
  intros Hbody Hmsgs Hne Hall Hmodel Hallowed.
  rewrite validateClaudeRequest_unfold by assumption. rewrite Hmsgs.
  destruct items as [|msg items]; [congruence|].
  rewrite (check_messages_pass _ Hall). cbn [mbind completion_bind].
  rewrite Hmodel, Hallowed. cbn [negb].
  now destruct (max_tokens_rejected _ _ _).
Qed.

(** A number other than 0 is rejected exactly outside [1 .. bound]; 0 is
    never rejected. *)
Lemma max_tokens_rejected_number coerce rev n :
  max_tokens_rejected coerce rev (VNum n) = true
  <-> n <> 0 /\ (n < 1 \/ maxTokensBound rev < n).
Proof.
  unfold max_tokens_rejected, lt_num, gt_num. cbn [truthy to_number].
  rewrite andb_true_iff, orb_true_iff, negb_true_iff, Z.eqb_neq, !Z.ltb_lt.
  reflexivity.
Qed.

(** C6. The code departs from the claim at a present [max_tokens] of 0:
    with messages and model passing, both revisions answer [{valid: true}]
    for [max_tokens: 0], a value below 1, because the guard
    [body.max_tokens && ...] reads 0 as an absent field. *)
Theorem validateClaudeRequest_accepts_zero_max_tokens (coerce : value -> option Z) :
  validateClaudeRequest coerce revision_1
    (chat "claude-3-haiku-20240307" "user" (VStr "Hi") (VNum 0)) = Normal ok
  /\ validateClaudeRequest coerce revision_2
       (chat "claude-3-haiku-20240307" "user" (VStr "Hi") (VNum 0)) = Normal ok
  /\ validateClaudeRequest coerce revision_1
       (chat "claude-3-haiku-20240307" "user" (VStr "Hi") (VNum (-1)))
     = Normal (invalid "max_tokens must be between 1 and 4096").
Proof. repeat split; reflexivity. Qed.

(** C9. The code departs from the claim on [null], on [undefined] and on
    a [messages] array holding [null]: the property reads [body.messages]
    and [msg.role] raise a [TypeError] instead of returning a verdict. *)
Theorem validateClaudeRequest_throws (coerce : value -> option Z) (rev : revision) :
  validateClaudeRequest coerce rev VNull = Abrupt (ThrownError (type_error VNull "messages"))
  /\ validateClaudeRequest coerce rev VUndefined
     = Abrupt (ThrownError (type_error VUndefined "messages"))
  /\ validateClaudeRequest coerce rev (VObj [("messages", VArr [VNull])])
     = Abrupt (ThrownError (type_error VNull "role")).
Proof. repeat split; reflexivity. Qed.

(** Apart from those reads the validator always returns a verdict. *)
Lemma validateClaudeRequest_returns coerce rev body :
  nullish body = false ->
  (forall items, own body "messages" = VArr items -> Forall (fun msg => nullish msg = false) items) ->
  exists v, validateClaudeRequest coerce rev body = Normal v.
Proof.
  intros Hbody Hitems.
  rewrite validateClaudeRequest_unfold by assumption.
  destruct (own body "messages") as [| |b|n|s0|items|fields]; eauto.
  destruct items as [|msg items]; eauto.
  specialize (Hitems _ eq_refl).
  destruct (first_failure (msg :: items)) as [Hall | (good & bad & rest & Heq & Hgood & Hbad)].
  - rewrite (check_messages_pass _ Hall). cbn [mbind completion_bind].
    destruct (negb _); eauto. destruct (negb _); eauto.
    destruct (max_tokens_rejected _ _ _); eauto.
  - rewrite Heq. rewrite check_messages_first_failure; eauto.
    rewrite Heq in Hitems. apply Forall_app in Hitems as [_ Hitems].
    now inversion Hitems.
Qed.

End ValidatorCases.

(** ** The error normalizer *)

(** Unfolds the statement combinators, leaving the response updates and
    the source's own conditions in place. *)
Ltac run :=
  cbv beta iota zeta delta
    [mbind M_bind seq mret M_ret ret lift try_catch update_res emit log when
     status json setHeader end_ write current_res
     Rules.outcome Rules.response_after Rules.globals_after Rules.trace_after Rules.start
     res globals trace fst snd].

Section Normalizer.

Import ClaudeProxy Rules.

Context (rev : revision).

Local Abbreviation Store := (gmap string entry).

(** Running a statement: one step of each kind. *)
Lemma run_bind {G A B} (m : M G A) (k : A -> M G B) (s : state G) :
  (m ≫= k) s = match m s with
               | (Normal a, s') => k a s'
               | (Abrupt t, s') => (Abrupt t, s')
               end.
Proof. reflexivity. Qed.

Lemma run_update {G} (f : response -> response) (s : state G) :
  update_res f s = (Normal tt, State (f (res s)) (globals s) (trace s)).
Proof. reflexivity. Qed.

Lemma run_emit {G} (e : event) (s : state G) :
  emit e s = (Normal tt, State (res s) (globals s) (trace s ++ [e])).
Proof. reflexivity. Qed.

Lemma run_lift {G A} (c : completion A) (s : state G) : lift c s = (c, s).
Proof. reflexivity. Qed.

Lemma upstream_field_defined data k fallback :
  nullish data = false ->
  upstream_field data k fallback
  = Normal (or_else (get_opt (own data "error") k) (VStr fallback)).
Proof. intros H. unfold upstream_field. now rewrite get_defined. Qed.


Lemma handleProxyError_429 e code hdrs data (s : state Store) :
  nullish data = false ->
  handleProxyError rev (upstream_failure e code 429 hdrs data) s
  = (Normal tt,
     State (send_json (VObj [("error", VStr "rate_limit_exceeded");
                             ("message", or_else (get_opt (own data "error") "message")
                                                 (VStr "Claude API rate limit reached"));
                             ("retry_after", VStr (retryAfter_of hdrs))])
              (set_status 429 (set_header "Retry-After" (retryAfter_of hdrs) (res s))))
           (globals s) (trace s ++ [upstream_log rev 429 data])).
Proof.
  intros Hd. destruct s as [r g t].
  unfold handleProxyError, upstream_failure, upstream_log.
  cbn [resp_status resp_data resp_headers].
  change (429 =? 429) with true. cbv iota.
  rewrite (upstream_field_defined _ _ _ Hd), (get_defined _ "error" Hd).
  run. now destruct (verbose rev).
Qed.

Lemma handleProxyError_529 e code hdrs data (s : state Store) :
  verbose rev = false \/ nullish data = false ->
  handleProxyError rev (upstream_failure e code 529 hdrs data) s
  = (Normal tt,
     State (send_json (VObj [("error", VStr "service_unavailable");
                             ("message", VStr "Claude API is experiencing high traffic")])
              (set_status 503 (set_header "Retry-After" "60" (res s))))
           (globals s) (trace s ++ [upstream_log rev 529 data])).
Proof.
  intros Hd. destruct s as [r g t].
  unfold handleProxyError, upstream_failure, upstream_log.
  cbn [resp_status resp_data resp_headers].
  change (529 =? 429) with false. change ((529 =? 401) || (529 =? 403)) with false.
  change (529 =? 529) with true. cbv iota.
  destruct (verbose rev).
  - destruct Hd as [Hd | Hd]; [discriminate|].
    rewrite (get_defined _ "error" Hd). now run.
  - now run.
Qed.

Lemma handleProxyError_unreachable e code (s : state Store) :
  code = "ECONNREFUSED" \/ code = "ENOTFOUND" ->
  handleProxyError rev (transport_failure e code) s
  = (Normal tt,
     State (send_json (VObj [("error", VStr "service_unavailable");
                             ("message", VStr "Could not connect to Claude API")])
              (set_status 503 (res s)))
           (globals s) (trace s)).
Proof.
  intros Hc. destruct s as [r g t]. unfold handleProxyError, transport_failure.
  destruct Hc as [-> | ->]; now run.
Qed.

Lemma handleProxyError_unexpected e (s : state Store) :
  handleProxyError rev (ThrownError e) s
  = (Normal tt,
     State (send_json internal_server_error (set_status 500 (res s)))
           (globals s) (trace s ++ [unexpected_log rev (ThrownError e)])).
Proof. destruct s as [r g t]. unfold handleProxyError, unexpected_log. now run. Qed.

(** Reading back what was set. *)
Lemma retry_after_header v x c r :
  headers (send_json v (set_status c (set_header "Retry-After" x r))) !! "Retry-After" = Some x.
Proof.
  cbn [send_json set_status set_header headers].
  rewrite lookup_insert_ne by discriminate. apply lookup_insert_eq.
Qed.

(** C3, as the code has it.  An upstream 429 (with a response body other
    than [null] or [undefined]) becomes status 429 with error
    "rate_limit_exceeded" and, both as the body's [retry_after] and as the
    [Retry-After] response header, the upstream [retry-after] header when
    it is there and not empty, else "60".  An upstream 529 (in the
    revision that logs the provider's error type: with a response body
    other than [null] or [undefined]) becomes status 503 with error
    "service_unavailable" and the response header [Retry-After: 60]; its
    body has no [retry_after] field.  A transport error with code
    ECONNREFUSED becomes status 503 with error "service_unavailable". *)
Theorem handleProxyError_normalizes :
  (forall e code hdrs data (s : state Store),
      nullish data = false ->
      outcome (handleProxyError rev (upstream_failure e code 429 hdrs data)) s = Normal tt
      /\ statusCode (response_after (handleProxyError rev (upstream_failure e code 429 hdrs data)) s) = 429
      /\ body_field (response_after (handleProxyError rev (upstream_failure e code 429 hdrs data)) s) "error"
         = VStr "rate_limit_exceeded"
      /\ body_field (response_after (handleProxyError rev (upstream_failure e code 429 hdrs data)) s) "retry_after"
         = VStr (retryAfter_of hdrs)
      /\ headers (response_after (handleProxyError rev (upstream_failure e code 429 hdrs data)) s) !! "Retry-After"
         = Some (retryAfter_of hdrs))
  /\ (forall (hdrs : gmap string string) h,
        hdrs !! "retry-after" = Some h -> h <> "" -> retryAfter_of hdrs = h)
  /\ (forall hdrs : gmap string string,
        hdrs !! "retry-after" = None \/ hdrs !! "retry-after" = Some "" -> retryAfter_of hdrs = "60")
  /\ (forall e code hdrs data (s : state Store),
        verbose rev = false \/ nullish data = false ->
        outcome (handleProxyError rev (upstream_failure e code 529 hdrs data)) s = Normal tt
        /\ statusCode (response_after (handleProxyError rev (upstream_failure e code 529 hdrs data)) s) = 503
        /\ body_field (response_after (handleProxyError rev (upstream_failure e code 529 hdrs data)) s) "error"
           = VStr "service_unavailable"
        /\ headers (response_after (handleProxyError rev (upstream_failure e code 529 hdrs data)) s) !! "Retry-After"
           = Some "60"
        /\ body_field (response_after (handleProxyError rev (upstream_failure e code 529 hdrs data)) s) "retry_after"
           = VUndefined)
  /\ (forall e (s : state Store),
        outcome (handleProxyError rev (transport_failure e "ECONNREFUSED")) s = Normal tt
        /\ statusCode (response_after (handleProxyError rev (transport_failure e "ECONNREFUSED")) s) = 503
        /\ body_field (response_after (handleProxyError rev (transport_failure e "ECONNREFUSED")) s) "error"
           = VStr "service_unavailable").
Proof.
  split; [|split; [|split; [|split]]].
  - intros e code hdrs data s Hd. unfold outcome, response_after.
    rewrite handleProxyError_429 by assumption. cbn [fst snd res].
    repeat split; try reflexivity. apply retry_after_header.
  - intros hdrs h Hh Hne. unfold retryAfter_of. rewrite Hh.
    destruct h; [congruence|reflexivity].
  - intros hdrs [Hh | Hh]; unfold retryAfter_of; now rewrite Hh.
  - intros e code hdrs data s Hd. unfold outcome, response_after.
    rewrite handleProxyError_529 by assumption. cbn [fst snd res].
    repeat split; try reflexivity. apply retry_after_header.
  - intros e s. unfold outcome, response_after.
    rewrite handleProxyError_unreachable by (now left). cbn [fst snd res].
    repeat split; reflexivity.
Qed.

End Normalizer.

Section NormalizerCases.

Import ClaudeProxy Rules.

Lemma handleProxyError_normalizes_witness :
  body_field
    (response_after
       (handleProxyError revision_1
          (upstream_failure request_failed (Some "ERR_BAD_REQUEST") 429
             (<["retry-after" := "30"]> ∅)
             (provider_error "rate_limit_error" "Number of requests has exceeded your rate limit")))
       (start ∅))
    "retry_after"
  = VStr "30".
Proof.
  exact (proj1 (proj2 (proj2 (proj2
           (proj1 (handleProxyError_normalizes revision_1)
              request_failed (Some "ERR_BAD_REQUEST") (<["retry-after" := "30"]> ∅)
              (provider_error "rate_limit_error" "Number of requests has exceeded your rate limit")
              (start ∅) eq_refl))))).
Defined.

(** C3 as stated fails on the code: for an upstream 529 the body that is
    sent has the fields [error] and [message] only; the 60 seconds are in
    the [Retry-After] response header. *)
Lemma handleProxyError_529_body_without_retry_after :
  body_field
    (response_after
       (handleProxyError revision_1
          (upstream_failure request_failed (Some "ERR_BAD_RESPONSE") 529 ∅
             (provider_error "overloaded_error" "Overloaded")))
       (start ∅))
    "retry_after"
  = VUndefined
  /\ sent (response_after
             (handleProxyError revision_2
                (upstream_failure request_failed (Some "ERR_BAD_RESPONSE") 529 ∅
                   (provider_error "overloaded_error" "Overloaded")))
             (start ∅))
     = Some (Json (VObj [("error", VStr "service_unavailable");
                         ("message", VStr "Claude API is experiencing high traffic")])).
Proof.
  unfold response_after. rewrite !handleProxyError_529 by (now right). split; reflexivity.
Qed.

End NormalizerCases.

(** ** The buffered handler *)

Ltac exec :=
  cbv beta iota zeta delta
    [mbind M_bind seq mret M_ret ret lift try_catch update_res emit log when
     status json setHeader end_ write current_res ClaudeProxy.rate_limit];
  cbn [res globals trace negb orb andb].

Section Quiet.

Import Rules.

Lemma outbound_snoc t e :
  outbound (t ++ [e]) = outbound t ++ (if is_outbound e then [e] else []).
Proof.
  unfold outbound. rewrite filter_app. f_equal.
  rewrite filter_cons, filter_nil.
  destruct (is_outbound e); [rewrite decide_True|rewrite decide_False]; done.
Qed.

Lemma quiet_ret {G A} (a : A) : quiet (ret a : M G A).
Proof. intros s. reflexivity. Qed.

Lemma quiet_lift {G A} (c : completion A) : quiet (lift c : M G A).
Proof. intros s. reflexivity. Qed.

Lemma quiet_update {G} f : quiet (update_res f : M G unit).
Proof. intros s. reflexivity. Qed.

Lemma quiet_current_res {G} : quiet (current_res : M G response).
Proof. intros s. reflexivity. Qed.

Lemma quiet_emit {G} e : is_outbound e = false -> quiet (emit e : M G unit).
Proof.
  intros He s. cbn [emit snd trace]. rewrite outbound_snoc, He. apply app_nil_r.
Qed.

Lemma quiet_bind {G A B} (m : M G A) (k : A -> M G B) :
  quiet m -> (forall a, quiet (k a)) -> quiet (m ≫= k).
Proof.
  intros Hm Hk s. rewrite run_bind. specialize (Hm s).
  destruct (m s) as [[a|t] s']; [|exact Hm].
  rewrite Hk. exact Hm.
Qed.

Lemma quiet_try_catch {G A} (m : M G A) (h : thrown -> M G A) :
  quiet m -> (forall t, quiet (h t)) -> quiet (try_catch m h).
Proof.
  intros Hm Hh s. unfold try_catch. specialize (Hm s).
  destruct (m s) as [[a|t] s']; [exact Hm|].
  rewrite Hh. exact Hm.
Qed.

Lemma quiet_when {G} b (m : M G unit) : quiet m -> quiet (when b m).
Proof. intros Hm. destruct b; [exact Hm|apply quiet_ret]. Qed.

End Quiet.

Create HintDb quiet.
#[global] Hint Resolve quiet_ret quiet_lift quiet_update quiet_current_res quiet_bind
  quiet_try_catch quiet_when : quiet.
#[global] Hint Extern 1 (Rules.quiet (emit _)) => (apply quiet_emit; reflexivity) : quiet.
#[global] Hint Extern 1 (Rules.quiet (log _ _ _)) => (apply quiet_emit; reflexivity) : quiet.
#[global] Hint Extern 1 (Rules.quiet (status _)) => apply quiet_update : quiet.
#[global] Hint Extern 1 (Rules.quiet (json _)) => apply quiet_update : quiet.
#[global] Hint Extern 1 (Rules.quiet (setHeader _ _)) => apply quiet_update : quiet.
#[global] Hint Extern 1 (Rules.quiet end_) => apply quiet_update : quiet.
#[global] Hint Extern 1 (Rules.quiet (write _)) => apply quiet_update : quiet.
#[global] Hint Extern 2 (Rules.quiet (if ?c then _ else _)) => destruct c : quiet.
#[global] Hint Extern 2 (Rules.quiet (match ?c with _ => _ end)) => destruct c : quiet.
#[global] Hint Extern 3 (Rules.quiet (fun _ => _)) => intros ? : quiet.

Section Handler.

Import ClaudeProxy Rules.

Local Abbreviation Store := (gmap string entry).

Lemma quiet_handleProxyError rev error : quiet (handleProxyError rev error).
Proof.
  unfold handleProxyError.
  destruct error as [e | [e code [response|]]]; auto 20 with quiet.
Qed.

Lemma quiet_relay_response rev clientId response : quiet (relay_response rev clientId response).
Proof. unfold relay_response. auto 20 with quiet. Qed.

Lemma run_rate_limit cfg now clientId (s : state Store) :
  rate_limit cfg now clientId s
  = (Normal (checkRateLimit cfg now clientId (globals s)).1,
     State (res s) (checkRateLimit cfg now clientId (globals s)).2 (trace s)).
Proof. reflexivity. Qed.

Context (coerce : value -> option Z) (rev : revision).
Context (env : environment) (now : Z) (upstream : provider) (req : request).

Local Abbreviation run_handler := (handler coerce rev env now upstream req).

(** The provider is called exactly once by [forward], at its start. *)
Lemma forward_outbound apiKey clientId (s : state Store) :
  nullish (body req) = false ->
  outbound (trace (forward rev upstream apiKey clientId req s).2)
  = outbound (trace s) ++ [the_post rev apiKey req].
Proof.
  intros Hbody. destruct s as [r g t]. unfold forward, the_post.
  destruct (verbose rev) eqn:Hverb; exec;
    rewrite ?(get_defined _ _ Hbody); exec;
    (destruct (upstream apiKey (body req)) as [response|e]; exec;
     [ match goal with
       | |- context [relay_response ?rv ?c ?rs ?st] =>
           rewrite (quiet_relay_response rv c rs st)
       end |]);
    cbn [trace snd]; rewrite !outbound_snoc; cbn [is_outbound];
    now rewrite ?app_nil_r.
Qed.

Ltac enter :=
  unfold rejected, outcome, response_after, trace_after, globals_after, admits,
    handler, start in *.

Lemma handler_options store :
  method req = "OPTIONS" ->
  outcome run_handler (start store) = Normal tt
  /\ statusCode (response_after run_handler (start store)) = 200
  /\ outbound (trace_after run_handler (start store)) = []
  /\ globals_after run_handler (start store) = store.
Proof. intros Hm. enter. rewrite Hm. exec. now repeat split. Qed.

Lemma handler_method_not_allowed store :
  method req <> "OPTIONS" -> method req <> "POST" ->
  rejected run_handler (start store) 405
    (VObj [("error", VStr "method_not_allowed");
           ("message", VStr "Only POST requests are supported")])
  /\ globals_after run_handler (start store) = store.
Proof.
  intros Hopt Hpost. apply String.eqb_neq in Hopt, Hpost. enter.
  rewrite Hopt, Hpost. destruct (verbose rev); exec; now repeat split.
Qed.

Lemma handler_rate_limited store :
  method req = "POST" -> admits env now req store = false ->
  rejected run_handler (start store) 429
    (VObj [("error", VStr "rate_limit_exceeded");
           ("message", VStr "Too many requests. Please try again later.")])
  /\ headers (response_after run_handler (start store)) !! "Retry-After" = Some "60".
Proof.
  intros Hm Ha. enter. rewrite Hm.
  change (String.eqb "POST" "OPTIONS") with false.
  change (String.eqb "POST" "POST") with true.
  destruct (verbose rev); exec; rewrite Ha; exec;
    now repeat split.
Qed.

Lemma handler_invalid store v :
  method req = "POST" -> admits env now req store = true ->
  validateClaudeRequest coerce rev (body req) = Normal v -> valid v = false ->
  rejected run_handler (start store) 400
    (VObj [("error", VStr "invalid_request"); ("message", of_option (error v))]).
Proof.
  intros Hm Ha Hv Hinv. enter. rewrite Hm.
  change (String.eqb "POST" "OPTIONS") with false.
  change (String.eqb "POST" "POST") with true.
  destruct (verbose rev); exec; rewrite Ha; exec;
    rewrite Hv; exec; rewrite Hinv; exec; now repeat split.
Qed.

(** A validator that throws is caught and reported as an unexpected error;
    nothing is sent to the provider. *)
Lemma handler_validation_throws store e :
  method req = "POST" -> admits env now req store = true ->
  validateClaudeRequest coerce rev (body req) = Abrupt (ThrownError e) ->
  rejected run_handler (start store) 500 internal_server_error.
Proof.
  intros Hm Ha Hv. enter. rewrite Hm.
  change (String.eqb "POST" "OPTIONS") with false.
  change (String.eqb "POST" "POST") with true.
  destruct (verbose rev); exec; rewrite Ha; exec;
    rewrite Hv; exec; rewrite handleProxyError_unexpected; now repeat split.
Qed.

Lemma handler_not_configured store v :
  method req = "POST" -> admits env now req store = true ->
  validateClaudeRequest coerce rev (body req) = Normal v -> valid v = true ->
  key_missing env ->
  rejected run_handler (start store) 500
    (VObj [("error", VStr "server_configuration_error");
           ("message", VStr "API key not configured on server")]).
Proof.
  intros Hm Ha Hv Hvalid Hkey. enter. rewrite Hm.
  change (String.eqb "POST" "OPTIONS") with false.
  change (String.eqb "POST" "POST") with true.
  destruct (verbose rev); exec; rewrite Ha; exec;
    rewrite Hv; exec; rewrite Hvalid; exec;
    (destruct Hkey as [-> | ->]; exec; now repeat split).
Qed.

Lemma validateClaudeRequest_throws_error body t :
  validateClaudeRequest coerce rev body = Abrupt t -> exists e, t = ThrownError e.
Proof.
  destruct (nullish body) eqn:Hbody.
  - rewrite validateClaudeRequest_nullish by assumption. intros [= <-]. eauto.
  - rewrite validateClaudeRequest_unfold by assumption.
    destruct (own body "messages") as [| |b|n|s0|items|fields]; try discriminate.
    destruct items as [|msg items]; [discriminate|].
    destruct (first_failure (msg :: items)) as [Hall | (good & bad & rest & -> & Hgood & Hbad)].
    + rewrite (check_messages_pass _ Hall). cbn [mbind completion_bind].
      destruct (negb _); [discriminate|]. destruct (negb _); [discriminate|].
      destruct (max_tokens_rejected _ _ _); discriminate.
    + destruct (nullish bad) eqn:Hnull.
      * rewrite check_messages_nullish by assumption. intros [= <-]. eauto.
      * rewrite check_messages_first_failure by assumption. discriminate.
Qed.

Lemma handler_forwards store v apiKey :
  method req = "POST" -> admits env now req store = true ->
  validateClaudeRequest coerce rev (body req) = Normal v -> valid v = true ->
  ANTHROPIC_API_KEY env = Some apiKey -> apiKey <> "" ->
  outbound (trace_after run_handler (start store)) = [the_post rev apiKey req].
Proof.
  intros Hm Ha Hv Hvalid Hkey Hne.
  assert (Hbody : nullish (body req) = false).
  { destruct (nullish (body req)) eqn:Hn; [|reflexivity].
    rewrite validateClaudeRequest_nullish in Hv by assumption. discriminate. }
  assert (Hk : nonempty apiKey = true).
  { unfold nonempty. apply negb_true_iff, String.eqb_neq, Hne. }
  enter. rewrite Hm.
  change (String.eqb "POST" "OPTIONS") with false.
  change (String.eqb "POST" "POST") with true.
  destruct (verbose rev) eqn:Hverb; exec; rewrite Ha; exec;
    rewrite Hv; exec; rewrite Hvalid; exec; rewrite Hkey, Hk;
    match goal with
    | |- context [forward ?rv ?up ?k ?c ?rq ?st] =>
        pose proof (forward_outbound k c st Hbody) as Hf;
        destruct (forward rv up k c rq st) as [[u|t] s']
    end;
    cbn [snd trace] in Hf |- *; rewrite ?quiet_handleProxyError; rewrite Hf;
    rewrite ?outbound_snoc; reflexivity.
Qed.

End Handler.

Section HandlerOrder.

Import ClaudeProxy Rules.

Context (coerce : value -> option Z) (rev : revision).
Context (env : environment) (now : Z) (upstream : provider) (req : request).

Local Abbreviation run_handler := (handler coerce rev env now upstream req).

(** C5. The buffered handler checks the method, then the rate limiter,
    then the payload, then the credential, and only then calls the
    provider.  A method other than POST (and OPTIONS) is answered 405
    without consulting the rate limiter; a POST the limiter rejects is
    answered 429 whatever its body and the credential are; an admitted POST
    whose body the validator rejects is answered 400 with the validator's
    reason, whatever the credential is; an admitted, valid POST with no
    credential is answered 500 "server_configuration_error".  None of
    these runs issues an outbound call, and in every run the trace holds
    an outbound call, the single [axios.post], only when all four checks
    passed. *)
Theorem handler_fails_fast (store : gmap string entry) :
  (method req <> "OPTIONS" -> method req <> "POST" ->
   rejected run_handler (start store) 405
     (VObj [("error", VStr "method_not_allowed");
            ("message", VStr "Only POST requests are supported")])
   /\ globals_after run_handler (start store) = store)
  /\ (method req = "POST" -> admits env now req store = false ->
      rejected run_handler (start store) 429
        (VObj [("error", VStr "rate_limit_exceeded");
               ("message", VStr "Too many requests. Please try again later.")]))
  /\ (forall v,
        method req = "POST" -> admits env now req store = true ->
        validateClaudeRequest coerce rev (body req) = Normal v -> valid v = false ->
        rejected run_handler (start store) 400
          (VObj [("error", VStr "invalid_request"); ("message", of_option (error v))]))
  /\ (forall v,
        method req = "POST" -> admits env now req store = true ->
        validateClaudeRequest coerce rev (body req) = Normal v -> valid v = true ->
        key_missing env ->
        rejected run_handler (start store) 500
          (VObj [("error", VStr "server_configuration_error");
                 ("message", VStr "API key not configured on server")]))
  /\ (outbound (trace_after run_handler (start store)) = []
      \/ (method req = "POST"
          /\ admits env now req store = true
          /\ (exists v, validateClaudeRequest coerce rev (body req) = Normal v /\ valid v = true)
          /\ exists apiKey,
               ANTHROPIC_API_KEY env = Some apiKey /\ apiKey <> ""
               /\ outbound (trace_after run_handler (start store)) = [the_post rev apiKey req])).
Proof.
  split; [|split; [|split; [|split]]].
  - apply handler_method_not_allowed.
  - intros Hm Ha. now apply handler_rate_limited.
  - intros v. apply handler_invalid.
  - intros v. apply handler_not_configured.
  - destruct (String.eqb_spec (method req) "OPTIONS") as [Hopt|Hopt].
    { left. now apply handler_options. }
    destruct (String.eqb_spec (method req) "POST") as [Hm|Hm].
    2: { left. now apply handler_method_not_allowed. }
    destruct (admits env now req store) eqn:Ha.
    2: { left. now apply handler_rate_limited. }
    destruct (validateClaudeRequest coerce rev (body req)) as [v|t] eqn:Hv.
    2: { left. destruct (validateClaudeRequest_throws_error _ _ _ _ Hv) as [e ->].
         now apply (handler_validation_throws coerce rev env now upstream req store e). }
    destruct (valid v) eqn:Hvalid.
    2: { left. now apply (handler_invalid coerce rev env now upstream req store v). }
    destruct (ANTHROPIC_API_KEY env) as [apiKey|] eqn:Hkey.
    2: { left. apply (handler_not_configured coerce rev env now upstream req store v); auto.
         now left. }
    destruct (String.eqb_spec apiKey "") as [->|Hne].
    { left. apply (handler_not_configured coerce rev env now upstream req store v); auto.
      now right. }
    right. split; [assumption|]. split; [reflexivity|]. split; [eauto|].
    exists apiKey. split; [reflexivity|]. split; [assumption|].
    now apply (handler_forwards coerce rev env now upstream req store v).
Qed.

End HandlerOrder.

Section HandlerCases.

Import ClaudeProxy Rules.

(** A client at its limit sends a body the validator would reject to a
    server without a credential: the answer is the limiter's 429. *)
Lemma handler_fails_fast_witness :
  rejected
    (handler no_coercion revision_1 (Environment None default_limits) 1000 answering
       (Request "POST" (Some "203.0.113.7, 10.0.0.1") None (VObj [])))
    (start (<["203.0.113.7" := Entry 100 60000]> ∅)) 429
    (VObj [("error", VStr "rate_limit_exceeded");
           ("message", VStr "Too many requests. Please try again later.")]).
Proof.
  apply (proj1 (proj2 (handler_fails_fast no_coercion revision_1
                         (Environment None default_limits) 1000 answering
                         (Request "POST" (Some "203.0.113.7, 10.0.0.1") None (VObj []))
                         (<["203.0.113.7" := Entry 100 60000]> ∅)))).
  - reflexivity.
  - vm_compute. reflexivity.
Defined.

End HandlerCases.

(** ** The streaming handler *)

Section Streaming.

Import Rules.
Import ClaudeStreamV2.

Context (key : option string) (streamText : sdk) (req : request).

Local Abbreviation run_handler := (handler key streamText req).

Lemma relay_run chunks (s : state unit) :
  relay chunks s
  = (Normal tt,
     State (fold_left (fun r chunk => send_chunk (sse chunk) r) chunks (res s))
           (globals s) (trace s)).
Proof.
  revert s. induction chunks as [|chunk rest IH]; intros [r g t]; [reflexivity|].
  cbn [relay]. exec. rewrite IH. reflexivity.
Qed.

Lemma written_relayed chunks r :
  written (fold_left (fun r chunk => send_chunk (sse chunk) r) chunks r)
  = written r ++ map sse chunks.
Proof.
  revert r. induction chunks as [|chunk rest IH]; intros r; cbn [fold_left map].
  - now rewrite app_nil_r.
  - rewrite IH. cbn [send_chunk written]. now rewrite <- app_assoc.
Qed.

Lemma relayed_status chunks r :
  statusCode (fold_left (fun r chunk => send_chunk (sse chunk) r) chunks r) = statusCode r
  /\ headers (fold_left (fun r chunk => send_chunk (sse chunk) r) chunks r) = headers r
  /\ sent (fold_left (fun r chunk => send_chunk (sse chunk) r) chunks r) = sent r.
Proof.
  revert r. induction chunks as [|chunk rest IH]; intros r; cbn [fold_left]; [done|].
  destruct (IH (send_chunk (sse chunk) r)) as (-> & -> & ->). done.
Qed.

Ltac enter_stream :=
  unfold rejected, outcome, response_after, trace_after, globals_after, streamable,
    stream_result, stream_call, mapped_model, handler, start in *.

(** The run of a POST with both fields, up to the mapping of the model. *)
Ltac post_stream Hm Hbody Hmodel Hmsgs :=
  enter_stream; rewrite Hm;
  change (String.eqb "POST" "OPTIONS") with false;
  change (String.eqb "POST" "POST") with true;
  rewrite !(destructure_defined _ _ _ _ Hbody); cbn [fmap completion_fmap]; exec;
  rewrite Hmodel, Hmsgs; exec.

(** Induction on a value through the elements of its arrays. *)
Lemma value_ind' (P : value -> Prop) :
  P VUndefined -> P VNull -> (forall b, P (VBool b)) -> (forall n, P (VNum n)) ->
  (forall s, P (VStr s)) -> (forall items, Forall P items -> P (VArr items)) ->
  (forall fields, P (VObj fields)) -> forall v, P v.
Proof.
  intros Hu Hn Hb Hnum Hs Harr Hobj. fix IH 1. intros v.
  destruct v as [| |b|n|s|items|fields]; [exact Hu|exact Hn|apply Hb|apply Hnum|apply Hs| |apply Hobj].
  apply Harr. revert items. fix IHitems 1. intros [|item items].
  - constructor.
  - constructor; [apply IH|apply IHitems].
Qed.

Lemma join_keys_throws (key_of : value -> completion string) (items : list value) t :
  Forall (fun item => forall t, key_of item = Abrupt t -> t = ThrownError cannot_convert) items ->
  join_keys key_of items = Abrupt t -> t = ThrownError cannot_convert.
Proof.
  intros Hall. revert t. induction Hall as [|item rest Hitem _ IH]; intros t; cbn [join_keys];
    [discriminate|].
  destruct (if nullish item then Normal "" else key_of item) as [first|t'] eqn:Hfirst;
    cbn [mbind completion_bind].
  - destruct rest as [|next rest]; [discriminate|].
    fold (join_keys key_of (next :: rest)).
    destruct (join_keys key_of (next :: rest)) as [others|t'] eqn:Hrest; [discriminate|].
    cbn [mbind completion_bind]. intros [= <-]. now apply IH.
  - intros [= <-]. destruct (nullish item); [discriminate|]. now apply Hitem.
Qed.

Lemma to_key_throws v t : to_key v = Abrupt t -> t = ThrownError cannot_convert.
Proof.
  revert t. induction v as [| |b|n|s|items IH|fields] using value_ind'; intros t; cbn [to_key];
    try discriminate.
  - now apply join_keys_throws.
  - destruct (has_own "toString" fields); [|discriminate]. now intros [= <-].
Qed.

Lemma lookup_or_convertible table v :
  convertible v -> exists m, lookup_or table v = Normal m.
Proof. intros (k & Hk). unfold lookup_or. rewrite Hk. cbn [mbind completion_bind]. eauto. Qed.

(** The run up to the [streamText] call, for a request that reaches it. *)
Lemma handler_streams fs :
  streamable req -> key_ok key = true ->
  stream_result streamText req = Normal (TextStream fs Completed) ->
  outcome run_handler (start tt) = Normal tt
  /\ written (response_after run_handler (start tt)) = map sse fs ++ [sse "[DONE]"]
  /\ statusCode (response_after run_handler (start tt)) = 200
  /\ headers (response_after run_handler (start tt)) !! "Content-Type" = Some "text/event-stream"
  /\ sent (response_after run_handler (start tt)) = Some NoBody
  /\ outbound (trace_after run_handler (start tt)) = [stream_call req].
Proof.
  intros (Hm & Hbody & Hmodel & Hmsgs) Hkey Hstream. post_stream Hm Hbody Hmodel Hmsgs.
  destruct (mappedModel (own (body req) "model")) as [m|t]; [|discriminate].
  cbn [mbind completion_bind] in Hstream. rewrite Hkey. exec. rewrite Hstream. exec.
  rewrite relay_run. exec. cbn [fst snd res trace fragments finish]. exec.
  cbn [fst snd res trace send_end send_chunk written statusCode headers sent].
  rewrite written_relayed.
  match goal with
  | |- context [fold_left ?f fs ?r] =>
      destruct (relayed_status fs r) as (-> & -> & ->)
  end.
  repeat split.
Qed.

Lemma handler_key_rejected :
  streamable req -> convertible (own (body req) "model") -> key_ok key = false ->
  rejected run_handler (start tt) 500
    (VObj [("error", VStr "ANTHROPIC_API_KEY not configured")]).
Proof.
  intros (Hm & Hbody & Hmodel & Hmsgs) Hconv Hkey. post_stream Hm Hbody Hmodel Hmsgs.
  destruct (lookup_or_convertible modelMap _ Hconv) as (m & Hmap).
  unfold mappedModel. rewrite Hmap, Hkey. exec. now repeat split.
Qed.


(** A model that cannot be used as a property key is answered by the
    [catch] block, whatever the credential is. *)
Lemma handler_mapping_throws t :
  streamable req -> mappedModel (own (body req) "model") = Abrupt t ->
  rejected run_handler (start tt) 500 (echoed t).
Proof.
  intros (Hm & Hbody & Hmodel & Hmsgs) Hmap. post_stream Hm Hbody Hmodel Hmsgs.
  rewrite Hmap. exec. cbn [set_header headersSent fresh_response]. exec. now repeat split.
Qed.

End Streaming.

(** ** The agent handler *)

Section Agent.

Import Rules.
Import AgentAnalyze.

Context (run_agent : agent) (req : request).



End Agent.

(** ** Streaming order, the credential check and unclassified failures *)

Section Endpoints.

Import Rules.

(** C4. For a request that reaches the provider call and a stream that
    yields the fragments [fs] and completes, the streaming handler writes
    exactly [data: f\n\n] for each fragment, in the order received, and then
    [data: [DONE]\n\n]; nothing else is written, and the response is ended
    with status 200 as an event stream. *)
Theorem stream_handler_relays_in_order
    (key : option string) (streamText : ClaudeStreamV2.sdk) (req : ClaudeStreamV2.request)
    (fs : list string) :
  streamable req ->
  ClaudeStreamV2.key_ok key = true ->
  stream_result streamText req = Normal (ClaudeStreamV2.TextStream fs ClaudeStreamV2.Completed) ->
  outcome (ClaudeStreamV2.handler key streamText req) (start tt) = Normal tt
  /\ written (response_after (ClaudeStreamV2.handler key streamText req) (start tt))
     = map sse fs ++ [sse "[DONE]"]
  /\ statusCode (response_after (ClaudeStreamV2.handler key streamText req) (start tt)) = 200
  /\ headers (response_after (ClaudeStreamV2.handler key streamText req) (start tt)) !! "Content-Type"
     = Some "text/event-stream"
  /\ sent (response_after (ClaudeStreamV2.handler key streamText req) (start tt)) = Some NoBody.
Proof.
  intros Hreq Hkey Hstream.
  destruct (handler_streams key streamText req fs Hreq Hkey Hstream)
    as (H1 & H2 & H3 & H4 & H5 & _).
  now repeat split.
Qed.

Lemma stream_handler_relays_in_order_witness :
  written
    (response_after
       (ClaudeStreamV2.handler (Some "sk-ant-api03-example") (streaming ["He"; "llo"]) stream_request)
       (start tt))
  = [ "data: He" +:+ ClaudeStreamV2.LF +:+ ClaudeStreamV2.LF;
      "data: llo" +:+ ClaudeStreamV2.LF +:+ ClaudeStreamV2.LF;
      "data: [DONE]" +:+ ClaudeStreamV2.LF +:+ ClaudeStreamV2.LF ].
Proof.
  refine (proj1 (proj2
           (stream_handler_relays_in_order (Some "sk-ant-api03-example")
              (streaming ["He"; "llo"]) stream_request ["He"; "llo"] _ eq_refl eq_refl))).
  repeat split.
Defined.

(** C7, as the code has it.  In the buffered handler an admitted, valid
    POST on a server whose credential is absent or empty is answered 500
    with error "server_configuration_error" and nothing is sent to the
    provider.  In the streaming handler a POST with [model] and
    [messages] on a server whose credential is absent or does not start
    with [sk-ant-] is answered 500 and [streamText] is not called; the
    body is [{error: "ANTHROPIC_API_KEY not configured"}] when the model
    table can be indexed with the [model], and the text of the
    [TypeError] of that lookup otherwise, the lookup coming before the
    check of the credential. *)
Theorem credential_checked_before_the_call :
  (forall coerce rev env now upstream req (store : gmap string ClaudeProxy.entry) v,
      ClaudeProxy.method req = "POST" ->
      admits env now req store = true ->
      ClaudeProxy.validateClaudeRequest coerce rev (ClaudeProxy.body req) = Normal v ->
      ClaudeProxy.valid v = true ->
      key_missing env ->
      rejected (ClaudeProxy.handler coerce rev env now upstream req) (start store) 500
        (VObj [("error", VStr "server_configuration_error");
               ("message", VStr "API key not configured on server")]))
  /\ (forall key streamText req,
        streamable req ->
        ClaudeStreamV2.key_ok key = false ->
        outcome (ClaudeStreamV2.handler key streamText req) (start tt) = Normal tt
        /\ statusCode (response_after (ClaudeStreamV2.handler key streamText req) (start tt)) = 500
        /\ outbound (trace_after (ClaudeStreamV2.handler key streamText req) (start tt)) = []
        /\ sent (response_after (ClaudeStreamV2.handler key streamText req) (start tt))
           = match ClaudeStreamV2.mappedModel (own (ClaudeStreamV2.body req) "model") with
             | Normal _ => Some (Json (VObj [("error", VStr "ANTHROPIC_API_KEY not configured")]))
             | Abrupt t => Some (Json (echoed t))
             end).
Proof.
  split.
  - intros. now apply (handler_not_configured coerce rev env now upstream req store v).
  - intros key streamText req Hs Hkey.
    destruct (ClaudeStreamV2.mappedModel (own (ClaudeStreamV2.body req) "model"))
      as [m|t] eqn:Hmap.
    + assert (Hconv : convertible (own (ClaudeStreamV2.body req) "model")).
      { unfold ClaudeStreamV2.mappedModel, lookup_or in Hmap.
        destruct (to_key (own (ClaudeStreamV2.body req) "model")) as [k|t] eqn:Hk; [|discriminate].
        now exists k. }
      destruct (handler_key_rejected key streamText req Hs Hconv Hkey) as (H1 & H2 & H3 & H4).
      now repeat split.
    + destruct (handler_mapping_throws key streamText req t Hs Hmap) as (H1 & H2 & H3 & H4).
      now repeat split.
Qed.

Lemma credential_checked_before_the_call_witness :
  sent
    (response_after
       (ClaudeStreamV2.handler (Some "not-a-provider-key") (streaming ["He"; "llo"]) stream_request)
       (start tt))
  = Some (Json (VObj [("error", VStr "ANTHROPIC_API_KEY not configured")])).
Proof.
  refine (proj2 (proj2 (proj2
            (proj2 credential_checked_before_the_call (Some "not-a-provider-key")
               (streaming ["He"; "llo"]) stream_request _ eq_refl)))).
  repeat split.
Defined.

(** C7 as stated fails on the code: with no credential the streaming
    handler answers 500, but its body is [{error: "ANTHROPIC_API_KEY not
    configured"}]; the error kind "server_configuration_error" is the
    buffered handler's. *)
Lemma stream_handler_names_no_error_kind :
  statusCode
    (response_after (ClaudeStreamV2.handler None (streaming ["He"; "llo"]) stream_request) (start tt))
  = 500
  /\ sent
       (response_after (ClaudeStreamV2.handler None (streaming ["He"; "llo"]) stream_request) (start tt))
     = Some (Json (VObj [("error", VStr "ANTHROPIC_API_KEY not configured")])).
Proof. split; reflexivity. Qed.

(** The model is looked up before the credential is checked: with no
    credential, a [model] that cannot be turned into a property key (an
    object with a [toString] field of its own) is answered with the
    [TypeError] of the lookup, not with the text about the credential. *)
Lemma stream_handler_looks_up_the_model_first :
  sent
    (response_after
       (ClaudeStreamV2.handler None (streaming ["He"; "llo"])
          (ClaudeStreamV2.Request "POST"
             (VObj [("model", VObj [("toString", VNum 1)]);
                    ("messages", VArr [VObj [("role", VStr "user"); ("content", VStr "Hi")]])])))
       (start tt))
  = Some (Json (VObj [("error", VStr "Cannot convert object to primitive value");
                      ("details", VStr "TypeError: Cannot convert object to primitive value")])).
Proof. reflexivity. Qed.

(** The buffered handler does not look at the form of the credential: any
    non-empty key is sent on. *)
Lemma handler_forwards_any_key :
  outbound
    (trace_after
       (ClaudeProxy.handler no_coercion ClaudeProxy.revision_1
          (ClaudeProxy.Environment (Some "not-a-provider-key") ClaudeProxy.default_limits)
          0 answering
          (ClaudeProxy.Request "POST" None None
             (chat "claude-3-haiku-20240307" "user" (VStr "Hi") (VNum 100))))
       (start ∅))
  = [the_post ClaudeProxy.revision_1 "not-a-provider-key"
       (ClaudeProxy.Request "POST" None None
          (chat "claude-3-haiku-20240307" "user" (VStr "Hi") (VNum 100)))].
Proof.
  apply (handler_forwards no_coercion ClaudeProxy.revision_1 _ 0 answering _ ∅ ClaudeProxy.ok);
    try reflexivity.
  discriminate.
Qed.

End Endpoints.

(** * Further properties *)

(** ** The rate limiter over call sequences *)

Section RateLimiterRuns.

Import ClaudeProxy Rules Coverage.

Implicit Types (cfg : limits) (now : Z) (c d : string) (store : gmap string entry).

Lemma checkRateLimit_bounded cfg now c store :
  bounded cfg store -> bounded cfg (checkRateLimit cfg now c store).2.
Proof.
  intros Hb. unfold checkRateLimit.
  destruct (store !! c) as [e|] eqn:He.
  - pose proof (Hb c e He) as Hc. cbn beta in Hc.
    destruct (resetTime e <? now).
    + cbn [snd]. apply map_Forall_insert_2; [cbn [count]; lia|exact Hb].
    + destruct (count e <? limit cfg) eqn:Hlt; [|exact Hb].
      apply Z.ltb_lt in Hlt. cbn [snd].
      apply map_Forall_insert_2; [cbn [count]; lia|exact Hb].
  - cbn [snd]. apply map_Forall_insert_2; [cbn [count]; lia|exact Hb].
Qed.

(** X1. The counts stay within bounds: when every entry of the store has
    a count between 1 and the limit (1 for a limit below 1), so has every
    entry after any sequence of calls, whatever their clients and clocks. *)
Theorem checkRateLimit_all_bounded cfg calls store :
  bounded cfg store -> bounded cfg (checkRateLimit_all cfg calls store).2.
Proof.
  revert store. induction calls as [|[now c] rest IH]; intros store Hb; [exact Hb|].
  rewrite checkRateLimit_all_cons. cbn [snd].
  apply IH, checkRateLimit_bounded, Hb.
Qed.

Lemma checkRateLimit_all_bounded_witness :
  bounded (Limits 2 1000)
    (checkRateLimit_all (Limits 2 1000) [(0, "a"); (5, "b"); (7, "a"); (9, "a"); (2000, "a")] ∅).2.
Proof.
  apply (checkRateLimit_all_bounded (Limits 2 1000)
           [(0, "a"); (5, "b"); (7, "a"); (9, "a"); (2000, "a")] ∅).
  apply map_Forall_empty.
Defined.

Lemma admissions_cons c now d rest b verdicts :
  admissions c ((now, d) :: rest) (b :: verdicts)
  = ((if bool_decide (d = c) && b then 1 else 0) + admissions c rest verdicts)%nat.
Proof. reflexivity. Qed.

(** X2. Within one window a client is admitted until its count reaches
    the limit and never after: for a client whose entry [e] is not expired
    at any of its calls of a sequence (other clients calling in between,
    at any clocks), the number of its calls that are admitted is the
    number of its calls, capped at [limit - count e]. *)
Theorem checkRateLimit_window_quota cfg c calls store e :
  store !! c = Some e ->
  Forall (fun call => ~ resetTime e < call.1) (calls_of c calls) ->
  Z.of_nat (admissions c calls (checkRateLimit_all cfg calls store).1)
  = Z.min (Z.of_nat (length (calls_of c calls))) (Z.max 0 (limit cfg - count e)).
Proof.
  revert store e. induction calls as [|[now d] rest IH]; intros store e He Hwin.
  { cbn. lia. }
  rewrite checkRateLimit_all_cons. cbn [fst]. rewrite admissions_cons.
  unfold calls_of in *. rewrite filter_cons in Hwin |- *. cbn [snd] in Hwin |- *.
  destruct (decide (d = c)) as [->|Hne].
  - rewrite bool_decide_eq_true_2 by reflexivity. cbn [andb].
    inversion Hwin as [|? ? Hnow Hrest]; subst. cbn [fst] in Hnow. cbn [length].
    destruct (Z.lt_ge_cases (count e) (limit cfg)) as [Hlt | Hge].
    + rewrite (checkRateLimit_within _ _ _ _ _ He Hnow Hlt). cbn [fst snd].
      rewrite Nat2Z.inj_add.
      rewrite (IH _ (Entry (count e + 1) (resetTime e))); [|apply lookup_insert_eq|exact Hrest].
      cbn [count]. lia.
    + rewrite (checkRateLimit_full _ _ _ _ _ He Hnow) by lia. cbn [fst snd].
      rewrite Nat2Z.inj_add. rewrite (IH _ e He Hrest). lia.
  - rewrite bool_decide_eq_false_2 by assumption. cbn [andb]. rewrite Nat.add_0_l.
    apply IH; [|exact Hwin].
    rewrite checkRateLimit_other by congruence. exact He.
Qed.

Lemma checkRateLimit_window_quota_witness :
  Z.of_nat
    (admissions "a" [(10, "a"); (20, "b"); (30, "a"); (1000, "a")]
       (checkRateLimit_all (Limits 3 1000) [(10, "a"); (20, "b"); (30, "a"); (1000, "a")]
          (<["a" := Entry 1 1000]> ∅)).1)
  = Z.min 3 (Z.max 0 (3 - 1)).
Proof.
  apply (checkRateLimit_window_quota (Limits 3 1000) "a"
           [(10, "a"); (20, "b"); (30, "a"); (1000, "a")]
           (<["a" := Entry 1 1000]> ∅) (Entry 1 1000)).
  - apply lookup_insert_eq.
  - repeat constructor; cbn; lia.
Defined.

End RateLimiterRuns.

(** ** The client identifier *)

Section ClientId.

Import ClaudeProxy Rules.

Lemma nonempty_true s : nonempty s = true <-> s <> "".
Proof. unfold nonempty. rewrite negb_true_iff. apply String.eqb_neq. Qed.

Lemma nonempty_false s : nonempty s = false <-> s = "".
Proof. unfold nonempty. rewrite negb_false_iff. apply String.eqb_eq. Qed.

(** X3. The rate-limit bucket of a request is never the empty string.  It
    is the first comma-separated entry of [x-forwarded-for], trimmed,
    whenever that entry is not empty, whatever the peer address is; only
    without such an entry is it the peer address, and "unknown" when that
    is absent or empty too. *)
Theorem clientId_of_bucket (req : request) :
  clientId_of req <> ""
  /\ (forall h, x_forwarded_for req = Some h -> trim (first_segment h) <> "" ->
        clientId_of req = trim (first_segment h))
  /\ ((x_forwarded_for req = None
       \/ exists h, x_forwarded_for req = Some h /\ trim (first_segment h) = "") ->
      (forall a, remoteAddress req = Some a -> a <> "" -> clientId_of req = a)
      /\ (remoteAddress req = None \/ remoteAddress req = Some "" ->
          clientId_of req = "unknown")).
Proof.
  unfold clientId_of. split; [|split].
  - destruct (x_forwarded_for req) as [h|].
    + destruct (nonempty (trim (first_segment h))) eqn:Hh.
      * now apply nonempty_true.
      * destruct (remoteAddress req) as [a|]; [|discriminate].
        destruct (nonempty a) eqn:Ha; [now apply nonempty_true|discriminate].
    + cbn. destruct (remoteAddress req) as [a|]; [|discriminate].
      destruct (nonempty a) eqn:Ha; [now apply nonempty_true|discriminate].
  - intros h -> Hh. apply nonempty_true in Hh. now rewrite Hh.
  - intros Hx.
    assert (Hf : nonempty (match x_forwarded_for req with
                           | Some h => trim (first_segment h)
                           | None => ""
                           end) = false).
    { destruct Hx as [-> | (h & -> & Hh)]; [reflexivity|]. now apply nonempty_false. }
    rewrite Hf. split.
    + intros a -> Ha. apply nonempty_true in Ha. now rewrite Ha.
    + intros [-> | ->]; reflexivity.
Qed.

Lemma clientId_of_bucket_witness :
  clientId_of (Request "POST" (Some " 203.0.113.7 , 10.0.0.1") (Some "10.0.0.9") VNull)
  = "203.0.113.7".
Proof.
  apply (proj1 (proj2 (clientId_of_bucket
           (Request "POST" (Some " 203.0.113.7 , 10.0.0.1") (Some "10.0.0.9") VNull)))
           " 203.0.113.7 , 10.0.0.1").
  - reflexivity.
  - discriminate.
Defined.

End ClientId.

(** ** More on the validator *)

Section ValidatorMore.

Import ClaudeProxy Rules Coverage2.

Context (coerce : value -> option Z) (rev : revision).

(** X4. A verdict is [{valid: true}] with no reason, or [{valid: false}]
    with one of the seven reasons of the rules. *)
Theorem validateClaudeRequest_verdicts body v :
  validateClaudeRequest coerce rev body = Normal v ->
  v = ok \/ exists reason, v = invalid reason /\ reason ∈ reasons rev.
Proof.
  unfold reasons. destruct (nullish body) eqn:Hbody.
  { rewrite validateClaudeRequest_nullish by assumption. discriminate. }
  rewrite validateClaudeRequest_unfold by assumption.
  destruct (own body "messages") as [| |b|n|s0|items|fields];
    try (intros [= <-]; right; eexists; split; [reflexivity|set_solver]).
  destruct items as [|msg items].
  { intros [= <-]. right. eexists. split; [reflexivity|set_solver]. }
  destruct (first_failure (msg :: items)) as [Hall | (good & bad & rest & -> & Hgood & Hbad)].
  - rewrite (check_messages_pass _ Hall). cbn [mbind completion_bind].
    destruct (negb _). { intros [= <-]. right. eexists. split; [reflexivity|set_solver]. }
    destruct (negb _). { intros [= <-]. right. eexists. split; [reflexivity|set_solver]. }
    destruct (max_tokens_rejected _ _ _); intros [= <-]; [|now left].
    right. eexists. split; [reflexivity|set_solver].
  - destruct (nullish bad) eqn:Hnull.
    + rewrite check_messages_nullish by assumption. discriminate.
    + rewrite check_messages_first_failure by assumption. cbn [mbind completion_bind].
      intros [= <-]. right. eexists. split; [reflexivity|].
      unfold message_reason. destruct (_ && _); set_solver.
Qed.

(** X5. The validator inspects [messages], [model] and [max_tokens] and
    nothing else: two bodies that agree on these three fields get the same
    verdict, whatever other fields ([system], [temperature], ...) they
    carry. *)
Theorem validateClaudeRequest_three_fields body body' :
  nullish body = false -> nullish body' = false ->
  own body "messages" = own body' "messages" ->
  own body "model" = own body' "model" ->
  own body "max_tokens" = own body' "max_tokens" ->
  validateClaudeRequest coerce rev body = validateClaudeRequest coerce rev body'.
Proof.
  intros Hb Hb' Hmsgs Hmodel Hmax.
  rewrite !validateClaudeRequest_unfold by assumption.
  now rewrite Hmsgs, Hmodel, Hmax.
Qed.

(** X6. For a body whose messages and model pass, an integer [max_tokens]
    other than 0 is accepted exactly when it lies in [1 .. bound] (4096 in
    the first revision, 8192 in the second). *)
Theorem validateClaudeRequest_integer_max_tokens body items n :
  nullish body = false ->
  own body "messages" = VArr items -> items <> [] ->
  Forall (fun msg => message_ok msg = true) items ->
  truthy (own body "model") = true ->
  includes (allowedModels rev) (own body "model") = true ->
  own body "max_tokens" = VNum n -> n <> 0 ->
  (1 <= n <= maxTokensBound rev -> validateClaudeRequest coerce rev body = Normal ok)
  /\ (n < 1 \/ maxTokensBound rev < n ->
      validateClaudeRequest coerce rev body = Normal (invalid (maxTokensReason rev))).
Proof.
  intros Hbody Hmsgs Hne Hall Hmodel Hallowed Hmax Hn.
  rewrite (validateClaudeRequest_max_tokens coerce rev body items) by assumption.
  rewrite Hmax. split; intros Hrange.
  - destruct (max_tokens_rejected coerce rev (VNum n)) eqn:Hrej; [|reflexivity].
    apply max_tokens_rejected_number in Hrej. lia.
  - rewrite (proj2 (max_tokens_rejected_number coerce rev n)); [reflexivity|].
    split; assumption.
Qed.

End ValidatorMore.

Section ValidatorMoreCases.

Import ClaudeProxy Rules.

Lemma validateClaudeRequest_verdicts_witness :
  invalid "Messages array cannot be empty" = ok
  \/ exists reason,
       invalid "Messages array cannot be empty" = invalid reason
       /\ reason ∈ Coverage2.reasons revision_2.
Proof.
  apply (validateClaudeRequest_verdicts no_coercion revision_2
           (VObj [("messages", VArr [])])).
  reflexivity.
Defined.

Lemma validateClaudeRequest_three_fields_witness :
  validateClaudeRequest no_coercion revision_1
    (VObj [("system", VStr "Be brief"); ("temperature", VNum 1);
           ("model", VStr "claude-3-haiku-20240307"); ("max_tokens", VNum 100);
           ("messages", VArr [VObj [("role", VStr "user"); ("content", VStr "Hi")]])])
  = validateClaudeRequest no_coercion revision_1
      (chat "claude-3-haiku-20240307" "user" (VStr "Hi") (VNum 100)).
Proof.
  apply (validateClaudeRequest_three_fields no_coercion revision_1); reflexivity.
Defined.

Lemma validateClaudeRequest_integer_max_tokens_witness :
  validateClaudeRequest no_coercion revision_1
    (chat "claude-3-haiku-20240307" "user" (VStr "Hi") (VNum 4097))
  = Normal (invalid "max_tokens must be between 1 and 4096").
Proof.
  apply (proj2 (validateClaudeRequest_integer_max_tokens no_coercion revision_1
                  (chat "claude-3-haiku-20240307" "user" (VStr "Hi") (VNum 4097))
                  [VObj [("role", VStr "user"); ("content", VStr "Hi")]] 4097
                  eq_refl eq_refl ltac:(discriminate)
                  ltac:(repeat constructor) eq_refl eq_refl eq_refl ltac:(discriminate))).
  right. reflexivity.
Defined.

End ValidatorMoreCases.

(** ** The error normalizer, branch by branch *)

Section NormalizerMore.

Import ClaudeProxy Rules Coverage2.

Context (rev : revision).

Local Abbreviation Store := (gmap string entry).

Lemma truthy_or_else a b : truthy b = true -> truthy (or_else a b) = true.
Proof. intros Hb. unfold or_else. now destruct (truthy a) eqn:Ha. Qed.

Lemma handleProxyError_auth e code st hdrs data (s : state Store) :
  st = 401 \/ st = 403 ->
  verbose rev = false \/ nullish data = false ->
  handleProxyError rev (upstream_failure e code st hdrs data) s
  = (Normal tt,
     State (send_json (VObj [("error", VStr "authentication_failed");
                             ("message", VStr "Invalid or expired API credentials")])
              (set_status st (res s)))
           (globals s) (trace s ++ [upstream_log rev st data])).
Proof.
  intros Hst Hd. destruct s as [r g t].
  unfold handleProxyError, upstream_failure, upstream_log.
  cbn [resp_status resp_data resp_headers].
  assert (H429 : (st =? 429) = false) by (destruct Hst as [-> | ->]; reflexivity).
  assert (Hauth : ((st =? 401) || (st =? 403)) = true) by (destruct Hst as [-> | ->]; reflexivity).
  rewrite H429, Hauth. cbv iota.
  destruct (verbose rev).
  - destruct Hd as [Hd | Hd]; [discriminate|].
    rewrite (get_defined _ "error" Hd). now run.
  - now run.
Qed.

(** X7. An upstream 401 or 403 keeps its status and is answered with error
    "authentication_failed" and the fixed message "Invalid or expired API
    credentials": nothing of the provider's body reaches the caller, and
    nothing is sent to the provider.  In the revision that logs the
    provider's error this holds for a provider answer whose parsed body is
    not [null] or [undefined]. *)
Theorem handleProxyError_authentication e code st hdrs data (s : state Store) :
  st = 401 \/ st = 403 ->
  verbose rev = false \/ nullish data = false ->
  outcome (handleProxyError rev (upstream_failure e code st hdrs data)) s = Normal tt
  /\ statusCode (response_after (handleProxyError rev (upstream_failure e code st hdrs data)) s) = st
  /\ sent (response_after (handleProxyError rev (upstream_failure e code st hdrs data)) s)
     = Some (Json (VObj [("error", VStr "authentication_failed");
                         ("message", VStr "Invalid or expired API credentials")]))
  /\ outbound (trace_after (handleProxyError rev (upstream_failure e code st hdrs data)) s)
     = outbound (trace s).
Proof.
  intros Hst Hd. split; [|split; [|split]]; [| | |apply quiet_handleProxyError];
    unfold outcome, response_after; now rewrite handleProxyError_auth by assumption.
Qed.

Lemma handleProxyError_bad_request e code hdrs data (s : state Store) :
  nullish data = false ->
  handleProxyError rev (upstream_failure e code 400 hdrs data) s
  = (Normal tt,
     State (send_json (VObj [("error", VStr "invalid_request");
                             ("message", or_else (get_opt (own data "error") "message")
                                                 (VStr "Invalid request to Claude API"))])
              (set_status 400 (res s)))
           (globals s) (trace s ++ [upstream_log rev 400 data])).
Proof.
  intros Hd. destruct s as [r g t].
  unfold handleProxyError, upstream_failure, upstream_log.
  cbn [resp_status resp_data resp_headers].
  change (400 =? 429) with false. change ((400 =? 401) || (400 =? 403)) with false.
  change (400 =? 529) with false. change (400 =? 400) with true. cbv iota.
  rewrite (upstream_field_defined _ _ _ Hd), (get_defined _ "error" Hd).
  run. now destruct (verbose rev).
Qed.

Lemma handleProxyError_other e code st hdrs data (s : state Store) :
  st <> 429 -> st <> 401 -> st <> 403 -> st <> 529 -> st <> 400 ->
  nullish data = false ->
  handleProxyError rev (upstream_failure e code st hdrs data) s
  = (Normal tt,
     State (send_json (VObj [("error", or_else (get_opt (own data "error") "type")
                                               (VStr "api_error"));
                             ("message", or_else (get_opt (own data "error") "message")
                                                 (VStr "Unknown error from Claude API"))])
              (set_status st (res s)))
           (globals s) (trace s ++ [upstream_log rev st data])).
Proof.
  intros H1 H2 H3 H4 H5 Hd. destruct s as [r g t].
  unfold handleProxyError, upstream_failure, upstream_log.
  cbn [resp_status resp_data resp_headers].
  apply Z.eqb_neq in H1, H2, H3, H4, H5. rewrite H1, H2, H3, H4, H5. cbn [orb]. cbv iota.
  rewrite !(upstream_field_defined _ _ _ Hd), (get_defined _ "error" Hd).
  run. now destruct (verbose rev).
Qed.

(** X8. For a provider answer whose parsed body is not [null] or
    [undefined]: an upstream 400 is answered 400 "invalid_request", and any
    upstream status the normalizer has no branch for keeps its status
    with the provider's own [error.type], "api_error" when that is not
    truthy.  In both cases the message is the provider's [error.message]
    when that is truthy and a fixed text otherwise. *)
Theorem handleProxyError_passes_upstream_message e code st hdrs data (s : state Store) :
  nullish data = false ->
  st <> 429 -> st <> 401 -> st <> 403 -> st <> 529 ->
  outcome (handleProxyError rev (upstream_failure e code st hdrs data)) s = Normal tt
  /\ statusCode (response_after (handleProxyError rev (upstream_failure e code st hdrs data)) s) = st
  /\ body_field (response_after (handleProxyError rev (upstream_failure e code st hdrs data)) s) "error"
     = (if st =? 400 then VStr "invalid_request"
        else or_else (get_opt (own data "error") "type") (VStr "api_error"))
  /\ body_field (response_after (handleProxyError rev (upstream_failure e code st hdrs data)) s) "message"
     = or_else (get_opt (own data "error") "message")
         (VStr (if st =? 400 then "Invalid request to Claude API"
                else "Unknown error from Claude API")).
Proof.
  intros Hd H1 H2 H3 H4. unfold outcome, response_after.
  destruct (Z.eqb_spec st 400) as [-> | H5].
  - rewrite handleProxyError_bad_request by assumption. now repeat split.
  - rewrite handleProxyError_other by assumption. now repeat split.
Qed.

Lemma handleProxyError_timeout e (s : state Store) :
  handleProxyError rev (transport_failure e "ECONNABORTED") s
  = (Normal tt,
     State (send_json (VObj [("error", VStr "request_timeout");
                             ("message", VStr (timeoutReason rev))])
              (set_status 504 (res s)))
           (globals s) (trace s)).
Proof. destruct s as [r g t]. unfold handleProxyError, transport_failure. now run. Qed.

(** A transport error without a response is classified by its code
    alone: ECONNABORTED is answered 504 "request_timeout" with the
    revision's timeout text, ENOTFOUND 503 "service_unavailable"; neither
    is logged nor changes the store. *)
Theorem handleProxyError_transport e (s : state Store) :
  handleProxyError rev (transport_failure e "ECONNABORTED") s
  = (Normal tt,
     State (send_json (VObj [("error", VStr "request_timeout");
                             ("message", VStr (timeoutReason rev))])
              (set_status 504 (res s)))
           (globals s) (trace s))
  /\ handleProxyError rev (transport_failure e "ENOTFOUND") s
     = (Normal tt,
        State (send_json (VObj [("error", VStr "service_unavailable");
                                ("message", VStr "Could not connect to Claude API")])
                 (set_status 503 (res s)))
              (globals s) (trace s)).
Proof.
  split; [apply handleProxyError_timeout|].
  apply handleProxyError_unreachable. now right.
Qed.

(** What [handleProxyError] does when it reads [data.error] of a missing
    body: the [TypeError] leaves it before anything is sent. *)
Lemma handleProxyError_escapes error (s : state Store) :
  reads_missing_body rev error = true ->
  outcome (handleProxyError rev error) s
  = Abrupt (ThrownError (type_error (upstream_body error) "error"))
  /\ sent (response_after (handleProxyError rev error) s) = sent (res s).
Proof.
  destruct error as [e | [e code [[st hdrs data]|]]]; try discriminate.
  cbn [reads_missing_body upstream_body resp_data resp_status].
  rewrite andb_true_iff. intros [Hd Hread]. destruct s as [r g t].
  unfold outcome, response_after, handleProxyError.
  cbn [resp_status resp_data resp_headers]. unfold upstream_field.
  rewrite !(get_nullish _ "error" Hd).
  destruct (verbose rev); [now run|]. cbn [orb] in Hread.
  apply negb_true_iff in Hread. apply orb_false_iff in Hread as [Hread H529].
  rewrite Hread, H529.
  destruct (st =? 429); [now run|]. destruct (st =? 400); now run.
Qed.

Lemma handleProxyError_answers error (s : state Store) :
  timeoutReason rev <> "" ->
  reads_missing_body rev error = false ->
  outcome (handleProxyError rev error) s = Normal tt
  /\ answers_with_kind (response_after (handleProxyError rev error) s).
Proof.
  intros Htimeout Hread. unfold answers_with_kind.
  assert (Ht : truthy (VStr (timeoutReason rev)) = true).
  { cbn. now apply negb_true_iff, String.eqb_neq. }
  destruct error as [e | [e code [[st hdrs data]|]]].
  - unfold outcome, response_after. rewrite handleProxyError_unexpected.
    split; [reflexivity|]. eexists. now repeat split.
  - cbn [reads_missing_body resp_data resp_status] in Hread.
    unfold outcome, response_after.
    change (ThrownAxios (AxiosError e code (Some (AxiosResponse st hdrs data))))
      with (upstream_failure e code st hdrs data).
    destruct (Z.eqb_spec st 401) as [-> | H401].
    { rewrite (handleProxyError_auth e code 401 hdrs data s) by
        (try (now left); destruct (verbose rev), (nullish data); auto; discriminate).
      split; [reflexivity|]. eexists. now repeat split. }
    destruct (Z.eqb_spec st 403) as [-> | H403].
    { rewrite (handleProxyError_auth e code 403 hdrs data s) by
        (try (now right); destruct (verbose rev), (nullish data); auto; discriminate).
      split; [reflexivity|]. eexists. now repeat split. }
    destruct (Z.eqb_spec st 529) as [-> | H529].
    { rewrite (handleProxyError_529 rev e code hdrs data s) by
        (destruct (verbose rev), (nullish data); auto; discriminate).
      split; [reflexivity|]. eexists. now repeat split. }
    assert (Hd : nullish data = false).
    { destruct (nullish data); [|reflexivity]. cbn [andb] in Hread.
      now destruct (verbose rev). }
    destruct (Z.eqb_spec st 429) as [-> | H429].
    { rewrite (handleProxyError_429 rev e code hdrs data s) by assumption.
      split; [reflexivity|]. eexists. split; [reflexivity|]. split; [reflexivity|].
      now apply truthy_or_else. }
    destruct (Z.eqb_spec st 400) as [-> | H400].
    { rewrite handleProxyError_bad_request by assumption.
      split; [reflexivity|]. eexists. split; [reflexivity|]. split; [reflexivity|].
      now apply truthy_or_else. }
    rewrite handleProxyError_other by assumption.
    split; [reflexivity|]. eexists. split; [reflexivity|].
    split; now apply truthy_or_else.
  - unfold outcome, response_after, handleProxyError. destruct s as [r g t].
    destruct (bool_decide (code = Some "ECONNABORTED")).
    { run. split; [reflexivity|]. eexists. now repeat split. }
    destruct (bool_decide (code = Some "ECONNREFUSED") || bool_decide (code = Some "ENOTFOUND")).
    { run. split; [reflexivity|]. eexists. now repeat split. }
    run. split; [reflexivity|]. eexists. now repeat split.
Qed.

(** X9. Whatever it is handed, [handleProxyError] either answers with a
    JSON body whose [error] and [message] are both truthy, or, exactly
    when it reads [data.error] of a provider answer whose parsed body is
    [null] or [undefined], throws a [TypeError] having sent nothing.  It
    never calls the provider. *)
Theorem handleProxyError_answers_or_throws error (s : state Store) :
  timeoutReason rev <> "" ->
  (reads_missing_body rev error = false ->
   outcome (handleProxyError rev error) s = Normal tt
   /\ answers_with_kind (response_after (handleProxyError rev error) s))
  /\ (reads_missing_body rev error = true ->
      outcome (handleProxyError rev error) s
      = Abrupt (ThrownError (type_error (upstream_body error) "error"))
      /\ sent (response_after (handleProxyError rev error) s) = sent (res s))
  /\ outbound (trace_after (handleProxyError rev error) s) = outbound (trace s).
Proof.
  intros Htimeout. split; [|split].
  - now apply handleProxyError_answers.
  - apply handleProxyError_escapes.
  - apply quiet_handleProxyError.
Qed.

End NormalizerMore.

Section NormalizerMoreCases.

Import ClaudeProxy Rules.

Lemma handleProxyError_authentication_witness :
  sent
    (response_after
       (handleProxyError revision_2
          (upstream_failure request_failed (Some "ERR_BAD_REQUEST") 401 ∅
             (provider_error "authentication_error" "invalid x-api-key")))
       (start ∅))
  = Some (Json (VObj [("error", VStr "authentication_failed");
                      ("message", VStr "Invalid or expired API credentials")])).
Proof.
  refine (proj1 (proj2 (proj2
            (handleProxyError_authentication revision_2 request_failed (Some "ERR_BAD_REQUEST")
               401 ∅ (provider_error "authentication_error" "invalid x-api-key") (start ∅) _ _)))).
  - now left.
  - now right.
Defined.

Lemma handleProxyError_passes_upstream_message_witness :
  body_field
    (response_after
       (handleProxyError revision_1
          (upstream_failure request_failed (Some "ERR_BAD_RESPONSE") 500 ∅
             (provider_error "api_error" "Internal server error")))
       (start ∅))
    "message"
  = VStr "Internal server error".
Proof.
  apply (handleProxyError_passes_upstream_message revision_1 request_failed
           (Some "ERR_BAD_RESPONSE") 500 ∅ (provider_error "api_error" "Internal server error")
           (start ∅)); (reflexivity || discriminate).
Defined.

Lemma handleProxyError_answers_or_throws_witness :
  outcome
    (handleProxyError revision_1
       (upstream_failure request_failed (Some "ERR_BAD_REQUEST") 429 ∅ VNull))
    (start ∅)
  = Abrupt (ThrownError (type_error VNull "error")).
Proof.
  apply (proj1 (proj2 (handleProxyError_answers_or_throws revision_1
                         (upstream_failure request_failed (Some "ERR_BAD_REQUEST") 429 ∅ VNull)
                         (start ∅) ltac:(discriminate)))).
  reflexivity.
Defined.

End NormalizerMoreCases.

(** ** Invariants of statements *)

Section Invariants.

Import Rules Coverage3.

Context {G : Type} (I : state G -> Prop).

Lemma inv_ret {A} (a : A) : inv I (ret a : M G A).
Proof. intros s Hs. exact Hs. Qed.

Lemma inv_lift {A} (c : completion A) : inv I (lift c : M G A).
Proof. intros s Hs. exact Hs. Qed.

Lemma inv_current_res : inv I (current_res : M G response).
Proof. intros s Hs. exact Hs. Qed.

Lemma inv_update f :
  (forall r g t, I (State r g t) -> I (State (f r) g t)) -> inv I (update_res f : M G unit).
Proof. intros Hf [r g t] Hs. now apply Hf. Qed.

Lemma inv_emit e :
  (forall r g t, I (State r g t) -> I (State r g (t ++ [e]))) -> inv I (emit e : M G unit).
Proof. intros He [r g t] Hs. now apply He. Qed.

Lemma inv_bind {A B} (m : M G A) (k : A -> M G B) :
  inv I m -> (forall a, inv I (k a)) -> inv I (m ≫= k).
Proof.
  intros Hm Hk s Hs. rewrite run_bind. specialize (Hm s Hs).
  destruct (m s) as [[a|t] s']; [|exact Hm]. now apply Hk.
Qed.

Lemma inv_try_catch {A} (m : M G A) (h : thrown -> M G A) :
  inv I m -> (forall t, inv I (h t)) -> inv I (try_catch m h).
Proof.
  intros Hm Hh s Hs. unfold try_catch. specialize (Hm s Hs).
  destruct (m s) as [[a|t] s']; [exact Hm|]. now apply Hh.
Qed.

Lemma inv_when b (m : M G unit) : inv I m -> inv I (when b m).
Proof. intros Hm. destruct b; [exact Hm|apply inv_ret]. Qed.

(** Stepping over a statement whose run is known. *)
Lemma step_bind {A B} (m : M G A) (k : A -> M G B) s a s' :
  m s = (Normal a, s') -> (m ≫= k) s = k a s'.
Proof. intros Hm. rewrite run_bind. now rewrite Hm. Qed.

Lemma inv_caught {A} (m : M G A) (h : thrown -> M G A) s :
  (forall t, inv I (h t)) -> I (m s).2 -> I (try_catch m h s).2.
Proof.
  intros Hh Hm. unfold try_catch.
  destruct (m s) as [[a|t] s']; [exact Hm|]. now apply Hh.
Qed.

End Invariants.

Create HintDb inv.
#[global] Hint Resolve inv_ret inv_lift inv_current_res inv_bind inv_try_catch inv_when : inv.
#[global] Hint Extern 2 (Coverage3.inv _ (if ?c then _ else _)) => destruct c : inv.
#[global] Hint Extern 2 (Coverage3.inv _ (match ?c with _ => _ end)) => destruct c : inv.
#[global] Hint Extern 3 (Coverage3.inv _ (fun _ => _)) => intros ? : inv.

(** ** The buffered handler: headers, store and answers *)

Ltac inv_side :=
  let H := fresh "H" in
  intros ? ? ? H; cbn [res globals trace] in *;
  first
    [ exact H
    | destruct H as (? & ? & ?); repeat split;
      cbn [headers set_status send_json send_end send_chunk set_header];
      rewrite ?lookup_insert_ne by discriminate; assumption ].

#[global] Hint Extern 1 (Coverage3.inv _ (emit _)) => (apply inv_emit; inv_side) : inv.
#[global] Hint Extern 1 (Coverage3.inv _ (log _ _ _)) => (apply inv_emit; inv_side) : inv.
#[global] Hint Extern 1 (Coverage3.inv _ (status _)) => (apply inv_update; inv_side) : inv.
#[global] Hint Extern 1 (Coverage3.inv _ (json _)) => (apply inv_update; inv_side) : inv.
#[global] Hint Extern 1 (Coverage3.inv _ (setHeader _ _)) => (apply inv_update; inv_side) : inv.
#[global] Hint Extern 1 (Coverage3.inv _ end_) => (apply inv_update; inv_side) : inv.
#[global] Hint Extern 1 (Coverage3.inv _ (write _)) => (apply inv_update; inv_side) : inv.

Section HandlerMore.

Import ClaudeProxy Rules Coverage2 Coverage3.

Local Abbreviation Store := (gmap string entry).
Local Abbreviation allow := "Content-Type, Authorization, X-Requested-With".

Lemma inv_cors_rate_limit cfg now c :
  inv (fun s : state Store => has_cors allow (res s)) (rate_limit cfg now c).
Proof. intros [r g t] H. exact H. Qed.

Lemma inv_cors_handleProxyError rev error :
  inv (fun s : state Store => has_cors allow (res s)) (handleProxyError rev error).
Proof.
  unfold handleProxyError.
  destruct error as [e | [e code [response|]]]; auto 20 with inv.
Qed.

Lemma inv_cors_relay_response rev clientId response :
  inv (fun s : state Store => has_cors allow (res s)) (relay_response rev clientId response).
Proof. unfold relay_response. auto 20 with inv. Qed.

Lemma inv_cors_forward rev upstream apiKey clientId req :
  inv (fun s : state Store => has_cors allow (res s)) (forward rev upstream apiKey clientId req).
Proof.
  unfold forward. pose proof (inv_cors_relay_response rev clientId). auto 20 with inv.
Qed.

Lemma has_cors_cors_response : has_cors allow cors_response.
Proof. repeat split. Qed.

Context (coerce : value -> option Z) (rev : revision).
Context (env : environment) (now : Z) (upstream : provider) (req : request).

Local Abbreviation run_handler := (handler coerce rev env now upstream req).

(** X10. Every response of the buffered handler carries the three CORS
    headers, whatever the request, the configuration and the provider do,
    and also when an exception leaves the handler. *)
Theorem handler_always_cors (store : Store) :
  has_cors allow (response_after run_handler (start store)).
Proof.
  unfold response_after, handler, start.
  do 3 (erewrite step_bind; [|reflexivity]).
  match goal with
  | |- has_cors ?al (res (?m ?s).2) =>
      change ((fun st : state Store => has_cors al (res st)) (m s).2);
      assert (Hinv : inv (fun st : state Store => has_cors al (res st)) m)
  end.
  { pose proof inv_cors_rate_limit. pose proof (inv_cors_handleProxyError rev).
    pose proof (inv_cors_forward rev upstream).
    cbv zeta. auto 30 with inv. }
  apply Hinv. exact has_cors_cors_response.
Qed.

Lemma inv_globals_handleProxyError (g : Store) error :
  inv (fun s : state Store => globals s = g) (handleProxyError rev error).
Proof.
  unfold handleProxyError.
  destruct error as [e | [e code [response|]]]; auto 20 with inv.
Qed.

Lemma inv_globals_relay_response (g : Store) clientId response :
  inv (fun s : state Store => globals s = g) (relay_response rev clientId response).
Proof. unfold relay_response. auto 20 with inv. Qed.

Lemma inv_globals_forward (g : Store) apiKey clientId :
  inv (fun s : state Store => globals s = g) (forward rev upstream apiKey clientId req).
Proof.
  unfold forward. pose proof (inv_globals_relay_response g clientId). auto 20 with inv.
Qed.

(** X11. The rate limiter is charged for every POST before anything else
    is looked at: after the run the store is the one [checkRateLimit] left,
    whether the request was then rejected, forwarded or failed; a request
    with any other method leaves the store as it was. *)
Theorem handler_charges_every_post (store : Store) :
  (method req = "POST" ->
   globals_after run_handler (start store) = charged env now req store)
  /\ (method req <> "POST" -> globals_after run_handler (start store) = store).
Proof.
  split.
  - intros Hm. unfold globals_after, handler, start, charged.
    do 3 (erewrite step_bind; [|reflexivity]). rewrite Hm.
    change (String.eqb "POST" "OPTIONS") with false.
    change (String.eqb "POST" "POST") with true. cbv iota zeta. cbn [negb].
    match goal with
    | |- globals (try_catch ?m ?h ?s).2 = ?g =>
        apply (inv_caught (fun st : state Store => globals st = g) m h s)
    end.
    { intros t. apply inv_globals_handleProxyError. }
    destruct (verbose rev) eqn:Hverb; cbn [when];
      (erewrite step_bind; [|reflexivity]);
      (erewrite step_bind; [|apply run_rate_limit]);
      cbn [res globals trace];
      match goal with
      | |- globals (?m ?s).2 = ?g =>
          assert (Hinv : inv (fun st : state Store => globals st = g) m);
          [ pose proof (inv_globals_forward g); rewrite ?Hverb; auto 30 with inv
          | apply Hinv; reflexivity ]
      end.
  - intros Hm. destruct (String.eqb_spec (method req) "OPTIONS") as [Hopt|Hopt].
    + now apply (handler_options coerce rev env now upstream req store).
    + now apply (handler_method_not_allowed coerce rev env now upstream req store).
Qed.

Lemma forwardable_body store apiKey :
  forwardable coerce rev env now req store apiKey -> nullish (body req) = false.
Proof.
  intros (_ & _ & (v & Hv & _) & _).
  destruct (nullish (body req)) eqn:Hn; [|reflexivity].
  rewrite validateClaudeRequest_nullish in Hv by assumption. discriminate.
Qed.

Lemma handler_reaches_forward store apiKey :
  forwardable coerce rev env now req store apiKey ->
  run_handler (start store)
  = try_catch (forward rev upstream apiKey (clientId_of req) req) (handleProxyError rev)
      (forwarding_state rev env now req store).
Proof.
  intros (Hm & Ha & (v & Hv & Hvalid) & Hkey & Hne).
  apply nonempty_true in Hne.
  unfold handler, start, forwarding_state, incoming_log, charged, cors_response.
  rewrite Hm.
  change (String.eqb "POST" "OPTIONS") with false.
  change (String.eqb "POST" "POST") with true.
  destruct (verbose rev) eqn:Hverb; exec; rewrite Ha; exec; rewrite Hv; exec;
    rewrite Hvalid; exec; rewrite Hkey, Hne; reflexivity.
Qed.

Lemma forward_run apiKey clientId (s : state Store) :
  nullish (body req) = false ->
  forward rev upstream apiKey clientId req s
  = match upstream apiKey (body req) with
    | Normal response =>
        relay_response rev clientId response
          (State (res s) (globals s)
             (trace s ++ forward_log rev clientId req ++ [the_post rev apiKey req]))
    | Abrupt t =>
        (Abrupt t,
         State (res s) (globals s)
           (trace s ++ forward_log rev clientId req ++ [the_post rev apiKey req]))
    end.
Proof.
  intros Hbody. destruct s as [r g t]. unfold forward, forward_log, the_post.
  destruct (verbose rev) eqn:Hverb; exec; rewrite ?(get_defined _ _ Hbody); exec;
    destruct (upstream apiKey (body req)) as [response|e]; exec;
    cbn [app]; rewrite <- ?app_assoc; reflexivity.
Qed.

Lemma relay_response_run clientId response (s : state Store) :
  verbose rev = false \/ nullish (resp_data response) = false ->
  outcome (relay_response rev clientId response) s = Normal tt
  /\ response_after (relay_response rev clientId response) s
     = send_json (resp_data response)
         (set_status 200
            (copy_header "anthropic-ratelimit-requests-reset" "X-RateLimit-Reset" response
               (copy_header "anthropic-ratelimit-requests-remaining" "X-RateLimit-Remaining"
                  response (res s)))).
Proof.
  intros Hd. destruct s as [r g t].
  unfold outcome, response_after, relay_response, copy_header.
  destruct (verbose rev) eqn:Hverb.
  - destruct Hd as [Hd | Hd]; [discriminate|].
    exec. rewrite !(get_defined _ _ Hd). exec.
    destruct (resp_headers response !! "anthropic-ratelimit-requests-remaining") as [h1|];
      [destruct (nonempty h1)|];
      (destruct (resp_headers response !! "anthropic-ratelimit-requests-reset") as [h2|];
       [destruct (nonempty h2)|]); exec; now split.
  - exec.
    destruct (resp_headers response !! "anthropic-ratelimit-requests-remaining") as [h1|];
      [destruct (nonempty h1)|];
      (destruct (resp_headers response !! "anthropic-ratelimit-requests-reset") as [h2|];
       [destruct (nonempty h2)|]); exec; now split.
Qed.

Lemma relay_response_throws clientId response (s : state Store) :
  verbose rev = true -> nullish (resp_data response) = true ->
  relay_response rev clientId response s
  = (Abrupt (ThrownError (type_error (resp_data response) "model")), s).
Proof.
  intros Hverb Hd. destruct s as [r g t]. unfold relay_response. rewrite Hverb.
  exec. rewrite (get_nullish _ "model" Hd). now exec.
Qed.

(** X12. A preflight is answered before anything else happens: status
    200 with no body and the CORS headers, whatever body and credential
    there are; the rate limiter is not charged, nothing is logged and the
    provider is not called. *)
Theorem handler_preflight (store : Store) :
  method req = "OPTIONS" ->
  run_handler (start store)
  = (Normal tt, State (send_end (set_status 200 cors_response)) store []).
Proof.
  intros Hm. unfold handler, start, cors_response. rewrite Hm.
  change (String.eqb "OPTIONS" "OPTIONS") with true. now exec.
Qed.

(** X13. When the four checks pass and the provider answers, the handler
    answers 200 with the provider's body unchanged, copies the provider's
    two rate-limit headers that are present and not empty to
    [X-RateLimit-Remaining] and [X-RateLimit-Reset], and has called the
    provider exactly once.  (In the logging revision the provider's body
    must not be [null] or [undefined].) *)
Theorem handler_relays_the_answer (store : Store) apiKey response :
  forwardable coerce rev env now req store apiKey ->
  upstream apiKey (body req) = Normal response ->
  verbose rev = false \/ nullish (resp_data response) = false ->
  outcome run_handler (start store) = Normal tt
  /\ response_after run_handler (start store) = relayed response
  /\ outbound (trace_after run_handler (start store)) = [the_post rev apiKey req].
Proof.
  intros Hreq Hup Hd. pose proof (forwardable_body store apiKey Hreq) as Hbody.
  unfold outcome, response_after, trace_after.
  rewrite (handler_reaches_forward store apiKey Hreq).
  unfold try_catch. rewrite (forward_run _ _ _ Hbody), Hup.
  match goal with
  | |- context [relay_response rev ?c ?r ?s] =>
      destruct (relay_response_run c r s Hd) as [Hout Hres];
      pose proof (quiet_relay_response rev c r s) as Hq;
      unfold outcome, response_after in Hout, Hres;
      destruct (relay_response rev c r s) as [[u|t] s']
  end; cbn [fst snd] in *; [|discriminate].
  destruct u. split; [reflexivity|]. split; [exact Hres|].
  rewrite Hq. cbn [trace forwarding_state]. unfold incoming_log, forward_log, the_post.
  destruct (verbose rev); reflexivity.
Qed.

Lemma handler_failure_run (store : Store) apiKey t :
  forwardable coerce rev env now req store apiKey ->
  upstream apiKey (body req) = Abrupt t ->
  exists s,
    run_handler (start store) = handleProxyError rev t s
    /\ res s = cors_response
    /\ globals s = charged env now req store
    /\ outbound (trace s) = [the_post rev apiKey req].
Proof.
  intros Hreq Hup. pose proof (forwardable_body store apiKey Hreq) as Hbody.
  rewrite (handler_reaches_forward store apiKey Hreq).
  unfold try_catch. rewrite (forward_run _ _ _ Hbody), Hup.
  eexists. split; [reflexivity|]. cbn [res globals trace forwarding_state].
  repeat split. unfold incoming_log, forward_log, the_post.
  destruct (verbose rev); reflexivity.
Qed.

(** X14. When the four checks pass and the provider call fails, the
    handler's answer is the normalizer's: the run is that of
    [handleProxyError] on the thrown error, from a state whose response
    holds the CORS headers only, whose store is charged and whose trace
    holds the one provider call. *)
Theorem handler_normalizes_the_failure (store : Store) apiKey t :
  forwardable coerce rev env now req store apiKey ->
  upstream apiKey (body req) = Abrupt t ->
  exists s,
    run_handler (start store) = handleProxyError rev t s
    /\ res s = cors_response
    /\ globals s = charged env now req store
    /\ outbound (trace s) = [the_post rev apiKey req].
Proof. apply handler_failure_run. Qed.

Lemma handleProxyError_sends error (s : state Store) :
  reads_missing_body rev error = false ->
  outcome (handleProxyError rev error) s = Normal tt
  /\ is_Some (sent (response_after (handleProxyError rev error) s)).
Proof.
  intros Hread.
  destruct error as [e | [e code [[st hdrs data]|]]].
  - unfold outcome, response_after. rewrite handleProxyError_unexpected. now split.
  - cbn [reads_missing_body resp_data resp_status] in Hread.
    unfold outcome, response_after.
    change (ThrownAxios (AxiosError e code (Some (AxiosResponse st hdrs data))))
      with (upstream_failure e code st hdrs data).
    destruct (Z.eqb_spec st 401) as [-> | H401].
    { rewrite (handleProxyError_auth rev e code 401 hdrs data s) by
        (try (now left); destruct (verbose rev), (nullish data); auto; discriminate).
      now split. }
    destruct (Z.eqb_spec st 403) as [-> | H403].
    { rewrite (handleProxyError_auth rev e code 403 hdrs data s) by
        (try (now right); destruct (verbose rev), (nullish data); auto; discriminate).
      now split. }
    destruct (Z.eqb_spec st 529) as [-> | H529].
    { rewrite (handleProxyError_529 rev e code hdrs data s) by
        (destruct (verbose rev), (nullish data); auto; discriminate).
      now split. }
    assert (Hd : nullish data = false).
    { destruct (nullish data); [|reflexivity]. cbn [andb] in Hread.
      now destruct (verbose rev). }
    destruct (Z.eqb_spec st 429) as [-> | H429].
    { rewrite (handleProxyError_429 rev e code hdrs data s) by assumption. now split. }
    destruct (Z.eqb_spec st 400) as [-> | H400].
    { rewrite (handleProxyError_bad_request rev) by assumption. now split. }
    rewrite (handleProxyError_other rev) by assumption. now split.
  - unfold outcome, response_after, handleProxyError. destruct s as [r g t].
    destruct (bool_decide (code = Some "ECONNABORTED")); [run; now split|].
    destruct (bool_decide (code = Some "ECONNREFUSED") || bool_decide (code = Some "ENOTFOUND"));
      run; now split.
Qed.




(** X15. Every request gets an answer unless the provider fails with a
    body the normalizer cannot read: when no error the provider call can
    throw makes [handleProxyError] read a missing body, the handler
    completes without an exception and has sent a response; when the four
    checks pass and the provider call throws such an error, the
    [TypeError] leaves the handler and nothing has been sent. *)
Theorem handler_answers_unless_body_missing (store : Store) :
  ((forall apiKey t,
       upstream apiKey (body req) = Abrupt t -> reads_missing_body rev t = false) ->
   outcome run_handler (start store) = Normal tt
   /\ is_Some (sent (response_after run_handler (start store))))
  /\ (forall apiKey t,
        forwardable coerce rev env now req store apiKey ->
        upstream apiKey (body req) = Abrupt t ->
        reads_missing_body rev t = true ->
        outcome run_handler (start store)
        = Abrupt (ThrownError (type_error (upstream_body t) "error"))
        /\ sent (response_after run_handler (start store)) = None).
Proof.
  split.
  - intros Hup.
    assert (Hrej : forall code body,
               rejected run_handler (start store) code body ->
               outcome run_handler (start store) = Normal tt
               /\ is_Some (sent (response_after run_handler (start store)))).
    { intros code body (H1 & _ & H3 & _). rewrite H3. now split. }
    destruct (String.eqb_spec (method req) "OPTIONS") as [Hopt|Hopt].
    { unfold outcome, response_after. rewrite (handler_preflight store Hopt). now split. }
    destruct (String.eqb_spec (method req) "POST") as [Hm|Hm].
    2: { eapply Hrej. now apply (handler_method_not_allowed coerce rev env now upstream req store). }
    destruct (admits env now req store) eqn:Ha.
    2: { eapply Hrej. now apply (handler_rate_limited coerce rev env now upstream req store). }
    destruct (validateClaudeRequest coerce rev (body req)) as [v|t] eqn:Hv.
    2: { destruct (validateClaudeRequest_throws_error _ _ _ _ Hv) as [e ->].
         eapply Hrej.
         now apply (handler_validation_throws coerce rev env now upstream req store e). }
    destruct (valid v) eqn:Hvalid.
    2: { eapply Hrej. now apply (handler_invalid coerce rev env now upstream req store v). }
    destruct (ANTHROPIC_API_KEY env) as [apiKey|] eqn:Hkey.
    2: { eapply Hrej.
         apply (handler_not_configured coerce rev env now upstream req store v); auto.
         now left. }
    destruct (String.eqb_spec apiKey "") as [->|Hne].
    { eapply Hrej.
      apply (handler_not_configured coerce rev env now upstream req store v); auto.
      now right. }
    assert (Hreq : forwardable coerce rev env now req store apiKey).
    { unfold forwardable. unfold admits in Ha. eauto 10. }
    pose proof (forwardable_body store apiKey Hreq) as Hbody.
    unfold outcome, response_after.
    rewrite (handler_reaches_forward store apiKey Hreq).
    unfold try_catch. rewrite (forward_run _ _ _ Hbody).
    destruct (upstream apiKey (body req)) as [response|t] eqn:Hres.
    + destruct (verbose rev) eqn:Hverb; [destruct (nullish (resp_data response)) eqn:Hd|].
      * rewrite relay_response_throws by assumption.
        rewrite handleProxyError_unexpected. now split.
      * match goal with
        | |- context [relay_response rev ?c ?r ?s] =>
            destruct (relay_response_run c r s (or_intror Hd)) as [Hout Hrs];
            unfold outcome, response_after in Hout, Hrs;
            destruct (relay_response rev c r s) as [[u|t] s']
        end; cbn [fst snd] in *; [|discriminate].
        destruct u. rewrite Hrs. now split.
      * match goal with
        | |- context [relay_response rev ?c ?r ?s] =>
            destruct (relay_response_run c r s (or_introl Hverb)) as [Hout Hrs];
            unfold outcome, response_after in Hout, Hrs;
            destruct (relay_response rev c r s) as [[u|t] s']
        end; cbn [fst snd] in *; [|discriminate].
        destruct u. rewrite Hrs. now split.
    + apply (handleProxyError_sends t). now apply (Hup apiKey).
  - intros apiKey t Hreq Hup Hread.
    destruct (handler_failure_run store apiKey t Hreq Hup) as (s & Hrun & Hres & _).
    unfold outcome, response_after. rewrite Hrun.
    destruct (handleProxyError_escapes rev t s Hread) as [Hout Hsent].
    unfold outcome, response_after in Hout, Hsent. rewrite Hout, Hsent, Hres.
    now split.
Qed.

End HandlerMore.

Section HandlerMoreCases.

Import ClaudeProxy Rules Coverage3.

Lemma example_forwardable (upstream : provider) :
  forwardable no_coercion revision_1 example_env 0 example_request ∅ "sk-ant-api03-example".
Proof.
  unfold forwardable. split; [reflexivity|]. split; [reflexivity|].
  split; [exists ok; split; reflexivity|]. split; [reflexivity|discriminate].
Qed.

(** A body the validator rejects still costs the client one call. *)
Lemma handler_charges_every_post_witness :
  globals_after
    (handler no_coercion revision_1 example_env 0 answering
       (Request "POST" (Some "203.0.113.7") None (VObj [])))
    (start ∅)
  = charged example_env 0 (Request "POST" (Some "203.0.113.7") None (VObj [])) ∅.
Proof.
  apply (proj1 (handler_charges_every_post no_coercion revision_1 example_env 0 answering
                  (Request "POST" (Some "203.0.113.7") None (VObj [])) ∅)).
  reflexivity.
Defined.

Lemma handler_preflight_witness :
  handler no_coercion revision_2 (Environment None default_limits) 0 answering
    (Request "OPTIONS" None None VUndefined) (start ∅)
  = (Normal tt, State (send_end (set_status 200 cors_response)) ∅ []).
Proof.
  apply (handler_preflight no_coercion revision_2 (Environment None default_limits) 0 answering
           (Request "OPTIONS" None None VUndefined) ∅).
  reflexivity.
Defined.

Lemma handler_relays_the_answer_witness :
  outcome (handler no_coercion revision_1 example_env 0 answering example_request) (start ∅)
  = Normal tt
  /\ response_after (handler no_coercion revision_1 example_env 0 answering example_request)
       (start ∅)
     = relayed (AxiosResponse 200 ∅
                  (VObj [("type", VStr "message"); ("role", VStr "assistant");
                         ("content", VArr [VObj [("type", VStr "text"); ("text", VStr "Hello")]])]))
  /\ outbound
       (trace_after (handler no_coercion revision_1 example_env 0 answering example_request)
          (start ∅))
     = [the_post revision_1 "sk-ant-api03-example" example_request].
Proof.
  apply (handler_relays_the_answer no_coercion revision_1 example_env 0 answering
           example_request ∅ "sk-ant-api03-example").
  - apply (example_forwardable answering).
  - reflexivity.
  - now left.
Defined.

Lemma handler_normalizes_the_failure_witness :
  exists s,
    handler no_coercion revision_1 example_env 0 overloaded example_request (start ∅)
    = handleProxyError revision_1
        (upstream_failure request_failed (Some "ERR_BAD_RESPONSE") 529 ∅
           (provider_error "overloaded_error" "Overloaded")) s
    /\ res s = cors_response
    /\ globals s = charged example_env 0 example_request ∅
    /\ outbound (trace s) = [the_post revision_1 "sk-ant-api03-example" example_request].
Proof.
  apply (handler_normalizes_the_failure no_coercion revision_1 example_env 0 overloaded
           example_request ∅ "sk-ant-api03-example").
  - apply (example_forwardable overloaded).
  - reflexivity.
Defined.

Lemma handler_answers_unless_body_missing_witness :
  outcome (handler no_coercion revision_1 example_env 0 overloaded example_request) (start ∅)
  = Normal tt
  /\ is_Some
       (sent (response_after
                (handler no_coercion revision_1 example_env 0 overloaded example_request)
                (start ∅))).
Proof.
  apply (proj1 (handler_answers_unless_body_missing no_coercion revision_1 example_env 0
                  overloaded example_request ∅)).
  intros apiKey t [= <-]. reflexivity.
Defined.

End HandlerMoreCases.

(** ** The streaming handler: order of checks, failures and headers *)

Section StreamingMore.

Import Rules Coverage3 Coverage8.
Import ClaudeStreamV2.

Context (key : option string) (streamText : sdk) (req : request).

Local Abbreviation run_handler := (handler key streamText req).

Lemma relayed_headersSent chunks r :
  headersSent (fold_left (fun r chunk => send_chunk (sse chunk) r) chunks r)
  = match chunks with [] => headersSent r | _ => true end.
Proof.
  revert r. induction chunks as [|chunk rest IH]; intros r; [reflexivity|].
  cbn [fold_left]. rewrite IH. now destruct rest.
Qed.

Ltac enter_stream' :=
  unfold caught_early, starting_log, rejected, outcome, response_after, trace_after,
    globals_after, streamable, stream_result, stream_call, mapped_model, handler, start in *.

Ltac post_stream' Hm Hbody Hmodel Hmsgs :=
  enter_stream'; rewrite Hm;
  change (String.eqb "POST" "OPTIONS") with false;
  change (String.eqb "POST" "POST") with true;
  rewrite !(destructure_defined _ _ _ _ Hbody); cbn [fmap completion_fmap]; exec;
  rewrite Hmodel, Hmsgs; exec.

Lemma handler_stream_preflight :
  method req = "OPTIONS" ->
  run_handler (start tt)
  = (Normal tt,
     State (send_end (set_status 204
              (set_header "Access-Control-Allow-Headers" "Content-Type"
                 (set_header "Access-Control-Allow-Methods" "POST, OPTIONS"
                    (set_header "Access-Control-Allow-Origin" "*" fresh_response)))))
       tt []).
Proof.
  intros Hm. unfold handler, start. rewrite Hm.
  change (String.eqb "OPTIONS" "OPTIONS") with true. now exec.
Qed.

Lemma handler_stream_method :
  method req <> "OPTIONS" -> method req <> "POST" ->
  rejected run_handler (start tt) 405 (VObj [("error", VStr "Method not allowed")])
  /\ trace_after run_handler (start tt) = [].
Proof.
  intros Hopt Hpost. apply String.eqb_neq in Hopt, Hpost. enter_stream'.
  rewrite Hopt, Hpost. exec. now repeat split.
Qed.

Lemma handler_stream_missing_fields :
  method req = "POST" -> nullish (body req) = false ->
  truthy (own (body req) "model") = false \/ truthy (own (body req) "messages") = false ->
  rejected run_handler (start tt) 400
    (VObj [("error", VStr "Missing required fields: model, messages")])
  /\ trace_after run_handler (start tt) = [].
Proof.
  intros Hm Hbody Hmissing. enter_stream'. rewrite Hm.
  change (String.eqb "POST" "OPTIONS") with false.
  change (String.eqb "POST" "POST") with true.
  rewrite !(destructure_defined _ _ _ _ Hbody). cbn [fmap completion_fmap]. exec.
  destruct Hmissing as [-> | ->]; [|rewrite orb_true_r]; exec; now repeat split.
Qed.

(** A [null] or [undefined] body makes the destructuring throw; the
    [catch] block answers 500. *)
Lemma handler_stream_no_body :
  method req = "POST" -> nullish (body req) = true ->
  caught_early key streamText req (ThrownError (destructure_error "req.body" (body req) "model")).
Proof.
  intros Hm Hbody. enter_stream'. rewrite Hm.
  change (String.eqb "POST" "OPTIONS") with false.
  change (String.eqb "POST" "POST") with true.
  rewrite (destructure_nullish _ _ _ "model" Hbody). exec. now repeat split.
Qed.

Lemma handler_stream_unmapped t :
  streamable req -> mappedModel (own (body req) "model") = Abrupt t ->
  caught_early key streamText req t.
Proof.
  intros (Hm & Hbody & Hmodel & Hmsgs) Hmap. post_stream' Hm Hbody Hmodel Hmsgs.
  rewrite Hmap. exec. cbn [set_header headersSent fresh_response]. exec. now repeat split.
Qed.

Lemma handler_stream_key_rejected :
  streamable req -> convertible (own (body req) "model") -> key_ok key = false ->
  rejected run_handler (start tt) 500 (VObj [("error", VStr "ANTHROPIC_API_KEY not configured")])
  /\ trace_after run_handler (start tt) = [].
Proof.
  intros (Hm & Hbody & Hmodel & Hmsgs) Hconv Hkey. post_stream' Hm Hbody Hmodel Hmsgs.
  destruct (lookup_or_convertible modelMap _ Hconv) as (m & Hmap).
  unfold mappedModel. rewrite Hmap, Hkey. exec. now repeat split.
Qed.

Lemma handler_stream_completes fs m :
  streamable req -> key_ok key = true ->
  mappedModel (own (body req) "model") = Normal m ->
  streamText m (own (body req) "messages") (default_to (VNum 4096) (own (body req) "maxTokens"))
  = Normal (TextStream fs Completed) ->
  outcome run_handler (start tt) = Normal tt
  /\ written (response_after run_handler (start tt)) = map sse fs ++ [sse "[DONE]"]
  /\ statusCode (response_after run_handler (start tt)) = 200
  /\ sent (response_after run_handler (start tt)) = Some NoBody
  /\ trace_after run_handler (start tt) = [starting_log req; stream_call req].
Proof.
  intros (Hm & Hbody & Hmodel & Hmsgs) Hkey Hmap Hstream.
  post_stream' Hm Hbody Hmodel Hmsgs. rewrite Hmap, Hkey. exec. rewrite Hstream. exec.
  rewrite relay_run. exec. cbn [fst snd res trace fragments finish]. exec.
  cbn [fst snd res trace send_end send_chunk written statusCode headers sent].
  rewrite written_relayed.
  match goal with
  | |- context [fold_left ?f fs ?r] =>
      destruct (relayed_status fs r) as (-> & _ & ->)
  end.
  repeat split.
Qed.

Lemma handler_stream_call_throws t m :
  streamable req -> key_ok key = true ->
  mappedModel (own (body req) "model") = Normal m ->
  streamText m (own (body req) "messages") (default_to (VNum 4096) (own (body req) "maxTokens"))
  = Abrupt t ->
  outcome run_handler (start tt) = Normal tt
  /\ written (response_after run_handler (start tt)) = []
  /\ statusCode (response_after run_handler (start tt)) = 500
  /\ sent (response_after run_handler (start tt)) = Some (Json (echoed t))
  /\ trace_after run_handler (start tt)
     = [starting_log req; stream_call req; LogThrown ERROR "[STREAM-V2] Error:" t].
Proof.
  intros (Hm & Hbody & Hmodel & Hmsgs) Hkey Hmap Hstream.
  post_stream' Hm Hbody Hmodel Hmsgs. rewrite Hmap, Hkey. exec. rewrite Hstream. exec.
  cbn [set_header headersSent fresh_response]. exec. now repeat split.
Qed.

Lemma handler_stream_breaks_after fs e m :
  streamable req -> key_ok key = true ->
  mappedModel (own (body req) "model") = Normal m ->
  streamText m (own (body req) "messages") (default_to (VNum 4096) (own (body req) "maxTokens"))
  = Normal (TextStream fs (Failed e)) ->
  outcome run_handler (start tt) = Normal tt
  /\ written (response_after run_handler (start tt)) = map sse fs
  /\ (fs <> [] ->
      statusCode (response_after run_handler (start tt)) = 200
      /\ sent (response_after run_handler (start tt)) = Some NoBody)
  /\ (fs = [] ->
      statusCode (response_after run_handler (start tt)) = 500
      /\ sent (response_after run_handler (start tt)) = Some (Json (echoed (ThrownError e))))
  /\ trace_after run_handler (start tt)
     = [starting_log req; stream_call req; LogThrown ERROR "[STREAM-V2] Error:" (ThrownError e)].
Proof.
  intros (Hm & Hbody & Hmodel & Hmsgs) Hkey Hmap Hstream.
  post_stream' Hm Hbody Hmodel Hmsgs. rewrite Hmap, Hkey. exec. rewrite Hstream. exec.
  rewrite relay_run. exec. cbn [fst snd res trace fragments finish]. exec.
  rewrite relayed_headersSent.
  destruct fs as [|f fs].
  - cbn. repeat split; intros; congruence.
  - exec. cbn [fst snd res trace send_end send_json set_status written statusCode sent].
    rewrite written_relayed.
    match goal with
    | |- context [fold_left ?f ?l ?r] => destruct (relayed_status l r) as (-> & _ & ->)
    end.
    cbn. repeat split; intros; congruence.
Qed.

Lemma handler_stream_breaks fs e :
  streamable req -> key_ok key = true ->
  stream_result streamText req = Normal (TextStream fs (Failed e)) ->
  outcome run_handler (start tt) = Normal tt
  /\ written (response_after run_handler (start tt)) = map sse fs
  /\ (fs <> [] ->
      statusCode (response_after run_handler (start tt)) = 200
      /\ sent (response_after run_handler (start tt)) = Some NoBody)
  /\ (fs = [] ->
      statusCode (response_after run_handler (start tt)) = 500
      /\ sent (response_after run_handler (start tt)) = Some (Json (echoed (ThrownError e))))
  /\ outbound (trace_after run_handler (start tt)) = [stream_call req].
Proof.
  intros Hs Hkey Hstream. unfold stream_result in Hstream.
  destruct (mappedModel (own (body req) "model")) as [m|t] eqn:Hmap; [|discriminate].
  cbn [mbind completion_bind] in Hstream.
  destruct (handler_stream_breaks_after fs e m Hs Hkey Hmap Hstream) as (H1 & H2 & H3 & H4 & H5).
  rewrite H5. split; [exact H1|]. split; [exact H2|]. split; [exact H3|].
  split; [exact H4|reflexivity].
Qed.

(** How a request fares, exhaustively. *)
Lemma handler_stream_cases :
  method req = "OPTIONS"
  \/ (method req <> "OPTIONS" /\ method req <> "POST")
  \/ (method req = "POST" /\ nullish (body req) = true)
  \/ (method req = "POST" /\ nullish (body req) = false
      /\ (truthy (own (body req) "model") = false \/ truthy (own (body req) "messages") = false))
  \/ (streamable req /\ exists t, mappedModel (own (body req) "model") = Abrupt t)
  \/ (streamable req /\ convertible (own (body req) "model") /\ key_ok key = false)
  \/ (streamable req /\ key_ok key = true
      /\ exists m,
          mappedModel (own (body req) "model") = Normal m
          /\ ((exists fs, streamText m (own (body req) "messages")
                            (default_to (VNum 4096) (own (body req) "maxTokens"))
                          = Normal (TextStream fs Completed))
              \/ (exists fs e, streamText m (own (body req) "messages")
                                 (default_to (VNum 4096) (own (body req) "maxTokens"))
                               = Normal (TextStream fs (Failed e)))
              \/ (exists t, streamText m (own (body req) "messages")
                              (default_to (VNum 4096) (own (body req) "maxTokens"))
                            = Abrupt t))).
Proof.
  destruct (String.eqb_spec (method req) "OPTIONS") as [Hopt|Hopt]; [now left|right].
  destruct (String.eqb_spec (method req) "POST") as [Hpost|Hpost]; [right|now left].
  destruct (nullish (body req)) eqn:Hbody; [now left|right].
  destruct (truthy (own (body req) "model")) eqn:Hmodel; [|left; auto].
  destruct (truthy (own (body req) "messages")) eqn:Hmsgs; [right|left; auto].
  assert (Hs : streamable req) by now repeat split.
  destruct (mappedModel (own (body req) "model")) as [m|t] eqn:Hmap; [right|left; eauto].
  assert (Hconv : convertible (own (body req) "model")).
  { unfold mappedModel, lookup_or in Hmap.
    destruct (to_key (own (body req) "model")) as [k|t] eqn:Hk; [|discriminate].
    now exists k. }
  destruct (key_ok key) eqn:Hkey; [right|now left].
  split; [exact Hs|]. split; [reflexivity|]. exists m. split; [reflexivity|].
  destruct (streamText m _ _) as [[fs [|e]]|t]; eauto.
Qed.


Lemma inv_cors_relay chunks :
  inv (fun s : state unit => has_cors "Content-Type" (res s)) (relay chunks).
Proof. induction chunks; cbn [relay]; auto 20 with inv. Qed.

(** X16. The streaming handler checks in a fixed order and stops at the
    first failure: OPTIONS is answered 204 with an empty body; any other
    method than POST 405; a POST whose body lacks a (truthy) model or
    messages 400, whatever the credential is; and streamText is called at
    most once, and only for a POST with both fields and a credential that
    starts with sk-ant-. *)
Theorem stream_handler_checks_in_order :
  (method req = "OPTIONS" ->
   outcome run_handler (start tt) = Normal tt
   /\ statusCode (response_after run_handler (start tt)) = 204
   /\ sent (response_after run_handler (start tt)) = Some NoBody
   /\ trace_after run_handler (start tt) = [])
  /\ (method req <> "OPTIONS" -> method req <> "POST" ->
      rejected run_handler (start tt) 405 (VObj [("error", VStr "Method not allowed")])
      /\ trace_after run_handler (start tt) = [])
  /\ (method req = "POST" -> nullish (body req) = false ->
      truthy (own (body req) "model") = false \/ truthy (own (body req) "messages") = false ->
      rejected run_handler (start tt) 400
        (VObj [("error", VStr "Missing required fields: model, messages")]))
  /\ (outbound (trace_after run_handler (start tt)) = []
      \/ streamable req /\ key_ok key = true
         /\ outbound (trace_after run_handler (start tt)) = [stream_call req]).
Proof.
  split; [|split; [|split]].
  - intros Hm. unfold outcome, response_after, trace_after.
    rewrite (handler_stream_preflight Hm). now repeat split.
  - apply handler_stream_method.
  - intros Hm Hbody Hmissing. now apply handler_stream_missing_fields.
  - destruct handler_stream_cases
      as [Hm | [(Hopt & Hpost) | [(Hm & Hn) | [(Hm & Hn & Hmissing) | [(Hs & t & Hmap)
          | [(Hs & Hconv & Hkey) | (Hs & Hkey & m & Hmap & Hcase)]]]]]].
    + left. unfold trace_after. now rewrite (handler_stream_preflight Hm).
    + left. now apply handler_stream_method.
    + left. now apply (handler_stream_no_body Hm Hn).
    + left. now apply handler_stream_missing_fields.
    + left. now apply (handler_stream_unmapped t Hs Hmap).
    + left. now apply handler_stream_key_rejected.
    + right. split; [exact Hs|]. split; [exact Hkey|].
      destruct Hcase as [(fs & Hrun) | [(fs & e & Hrun) | (t & Hrun)]].
      * destruct (handler_stream_completes fs m Hs Hkey Hmap Hrun) as (_ & _ & _ & _ & ->).
        reflexivity.
      * destruct (handler_stream_breaks_after fs e m Hs Hkey Hmap Hrun) as (_ & _ & _ & _ & ->).
        reflexivity.
      * destruct (handler_stream_call_throws t m Hs Hkey Hmap Hrun) as (_ & _ & _ & _ & ->).
        reflexivity.
Qed.

(** X17. A stream that throws after its fragments [fs]: the handler writes
    one SSE event for each fragment and no [DONE] event.  When at least one
    event was written the response is ended as it is, with status 200 and no
    error body; with no fragment written the exception is answered 500 with
    its own message. *)
Theorem stream_handler_broken_stream fs e :
  streamable req -> key_ok key = true ->
  stream_result streamText req = Normal (TextStream fs (Failed e)) ->
  outcome run_handler (start tt) = Normal tt
  /\ written (response_after run_handler (start tt)) = map sse fs
  /\ (fs <> [] ->
      statusCode (response_after run_handler (start tt)) = 200
      /\ sent (response_after run_handler (start tt)) = Some NoBody)
  /\ (fs = [] ->
      statusCode (response_after run_handler (start tt)) = 500
      /\ sent (response_after run_handler (start tt)) = Some (Json (echoed (ThrownError e))))
  /\ outbound (trace_after run_handler (start tt)) = [stream_call req].
Proof. apply handler_stream_breaks. Qed.

(** X18. The streaming handler never lets an exception escape and always
    finishes its response (a JSON body or [res.end()]), whatever the
    request, the credential and the SDK do; and every response carries the
    three CORS headers. *)
Theorem stream_handler_always_answers :
  outcome run_handler (start tt) = Normal tt
  /\ sent (response_after run_handler (start tt)) <> None
  /\ has_cors "Content-Type" (response_after run_handler (start tt)).
Proof.
  assert (Hcors : has_cors "Content-Type" (response_after run_handler (start tt))).
  { unfold response_after, handler, start.
    do 3 (erewrite step_bind; [|reflexivity]).
    match goal with
    | |- has_cors ?al (res (?m ?s).2) =>
        change ((fun st : state unit => has_cors al (res st)) (m s).2);
        assert (Hinv : inv (fun st : state unit => has_cors al (res st)) m)
    end.
    { pose proof inv_cors_relay.
      assert (forall result : text_stream,
                 inv (fun st : state unit => has_cors "Content-Type" (res st))
                   (match finish result with
                    | Completed => write ("data: [DONE]" +:+ LF +:+ LF);; end_
                    | Failed e => lift (Abrupt (ThrownError e))
                    end)).
      { intros [fs [|e]]; cbn [finish]; auto 20 with inv. }
      auto 40 with inv. }
    apply Hinv. repeat split. }
  enough (outcome run_handler (start tt) = Normal tt
          /\ sent (response_after run_handler (start tt)) <> None) by tauto.
  clear Hcors.
  destruct handler_stream_cases
    as [Hm | [(Hopt & Hpost) | [(Hm & Hn) | [(Hm & Hn & Hmissing) | [(Hs & t & Hmap)
        | [(Hs & Hconv & Hkey) | (Hs & Hkey & m & Hmap & Hcase)]]]]]].
  - unfold outcome, response_after. now rewrite (handler_stream_preflight Hm).
  - destruct (handler_stream_method Hopt Hpost) as ((-> & _ & -> & _) & _). now split.
  - destruct (handler_stream_no_body Hm Hn) as ((-> & _ & -> & _) & _). now split.
  - destruct (handler_stream_missing_fields Hm Hn Hmissing) as ((-> & _ & -> & _) & _). now split.
  - destruct (handler_stream_unmapped t Hs Hmap) as ((-> & _ & -> & _) & _). now split.
  - destruct (handler_stream_key_rejected Hs Hconv Hkey) as ((-> & _ & -> & _) & _). now split.
  - destruct Hcase as [(fs & Hrun) | [(fs & e & Hrun) | (t & Hrun)]].
    + destruct (handler_stream_completes fs m Hs Hkey Hmap Hrun) as (-> & _ & _ & -> & _).
      now split.
    + destruct (handler_stream_breaks_after fs e m Hs Hkey Hmap Hrun)
        as (-> & _ & Hsome & Hnone & _).
      split; [reflexivity|]. destruct fs as [|f fs].
      * destruct Hnone as (_ & ->); [reflexivity|discriminate].
      * destruct Hsome as (_ & ->); [discriminate|discriminate].
    + destruct (handler_stream_call_throws t m Hs Hkey Hmap Hrun) as (-> & _ & _ & -> & _).
      now split.
Qed.

End StreamingMore.

Section StreamingMoreCases.

Import Rules Coverage3 Coverage4.
Import ClaudeStreamV2.

Lemma stream_handler_broken_stream_witness :
  written (response_after (handler (Some "sk-ant-api03-example")
                             (breaking ["He"; "llo"] timed_out) stream_request) (start tt))
  = ["data: He" +:+ LF +:+ LF; "data: llo" +:+ LF +:+ LF]
  /\ sent (response_after (handler (Some "sk-ant-api03-example")
                             (breaking ["He"; "llo"] timed_out) stream_request) (start tt))
     = Some NoBody.
Proof.
  assert (Hs : streamable stream_request) by now repeat split.
  pose proof (stream_handler_broken_stream (Some "sk-ant-api03-example")
                (breaking ["He"; "llo"] timed_out) stream_request ["He"; "llo"] timed_out
                Hs eq_refl eq_refl) as (_ & Hw & Hsome & _).
  split; [exact Hw|]. now apply Hsome.
Defined.

End StreamingMoreCases.

(** ** The agent endpoint: order of checks, answers and the two revisions *)

Lemma try_catch_completes {G} (m : M G unit) (h : thrown -> M G unit) (s : state G) :
  (forall t s', (h t s').1 = Normal tt) -> (try_catch m h s).1 = Normal tt.
Proof.
  intros Hh. unfold try_catch. destruct (m s) as [[[]|t] s']; [reflexivity|apply Hh].
Qed.

Ltac enter_agent :=
  unfold Rules.rejected, Rules.outcome, Rules.response_after, Rules.trace_after,
    Coverage5.agent_result, Coverage5.agent_call,
    AgentAnalyze.handler, AgentAnalyzeNode.handler, Rules.start, AgentAnalyze.respond in *.

Ltac post_agent Hm :=
  rewrite ?Hm;
  change (String.eqb "POST" "OPTIONS") with false;
  change (String.eqb "POST" "POST") with true.

Section AgentMore.

Import Rules Coverage3 Coverage5.
Import AgentAnalyze.

Context (run_agent : agent) (req : request).

Local Abbreviation run_handler := (handler run_agent req).

Lemma json_headers_cors : has_cors "Content-Type" (Response 500 json_headers [] true None).
Proof. repeat split. Qed.

Lemma agent_preflight :
  method req = "OPTIONS" ->
  run_handler (start tt)
  = (Normal tt, State (Response 204 corsHeaders [] true (Some NoBody)) tt []).
Proof. intros Hm. enter_agent. rewrite Hm. reflexivity. Qed.

Lemma agent_method :
  method req <> "OPTIONS" -> method req <> "POST" ->
  run_handler (start tt)
  = (Normal tt,
     State (Response 405 corsHeaders [] true (Some (Text "Method not allowed"))) tt []).
Proof.
  intros Hopt Hpost. apply String.eqb_neq in Hopt, Hpost. enter_agent.
  rewrite Hopt, Hpost. reflexivity.
Qed.

Lemma agent_no_body parsed :
  method req = "POST" -> body req = Normal parsed -> nullish parsed = true ->
  run_handler (start tt)
  = (Normal tt,
     State (Response 500 json_headers [] true
              (Some (Json (echoed_with_stack (ThrownError (destructure_error "body" parsed "userPrompt"))))))
       tt [LogThrown ERROR "Agent execution error:" (ThrownError (destructure_error "body" parsed "userPrompt"))]).
Proof.
  intros Hm Hbody Hnull. enter_agent. post_agent Hm. rewrite Hbody. exec.
  rewrite (destructure_nullish _ _ _ "userPrompt" Hnull). exec. reflexivity.
Qed.

Lemma agent_unparsed t :
  method req = "POST" -> body req = Abrupt t ->
  run_handler (start tt)
  = (Normal tt,
     State (Response 500 json_headers [] true (Some (Json (echoed_with_stack t))))
       tt [LogThrown ERROR "Agent execution error:" t]).
Proof. intros Hm Hbody. enter_agent. post_agent Hm. rewrite Hbody. exec. reflexivity. Qed.

Lemma agent_missing_prompt parsed :
  method req = "POST" -> body req = Normal parsed -> nullish parsed = false ->
  truthy (own parsed "userPrompt") = false ->
  run_handler (start tt)
  = (Normal tt,
     State (Response 400 json_headers [] true
              (Some (Json (VObj [("error", VStr "Missing required field: userPrompt")]))))
       tt []).
Proof.
  intros Hm Hbody Hdef Hprompt. enter_agent. post_agent Hm. rewrite Hbody. exec.
  rewrite !(destructure_defined _ _ _ _ Hdef). cbn [fmap completion_fmap]. exec.
  rewrite Hprompt. exec. reflexivity.
Qed.

Lemma agent_runs parsed :
  prompted req parsed ->
  outcome run_handler (start tt) = Normal tt
  /\ outbound (trace_after run_handler (start tt)) = [agent_call parsed]
  /\ match agent_result run_agent parsed with
     | Normal answer => response_after run_handler (start tt) = answer
     | Abrupt t =>
         response_after run_handler (start tt)
         = Response 500 json_headers [] true (Some (Json (echoed_with_stack t)))
     end.
Proof.
  intros (Hm & Hbody & Hdef & Hprompt). enter_agent. post_agent Hm. rewrite Hbody. exec.
  rewrite !(destructure_defined _ _ _ _ Hdef). cbn [fmap completion_fmap]. exec.
  rewrite Hprompt. exec.
  destruct (run_agent _ _ _) as [answer|t]; exec; now repeat split.
Qed.

Lemma agent_completes : outcome run_handler (start tt) = Normal tt.
Proof.
  unfold outcome, handler.
  destruct (String.eqb (method req) "OPTIONS"); [reflexivity|].
  destruct (negb (String.eqb (method req) "POST")); [reflexivity|].
  now apply try_catch_completes.
Qed.

(** How a request fares before the agent is run. *)
Lemma agent_cases :
  method req = "OPTIONS"
  \/ (method req <> "OPTIONS" /\ method req <> "POST")
  \/ (method req = "POST" /\ exists t, body req = Abrupt t)
  \/ (method req = "POST" /\ exists parsed, body req = Normal parsed /\ nullish parsed = true)
  \/ (method req = "POST" /\ exists parsed,
        body req = Normal parsed /\ nullish parsed = false
        /\ truthy (own parsed "userPrompt") = false)
  \/ (exists parsed, prompted req parsed).
Proof.
  destruct (String.eqb_spec (method req) "OPTIONS") as [Hopt|Hopt]; [now left|right].
  destruct (String.eqb_spec (method req) "POST") as [Hpost|Hpost]; [right|now left].
  destruct (body req) as [parsed|t] eqn:Hbody; [right|left; eauto].
  destruct (nullish parsed) eqn:Hnull; [left; eauto|right].
  destruct (truthy (own parsed "userPrompt")) eqn:Hprompt; [right|left; eauto].
  exists parsed. now repeat split.
Qed.

Lemma classic_prompted :
  (exists parsed, prompted req parsed) \/ (forall parsed, ~ prompted req parsed).
Proof.
  destruct (body req) as [parsed|t] eqn:Hbody.
  - destruct (String.eqb_spec (method req) "POST") as [Hm|Hm].
    + destruct (nullish parsed) eqn:Hn.
      * right. intros p (_ & Hb & Hn' & _). congruence.
      * destruct (truthy (own parsed "userPrompt")) eqn:Hp.
        -- left. exists parsed. now repeat split.
        -- right. intros p (_ & Hb & _ & Hp'). congruence.
    + right. intros p (Hm' & _). contradiction.
  - right. intros p (_ & Hb & _). congruence.
Qed.


(** X19. The agent handler checks in a fixed order and stops at the
    first failure: OPTIONS is answered 204 with an empty body, any other
    method than POST 405 with the text "Method not allowed" (the body is
    not read), a POST whose body has no truthy [userPrompt] 400; the agent
    is run at most once, and only for a POST with a prompt. *)
Theorem agent_handler_checks_in_order :
  (method req = "OPTIONS" ->
   run_handler (start tt)
   = (Normal tt, State (Response 204 corsHeaders [] true (Some NoBody)) tt []))
  /\ (method req <> "OPTIONS" -> method req <> "POST" ->
      run_handler (start tt)
      = (Normal tt,
         State (Response 405 corsHeaders [] true (Some (Text "Method not allowed"))) tt []))
  /\ (forall parsed,
        method req = "POST" -> body req = Normal parsed -> nullish parsed = false ->
        truthy (own parsed "userPrompt") = false ->
        rejected run_handler (start tt) 400
          (VObj [("error", VStr "Missing required field: userPrompt")]))
  /\ (outbound (trace_after run_handler (start tt)) = []
      \/ exists parsed,
          prompted req parsed
          /\ outbound (trace_after run_handler (start tt)) = [agent_call parsed]).
Proof.
  split; [exact agent_preflight|]. split; [exact agent_method|]. split.
  - intros parsed Hm Hbody Hdef Hprompt. unfold rejected, outcome, response_after, trace_after.
    rewrite (agent_missing_prompt parsed Hm Hbody Hdef Hprompt). now repeat split.
  - unfold trace_after.
    destruct agent_cases
      as [Hm | [(Hopt & Hpost) | [(Hm & t & Hb) | [(Hm & p & Hb & Hn)
          | [(Hm & p & Hb & Hn & Hp) | (p & Hp)]]]]].
    + left. now rewrite (agent_preflight Hm).
    + left. now rewrite (agent_method Hopt Hpost).
    + left. now rewrite (agent_unparsed t Hm Hb).
    + left. now rewrite (agent_no_body p Hm Hb Hn).
    + left. now rewrite (agent_missing_prompt p Hm Hb Hn Hp).
    + right. exists p. split; [exact Hp|]. now apply agent_runs.
Qed.

(** X20. The agent handler never lets an exception escape, whatever the
    request and the agent do.  When the agent run returns a response, that
    response is the handler's answer, unchanged; every other answer is made
    by the handler: it carries the CORS headers, a body or an explicit empty
    body, and one of the statuses 204, 405, 400 and 500. *)
Theorem agent_handler_always_answers :
  outcome run_handler (start tt) = Normal tt
  /\ ((exists parsed answer,
         prompted req parsed /\ agent_result run_agent parsed = Normal answer
         /\ response_after run_handler (start tt) = answer)
      \/ own_answer (response_after run_handler (start tt))).
Proof.
  unfold outcome, response_after.
  destruct agent_cases
    as [Hm | [(Hopt & Hpost) | [(Hm & t & Hb) | [(Hm & p & Hb & Hn)
        | [(Hm & p & Hb & Hn & Hp) | (p & Hp)]]]]].
  - rewrite (agent_preflight Hm). split; [reflexivity|right].
    repeat split; cbn; [discriminate|set_solver].
  - rewrite (agent_method Hopt Hpost). split; [reflexivity|right].
    repeat split; cbn; [discriminate|set_solver].
  - rewrite (agent_unparsed t Hm Hb). split; [reflexivity|right].
    repeat split; cbn; [discriminate|set_solver].
  - rewrite (agent_no_body p Hm Hb Hn). split; [reflexivity|right].
    repeat split; cbn; [discriminate|set_solver].
  - rewrite (agent_missing_prompt p Hm Hb Hn Hp). split; [reflexivity|right].
    repeat split; cbn; [discriminate|set_solver].
  - destruct (agent_runs p Hp) as (Hout & _ & Hres). split; [exact Hout|].
    unfold response_after in Hres.
    destruct (agent_result run_agent p) as [answer|t] eqn:Hrun.
    + left. exists p, answer. split; [exact Hp|]. split; [exact Hrun|exact Hres].
    + right. rewrite Hres. repeat split; cbn; [discriminate|set_solver].
Qed.

End AgentMore.

Section AgentNode.

Import Rules Coverage3 Coverage5.
Import AgentAnalyze.

Context (key : option string) (run_agent : agent) (req : request).

Local Abbreviation run_handler := (AgentAnalyzeNode.handler key run_agent req).

Lemma agent_node_before_the_key :
  (forall parsed, ~ prompted req parsed) ->
  run_handler (start tt) = handler run_agent req (start tt).
Proof.
  intros Hnot.
  destruct (agent_cases req)
    as [Hm | [(Hopt & Hpost) | [(Hm & t & Hb) | [(Hm & p & Hb & Hn)
        | [(Hm & p & Hb & Hn & Hp) | (p & Hp)]]]]].
  - enter_agent. rewrite Hm. reflexivity.
  - apply String.eqb_neq in Hopt, Hpost. enter_agent. rewrite Hopt, Hpost. reflexivity.
  - enter_agent. post_agent Hm. rewrite Hb. reflexivity.
  - enter_agent. post_agent Hm. rewrite Hb. exec.
    rewrite (destructure_nullish _ _ _ "userPrompt" Hn). reflexivity.
  - enter_agent. post_agent Hm. rewrite Hb. exec.
    rewrite !(destructure_defined _ _ _ _ Hn). cbn [fmap completion_fmap]. exec.
    rewrite Hp. reflexivity.
  - now destruct (Hnot p).
Qed.

Lemma agent_node_not_set parsed :
  prompted req parsed -> key = None \/ key = Some "" ->
  rejected run_handler (start tt) 500
    (VObj [("error", VStr "Server configuration error: ANTHROPIC_API_KEY is not set");
           ("hint", VStr "Add ANTHROPIC_API_KEY to Vercel environment variables")]).
Proof.
  intros (Hm & Hbody & Hdef & Hprompt) Hkey. enter_agent. post_agent Hm. rewrite Hbody. exec.
  rewrite !(destructure_defined _ _ _ _ Hdef). cbn [fmap completion_fmap]. exec.
  rewrite Hprompt. destruct Hkey as [-> | ->]; exec; now repeat split.
Qed.

Lemma agent_node_invalid_format parsed k :
  prompted req parsed -> key = Some k -> k <> "" -> String.prefix "sk-ant-" k = false ->
  rejected run_handler (start tt) 500
    (VObj [("error", VStr "Server configuration error: ANTHROPIC_API_KEY has invalid format");
           ("hint", VStr "API key should start with sk-ant-")]).
Proof.
  intros (Hm & Hbody & Hdef & Hprompt) -> Hne Hprefix. apply nonempty_true in Hne.
  enter_agent. post_agent Hm. rewrite Hbody. exec.
  rewrite !(destructure_defined _ _ _ _ Hdef). cbn [fmap completion_fmap]. exec.
  rewrite Hprompt, Hne, Hprefix. exec. now repeat split.
Qed.

Lemma agent_node_runs parsed :
  prompted req parsed -> usable_key key ->
  outcome run_handler (start tt) = outcome (handler run_agent req) (start tt)
  /\ response_after run_handler (start tt) = response_after (handler run_agent req) (start tt)
  /\ outbound (trace_after run_handler (start tt))
     = outbound (trace_after (handler run_agent req) (start tt)).
Proof.
  intros (Hm & Hbody & Hdef & Hprompt) (k & -> & Hne & Hprefix). apply nonempty_true in Hne.
  enter_agent. post_agent Hm. rewrite Hbody. exec.
  rewrite !(destructure_defined _ _ _ _ Hdef). cbn [fmap completion_fmap]. exec.
  rewrite Hprompt, Hne, Hprefix. exec.
  destruct (run_agent _ _ _) as [answer|t]; exec; now repeat split.
Qed.

(** X21. The later revision of the agent handler checks the credential
    after the prompt and before the agent is built: for a POST with a
    prompt, an absent or empty credential is answered 500 "...
    ANTHROPIC_API_KEY is not set", a credential that does not start with
    [sk-ant-] 500 "... ANTHROPIC_API_KEY has invalid format", and in both
    cases the agent is not run; a request that fails an earlier check gets
    the same answer as without the credential check, whatever the
    credential is. *)
Theorem agent_handler_checks_credential :
  (forall parsed,
      prompted req parsed -> key = None \/ key = Some "" ->
      rejected run_handler (start tt) 500
        (VObj [("error", VStr "Server configuration error: ANTHROPIC_API_KEY is not set");
               ("hint", VStr "Add ANTHROPIC_API_KEY to Vercel environment variables")]))
  /\ (forall parsed k,
        prompted req parsed -> key = Some k -> k <> "" -> String.prefix "sk-ant-" k = false ->
        rejected run_handler (start tt) 500
          (VObj [("error", VStr "Server configuration error: ANTHROPIC_API_KEY has invalid format");
                 ("hint", VStr "API key should start with sk-ant-")]))
  /\ ((forall parsed, ~ prompted req parsed) ->
      run_handler (start tt) = handler run_agent req (start tt)).
Proof.
  split; [exact agent_node_not_set|]. split; [exact agent_node_invalid_format|].
  exact agent_node_before_the_key.
Qed.

End AgentNode.

Section AgentRenderers.

Import Rules Coverage3 Coverage5 Coverage9.
Import AgentAnalyze.

Context {R : Type} (sdk : agent_sdk R) (key : option string) (req : request).

Local Abbreviation earlier := (handler (data_agent sdk) req).
Local Abbreviation later := (AgentAnalyzeNode.handler key (text_agent sdk) req).

Lemma agent_alike_before_the_run (run_agent run_agent' : agent) :
  (forall parsed, ~ prompted req parsed) ->
  handler run_agent req (start tt) = handler run_agent' req (start tt).
Proof.
  intros Hnot.
  destruct (agent_cases req)
    as [Hm | [(Hopt & Hpost) | [(Hm & t & Hb) | [(Hm & p & Hb & Hn)
        | [(Hm & p & Hb & Hn & Hp) | (p & Hp)]]]]].
  - now rewrite !(agent_preflight _ req Hm).
  - now rewrite !(agent_method _ req Hopt Hpost).
  - now rewrite !(agent_unparsed _ req t Hm Hb).
  - now rewrite !(agent_no_body _ req p Hm Hb Hn).
  - now rewrite !(agent_missing_prompt _ req p Hm Hb Hn Hp).
  - now destruct (Hnot p).
Qed.

(** X22. With a credential that passes the two checks, the two revisions
    of the agent handler complete alike and make the same call of the
    agent.  They give the same answer when the request stops before the
    agent, and when [streamText] throws: 500 with the exception's text.
    When [streamText] returns, the earlier revision answers with
    [result.toDataStreamResponse(...)] and the later one with
    [result.toTextStreamResponse(...)], each with 500 and the exception's
    text when the rendering throws. *)
Theorem agent_revisions_agree :
  usable_key key ->
  outcome later (start tt) = Normal tt
  /\ outcome earlier (start tt) = Normal tt
  /\ outbound (trace_after later (start tt)) = outbound (trace_after earlier (start tt))
  /\ ((forall parsed, ~ prompted req parsed) ->
      response_after later (start tt) = response_after earlier (start tt))
  /\ (forall parsed,
        prompted req parsed ->
        match asked sdk parsed with
        | Normal result =>
            response_after earlier (start tt) = agent_answer (toDataStreamResponse sdk result)
            /\ response_after later (start tt) = agent_answer (toTextStreamResponse sdk result)
        | Abrupt t =>
            response_after earlier (start tt)
            = Response 500 json_headers [] true (Some (Json (echoed_with_stack t)))
            /\ response_after later (start tt) = response_after earlier (start tt)
        end).
Proof.
  intros Hkey.
  assert (Hearlier : outcome earlier (start tt) = Normal tt).
  { apply agent_completes. }
  assert (Hsame : (forall parsed, ~ prompted req parsed) ->
            later (start tt) = earlier (start tt)).
  { intros Hnot.
    rewrite (agent_node_before_the_key key (text_agent sdk) req Hnot).
    now apply agent_alike_before_the_run. }
  assert (Hruns : forall parsed, prompted req parsed ->
            outcome later (start tt) = Normal tt
            /\ outbound (trace_after later (start tt)) = [agent_call parsed]
            /\ response_after later (start tt) = agent_answer (agent_result (text_agent sdk) parsed)).
  { intros parsed Hp.
    destruct (agent_node_runs key (text_agent sdk) req parsed Hp Hkey) as (-> & -> & ->).
    destruct (agent_runs (text_agent sdk) req parsed Hp) as (Hout & Hcalls & Hres).
    split; [exact Hout|]. split; [exact Hcalls|].
    now destruct (agent_result (text_agent sdk) parsed). }
  destruct (classic_prompted req) as [(p & Hp) | Hnot].
  - destruct (Hruns p Hp) as (Hout & Hcalls & Hres).
    destruct (agent_runs (data_agent sdk) req p Hp) as (_ & Hcalls' & Hres').
    split; [exact Hout|]. split; [exact Hearlier|]. split; [congruence|].
    split; [intros Hnot; now destruct (Hnot p)|].
    intros parsed Hq.
    assert (parsed = p) as ->.
    { destruct Hp as (_ & Hb & _), Hq as (_ & Hb' & _). congruence. }
    unfold agent_result, data_agent, text_agent, asked in *.
    destruct (streamText sdk _ _ _) as [result|t]; cbn [mbind completion_bind] in *.
    + split; [|exact Hres].
      now destruct (toDataStreamResponse sdk result).
    + split; [exact Hres'|]. now rewrite Hres, Hres'.
  - unfold outcome, response_after, trace_after in *.
    rewrite (Hsame Hnot). split; [exact Hearlier|]. split; [exact Hearlier|].
    split; [reflexivity|]. split; [reflexivity|].
    intros parsed Hp. now destruct (Hnot parsed).
Qed.

End AgentRenderers.

Section AgentCases.

Import Rules Coverage3 Coverage5 Coverage9.
Import AgentAnalyze.

Lemma agent_revisions_agree_witness :
  response_after (handler (data_agent answering_agent_sdk) agent_request) (start tt)
  = data_stream "Looks accessible."
  /\ response_after (AgentAnalyzeNode.handler (Some "sk-ant-api03-example")
                       (text_agent answering_agent_sdk) agent_request) (start tt)
     = text_stream "Looks accessible.".
Proof.
  refine (proj2 (proj2 (proj2 (proj2
            (agent_revisions_agree answering_agent_sdk (Some "sk-ant-api03-example")
               agent_request _))))
            (VObj [("userPrompt", VStr "Check if this design is accessible")]) _).
  - exists "sk-ant-api03-example". now repeat split.
  - now repeat split.
Defined.

End AgentCases.

(** ** api/claude-stream.ts: validation, logging and the provider call *)

Lemma outbound_app (t u : list event) : outbound (t ++ u) = outbound t ++ outbound u.
Proof. unfold outbound. apply filter_app. Qed.

Ltac enter_cs :=
  unfold Coverage6.answers, Rules.rejected, Rules.outcome, Rules.response_after, Rules.trace_after,
    ClaudeStream.handler, Rules.start, AgentAnalyze.respond in *.

Section StreamValidation.

Import Rules Coverage3 Coverage6.
Import AgentAnalyze ClaudeStream.

Lemma validate_messages_cons i msg rest :
  validate_messages i (msg :: rest) =
  if nullish msg then Abrupt (ThrownError (type_error msg "role"))
  else if message_passes msg then validate_messages (S i) rest
  else Normal (Some (failure_answer i msg)).
Proof.
  cbn [validate_messages]. unfold message_passes, failure_answer.
  destruct (nullish msg) eqn:Hnull.
  - now rewrite (get_nullish msg "role" Hnull).
  - rewrite !(get_defined msg _ Hnull). cbn [mbind completion_bind negb andb].
    destruct (truthy (own msg "role")); cbn [negb andb]; [|reflexivity].
    now destruct (no_content (own msg "content")).
Qed.

Lemma validate_messages_pass i items :
  Forall (fun msg => message_passes msg = true) items ->
  validate_messages i items = Normal None.
Proof.
  intros Hall. revert i. induction Hall as [|msg rest Hmsg _ IH]; intros i; [reflexivity|].
  rewrite validate_messages_cons, Hmsg.
  unfold message_passes in Hmsg. destruct (nullish msg); [discriminate|]. apply IH.
Qed.

Lemma validate_messages_first_failure i good bad rest :
  Forall (fun msg => message_passes msg = true) good ->
  message_passes bad = false ->
  validate_messages i (good ++ bad :: rest) =
  if nullish bad then Abrupt (ThrownError (type_error bad "role"))
  else Normal (Some (failure_answer (i + length good) bad)).
Proof.
  intros Hgood Hbad. revert i.
  induction Hgood as [|msg good Hmsg _ IH]; intros i; cbn [app length].
  - rewrite validate_messages_cons, Hbad, Nat.add_0_r. reflexivity.
  - rewrite validate_messages_cons, Hmsg.
    unfold message_passes in Hmsg. destruct (nullish msg); [discriminate|].
    rewrite IH. now rewrite Nat.add_succ_r.
Qed.

Lemma first_failing_message items :
  Forall (fun msg => message_passes msg = true) items
  \/ exists good bad rest,
      items = good ++ bad :: rest
      /\ Forall (fun msg => message_passes msg = true) good
      /\ message_passes bad = false.
Proof.
  induction items as [|msg items IH]; [left; constructor|].
  destruct (message_passes msg) eqn:Hmsg.
  - destruct IH as [IH | (good & bad & rest & -> & Hgood & Hbad)].
    + left. now constructor.
    + right. exists (msg :: good), bad, rest. repeat split; [|assumption].
      now constructor.
  - right. exists [], msg, items. repeat split; [constructor|assumption].
Qed.

Lemma message_ok_passes msg : message_ok msg = true -> message_passes msg = true.
Proof.
  unfold message_ok, message_passes. intros H.
  apply andb_prop in H as (H & _). apply andb_prop in H as (H & Hcontent).
  rewrite H. cbn [andb].
  destruct (own msg "content") as [| |b|n|s|items|fields]; try discriminate; try reflexivity.
  cbn [truthy] in Hcontent. cbn [no_content]. exact Hcontent.
Qed.

Lemma describe_part_defined part :
  nullish part = false -> exists d, describe_part part = Normal d.
Proof.
  intros Hpart. unfold describe_part. rewrite !(get_defined part _ Hpart).
  cbn [mbind completion_bind]. eauto.
Qed.

Lemma mapM_describe_part parts :
  if existsb nullish parts
  then mapM describe_part parts
       = Abrupt (ThrownError (type_error (default VUndefined (List.find nullish parts)) "type"))
  else exists described, mapM describe_part parts = Normal described.
Proof.
  induction parts as [|part parts IH]; cbn [existsb mapM List.find]; [now exists []|].
  destruct (nullish part) eqn:Hpart; cbn [orb].
  - unfold describe_part. now rewrite (get_nullish part "type" Hpart).
  - destruct (describe_part_defined part Hpart) as (d & ->).
    cbn [mbind completion_bind].
    destruct (existsb nullish parts).
    + now rewrite IH.
    + destruct IH as (described & ->). cbn [mbind completion_bind mret completion_ret]. eauto.
Qed.

Lemma contentPreview_msg msg :
  if unloggable msg
  then contentPreview (own msg "content")
       = Abrupt (ThrownError (type_error (broken_in msg) "type"))
  else exists preview, contentPreview (own msg "content") = Normal preview.
Proof.
  unfold unloggable, broken_in, contentPreview.
  destruct (own msg "content") as [| |b|n|s|parts|fields]; eauto.
  pose proof (mapM_describe_part parts) as H. destruct (existsb nullish parts).
  - now rewrite H.
  - destruct H as (described & ->). cbn [fmap completion_fmap]. eauto.
Qed.

(** The run of the [forEach]: it only logs, and it throws at the first
    message whose content cannot be described. *)
Lemma log_messages_run i items (s : state unit) :
  Forall (fun msg => message_passes msg = true) items ->
  exists logged,
    outbound logged = []
    /\ log_messages i items s
       = (if existsb unloggable items
          then Abrupt (ThrownError (type_error (broken_part items) "type")) else Normal tt,
          State (res s) (globals s) (trace s ++ logged)).
Proof.
  intros Hall. revert i s.
  induction Hall as [|msg rest Hmsg _ IH]; intros i [r g t].
  - exists []. split; [reflexivity|]. cbn. now rewrite app_nil_r.
  - cbn [log_messages existsb broken_part]. unfold message_passes in Hmsg.
    destruct (nullish msg) eqn:Hnull; [discriminate|].
    rewrite !(get_defined msg _ Hnull). exec.
    pose proof (contentPreview_msg msg) as Hpreview.
    destruct (unloggable msg); cbn [orb].
    + rewrite Hpreview. exists []. split; [reflexivity|]. now rewrite app_nil_r.
    + destruct Hpreview as (preview & ->).
      match goal with
      | |- context [log_messages (S i) rest ?s] => destruct (IH (S i) s) as (logged & Hq & ->)
      end.
      cbn [res globals trace].
      eexists (_ :: logged). split; [|rewrite <- app_assoc; reflexivity].
      unfold outbound in *. rewrite filter_cons. cbn. exact Hq.
Qed.

End StreamValidation.

Section StreamHandler.

Import Rules Coverage3 Coverage6.
Import AgentAnalyze ClaudeStream.

Context (rev : revision) (key : option string) (streamText : sdk).

(** The steps after the validation, summed up: the completion, the
    response and the calls made. *)
Lemma stream_run model messages maxTokens items (s : state unit) :
  Forall (fun msg => message_passes msg = true) items ->
  (stream rev key streamText model messages maxTokens items s).1
  = (fun _ => tt) <$> stream_verdict rev key streamText model messages items
  /\ res (stream rev key streamText model messages maxTokens items s).2
     = match stream_verdict rev key streamText model messages items with
       | Normal answer => answer
       | Abrupt _ => res s
       end
  /\ outbound (trace (stream rev key streamText model messages maxTokens items s).2)
     = outbound (trace s) ++ stream_calls rev key model messages items.
Proof.
  intros Hall. destruct s as [r g t].
  assert (Hmissing :
    forall e : event, is_outbound e = false -> outbound (t ++ [e]) = outbound t ++ []).
  { intros e He. now rewrite outbound_snoc, He. }
  assert (Hruns :
    forall (m : mapped) (format : bool) (s0 : state unit) (maxT : value),
      let run :=
        (emit (LogModel INFO "Streaming request:" m [VNum (Z.of_nat (length items)); maxT]);;
         log INFO "Detailed messages structure:" [];;
         log_messages 0 items;;
         log INFO "[STREAM] About to call streamText..." [];;
         emit (LogModel INFO "[STREAM] Model:" m []);;
         log INFO "[STREAM] Messages count:" [VNum (Z.of_nat (length items))];;
         result ← call_streamText (Revision format) streamText m messages;
         log INFO "[STREAM] Converting to text stream response..." [];;
         response ← lift result;
         log INFO "[STREAM] Response created, returning..." [];;
         update_res (fun _ => response)) s0 in
      let verdict :=
        if existsb unloggable items
        then Abrupt (ThrownError (type_error (broken_part items) "type"))
        else match streamText m messages with
             | Normal result => result
             | Abrupt t => Abrupt t
             end in
      run.1 = (fun _ => tt) <$> verdict
      /\ res run.2 = match verdict with Normal answer => answer | Abrupt _ => res s0 end
      /\ outbound (trace run.2)
         = outbound (trace s0)
           ++ (if negb (existsb unloggable items) then [stream_call m messages] else [])).
  { intros m format [r0 g0 t0] maxT. unfold call_streamText, stream_call. cbv zeta.
    destruct format; cbn [checks_format]; exec;
      match goal with
      | |- context [log_messages 0 items ?s] =>
          destruct (log_messages_run 0 items s Hall) as (logged & Hq & ->)
      end;
      (destruct (existsb unloggable items);
       [|destruct (streamText m messages) as [[answer|thrown]|thrown]]);
      cbn [fst snd res trace fmap completion_fmap negb];
      (split; [reflexivity|]); (split; [reflexivity|]);
      repeat first [rewrite outbound_snoc; cbn [is_outbound] | rewrite outbound_app, Hq];
      now rewrite ?app_nil_r. }
  unfold stream, stream_verdict, stream_calls.
  destruct (mappedModel model) as [m|thrown].
  2: { exec. cbn [fst snd res trace mbind completion_bind fmap completion_fmap].
       now rewrite app_nil_r. }
  erewrite step_bind; [|reflexivity]. cbv beta zeta. cbn [mbind completion_bind].
  unfold key_accepted, key_answer, respond.
  destruct key as [[|a k]|]; cbn [nonempty String.eqb negb andb].
  - exec. cbn [fst snd res trace fmap completion_fmap]. split; [reflexivity|].
    split; [reflexivity|]. now apply Hmissing.
  - destruct rev as [[|]]; cbn [checks_format negb andb orb].
    + destruct (String.prefix "sk-ant-" (String a k)); cbn [negb].
      * do 3 (erewrite step_bind; [|reflexivity]).
        match goal with
        | |- context [trace (_ ?s0).2] =>
            destruct (Hruns m true s0 maxTokens) as (H1 & H2 & H3)
        end.
        split; [exact H1|]. split; [exact H2|]. refine (eq_trans H3 _).
        cbn [res globals trace]. now rewrite !outbound_snoc, !app_nil_r.
      * exec. cbn [fst snd res trace fmap completion_fmap]. split; [reflexivity|].
        split; [reflexivity|]. now apply Hmissing.
    + do 3 (erewrite step_bind; [|reflexivity]).
      match goal with
      | |- context [trace (_ ?s0).2] =>
          destruct (Hruns m false s0 maxTokens) as (H1 & H2 & H3)
      end.
      split; [exact H1|]. split; [exact H2|]. refine (eq_trans H3 _).
      cbn [res globals trace]. now rewrite ?outbound_snoc, ?app_nil_r.
  - exec. cbn [fst snd res trace fmap completion_fmap]. split; [reflexivity|].
    split; [reflexivity|]. now apply Hmissing.
Qed.

Lemma length_test (items : list value) :
  items <> [] -> (Z.of_nat (length items) =? 0) = false.
Proof. intros Hne. destruct items; [congruence|]. apply Z.eqb_neq. cbn [length]. lia. Qed.

Context (req : request).

Local Abbreviation run_handler := (handler rev key streamText req).

(** A body that passes the validation: the handler answers with the
    verdict, an exception being answered by the [catch] block. *)
Lemma stream_handler_run parsed items :
  method req = "POST" -> body req = Normal parsed -> well_formed parsed items ->
  outcome run_handler (start tt) = Normal tt
  /\ response_after run_handler (start tt)
     = match stream_verdict rev key streamText (own parsed "model") (own parsed "messages") items with
       | Normal answer => answer
       | Abrupt t => Response 500 json_headers [] true (Some (Json (echoed t)))
       end
  /\ outbound (trace_after run_handler (start tt))
     = stream_calls rev key (own parsed "model") (own parsed "messages") items.
Proof.
  intros Hm Hbody (Hdef & Hmodel & Hmsgs & Hne & Hall). enter_cs. post_agent Hm.
  rewrite Hbody. exec. rewrite !(destructure_defined _ _ _ _ Hdef). cbn [fmap completion_fmap]. exec.
  rewrite Hmodel, Hmsgs. cbn [truthy negb orb]. rewrite (length_test items Hne).
  rewrite (validate_messages_pass 0 items Hall).
  match goal with
  | |- context [stream rev key streamText ?mo ?me ?mt items ?s] =>
      destruct (stream_run mo me mt items s Hall) as (H1 & H2 & H3);
      destruct (stream rev key streamText mo me mt items s) as [c [r g t]]
  end.
  cbn [fst snd res trace] in *. rewrite <- Hmsgs in *.
  destruct (stream_verdict _ _ _ _ _ _) as [answer|thrown]; cbn [fmap completion_fmap] in H1;
    subst c; cbn [fst snd res trace].
  - now repeat split.
  - split; [reflexivity|]. split; [reflexivity|].
    rewrite outbound_snoc. cbn [is_outbound]. rewrite app_nil_r. exact H3.
Qed.


Lemma stream_handler_preflight :
  method req = "OPTIONS" ->
  run_handler (start tt)
  = (Normal tt, State (Response 204 corsHeaders [] true (Some NoBody)) tt []).
Proof. intros Hm. enter_cs. rewrite Hm. reflexivity. Qed.

Lemma stream_handler_method :
  method req <> "OPTIONS" -> method req <> "POST" ->
  run_handler (start tt)
  = (Normal tt,
     State (Response 405 corsHeaders [] true (Some (Text "Method not allowed"))) tt []).
Proof.
  intros Hopt Hpost. apply String.eqb_neq in Hopt, Hpost. enter_cs.
  rewrite Hopt, Hpost. reflexivity.
Qed.

Lemma stream_handler_unparsed t :
  method req = "POST" -> body req = Abrupt t ->
  answers run_handler (start tt) 500 (echoed t).
Proof.
  intros Hm Hbody. enter_cs. post_agent Hm. rewrite Hbody. exec. now repeat split.
Qed.

Lemma stream_handler_no_body parsed :
  method req = "POST" -> body req = Normal parsed -> nullish parsed = true ->
  answers run_handler (start tt) 500
    (echoed (ThrownError (destructure_error "(intermediate value)" parsed "model"))).
Proof.
  intros Hm Hbody Hnull. enter_cs. post_agent Hm. rewrite Hbody. exec.
  rewrite (destructure_nullish _ _ _ "model" Hnull). exec. now repeat split.
Qed.

Lemma stream_handler_missing_fields parsed :
  method req = "POST" -> body req = Normal parsed -> nullish parsed = false ->
  truthy (own parsed "model") && truthy (own parsed "messages") = false ->
  answers run_handler (start tt) 400
    (VObj [("error", VStr "Missing required fields: model, messages")]).
Proof.
  intros Hm Hbody Hdef Hmissing. enter_cs. post_agent Hm. rewrite Hbody. exec.
  rewrite !(destructure_defined _ _ _ _ Hdef). cbn [fmap completion_fmap]. exec.
  destruct (truthy (own parsed "model")), (truthy (own parsed "messages"));
    try discriminate; exec; now repeat split.
Qed.

Lemma stream_handler_not_an_array parsed :
  method req = "POST" -> body req = Normal parsed -> nullish parsed = false ->
  truthy (own parsed "model") = true -> truthy (own parsed "messages") = true ->
  (forall msg items, own parsed "messages" <> VArr (msg :: items)) ->
  answers run_handler (start tt) 400
    (VObj [("error", VStr "messages must be a non-empty array")]).
Proof.
  intros Hm Hbody Hdef Hmodel Hmsgs Hshape. enter_cs. post_agent Hm. rewrite Hbody. exec.
  rewrite !(destructure_defined _ _ _ _ Hdef). cbn [fmap completion_fmap]. exec.
  rewrite Hmodel, Hmsgs. cbn [negb orb].
  destruct (own parsed "messages") as [| |b|n|str|[|msg items]|fields];
    try (now destruct (Hshape msg items)); cbn; now repeat split.
Qed.

Lemma stream_handler_failing_message parsed good bad rest :
  method req = "POST" -> body req = Normal parsed -> nullish parsed = false ->
  truthy (own parsed "model") = true ->
  own parsed "messages" = VArr (good ++ bad :: rest) ->
  Forall (fun msg => message_passes msg = true) good ->
  message_passes bad = false ->
  if nullish bad
  then answers run_handler (start tt) 500 (echoed (ThrownError (type_error bad "role")))
  else answers run_handler (start tt) 400 (failure_answer (length good) bad).
Proof.
  intros Hm Hbody Hdef Hmodel Hmsgs Hgood Hbad. enter_cs. post_agent Hm. rewrite Hbody. exec.
  rewrite !(destructure_defined _ _ _ _ Hdef). cbn [fmap completion_fmap]. exec.
  rewrite Hmodel, Hmsgs. cbn [truthy negb orb].
  rewrite length_test by (now destruct good).
  rewrite (validate_messages_first_failure 0 good bad rest Hgood Hbad).
  destruct (nullish bad); exec; now repeat split.
Qed.

(** How a request fares before the credential is looked at. *)
Lemma stream_cases :
  method req = "OPTIONS"
  \/ (method req <> "OPTIONS" /\ method req <> "POST")
  \/ (method req = "POST" /\ exists t, body req = Abrupt t)
  \/ (method req = "POST"
      /\ exists parsed,
          body req = Normal parsed
          /\ (nullish parsed = true
              \/ (nullish parsed = false
                  /\ truthy (own parsed "model") && truthy (own parsed "messages") = false)
              \/ (nullish parsed = false
                  /\ truthy (own parsed "model") = true /\ truthy (own parsed "messages") = true
                  /\ forall msg items, own parsed "messages" <> VArr (msg :: items))
              \/ (nullish parsed = false /\ truthy (own parsed "model") = true
                  /\ exists good bad rest,
                      own parsed "messages" = VArr (good ++ bad :: rest)
                      /\ Forall (fun msg => message_passes msg = true) good
                      /\ message_passes bad = false)
              \/ exists items, well_formed parsed items)).
Proof.
  destruct (String.eqb_spec (method req) "OPTIONS") as [Hopt|Hopt]; [now left|right].
  destruct (String.eqb_spec (method req) "POST") as [Hpost|Hpost]; [right|now left].
  destruct (body req) as [parsed|t] eqn:Hbody; [right|left; eauto].
  split; [exact Hpost|]. exists parsed. split; [reflexivity|].
  destruct (nullish parsed) eqn:Hnull; [now left|right].
  destruct (truthy (own parsed "model")) eqn:Hmodel; [|now left].
  destruct (truthy (own parsed "messages")) eqn:Hmsgs; [right|now left].
  destruct (own parsed "messages") as [| |b|n|str|[|msg items]|fields] eqn:Hshape;
    try (left; repeat split; intros; discriminate).
  right.
  destruct (first_failing_message (msg :: items)) as [Hall | (good & bad & rest & Heq & Hgood & Hbad)].
  - right. exists (msg :: items). now repeat split.
  - left. repeat split. exists good, bad, rest. rewrite Heq. now repeat split.
Qed.


(** X24. The message log can fail a request that passed every check: when
    the content of some message is an array that holds [null], the
    [forEach] that logs the messages throws on [part.type], and the request
    is answered 500 with the text of the engine's TypeError, "Cannot read
    properties of null (reading 'type')" for a part that is [null]; the
    provider is not called.  This holds for a model that can be looked up
    in the model map and a credential that passes the checks. *)
Theorem stream_logging_fails_the_request parsed items m :
  method req = "POST" -> body req = Normal parsed -> well_formed parsed items ->
  mappedModel (own parsed "model") = Normal m ->
  key_accepted rev key = true -> existsb unloggable items = true ->
  answers run_handler (start tt) 500 (echoed (ThrownError (type_error (broken_part items) "type")))
  /\ body_field (response_after run_handler (start tt)) "error"
     = VStr ("Cannot read properties of " +:+ nullish_name (broken_part items)
             +:+ " (reading 'type')")
  /\ body_field (response_after run_handler (start tt)) "details"
     = VStr ("TypeError: Cannot read properties of " +:+ nullish_name (broken_part items)
             +:+ " (reading 'type')").
Proof.
  intros Hm Hbody Hwf Hmap Hkey Hlog.
  destruct (stream_handler_run parsed items Hm Hbody Hwf) as (Hout & Hres & Hcalls).
  unfold stream_verdict in Hres. unfold stream_calls in Hcalls.
  rewrite Hmap in Hres, Hcalls. cbn [mbind completion_bind] in Hres.
  rewrite Hkey, Hlog in Hres, Hcalls. cbn [negb andb] in Hres, Hcalls.
  split; [now repeat split|]. rewrite Hres. unfold body_field. cbn [sent].
  now destruct (broken_part items).
Qed.

(** X25. The handler never lets an exception escape, and it calls the
    provider exactly when the request is a POST whose body passes the
    validation, the model can be looked up in the model map, the credential
    passes the checks of the revision and the messages can be logged: then
    there is one [streamText] call, for what [modelMap[model] || model]
    gives (an entry of the map, a member of [Object.prototype], or the
    model as received) and the messages as received and without
    [maxTokens], and the answer is the SDK's response, or 500 with the
    exception's text; otherwise nothing is sent to the provider. *)
Theorem stream_reaches_provider_exactly_when :
  outcome run_handler (start tt) = Normal tt
  /\ (forall parsed m,
        reaches_provider rev key req parsed m ->
        outbound (trace_after run_handler (start tt))
        = [stream_call m (own parsed "messages")]
        /\ response_after run_handler (start tt)
           = match streamText m (own parsed "messages") with
             | Normal (Normal answer) => answer
             | Normal (Abrupt t) | Abrupt t =>
                 Response 500 json_headers [] true (Some (Json (echoed t)))
             end)
  /\ ((forall parsed m, ~ reaches_provider rev key req parsed m) ->
      outbound (trace_after run_handler (start tt)) = []).
Proof.
  split; [|split].
  - unfold outcome, handler.
    destruct (String.eqb (method req) "OPTIONS"); [reflexivity|].
    destruct (negb (String.eqb (method req) "POST")); [reflexivity|].
    now apply try_catch_completes.
  - intros parsed m (Hm & Hbody & Hmap & Hkey & items & Hwf & Hlog).
    destruct (stream_handler_run parsed items Hm Hbody Hwf) as (_ & Hres & Hcalls).
    unfold stream_verdict in Hres. unfold stream_calls in Hcalls.
    rewrite Hmap in Hres, Hcalls. cbn [mbind completion_bind] in Hres.
    rewrite Hkey, Hlog in Hres, Hcalls.
    split; [exact Hcalls|]. rewrite Hres. cbn [negb].
    now destruct (streamText _ _) as [[answer|t]|t].
  - intros Hnot. unfold trace_after.
    destruct stream_cases
      as [Hm | [(Hopt & Hpost) | [(Hm & t & Hb) | (Hm & p & Hb & Hcase)]]].
    + now rewrite (stream_handler_preflight Hm).
    + now rewrite (stream_handler_method Hopt Hpost).
    + now apply (stream_handler_unparsed t).
    + destruct Hcase
        as [Hn | [(Hn & Hf) | [(Hn & Hmo & Hme & Hshape)
            | [(Hn & Hmo & good & bad & rest & Hme & Hgood & Hbad) | (items & Hwf)]]]].
      * now apply (stream_handler_no_body p).
      * now apply (stream_handler_missing_fields p).
      * now apply (stream_handler_not_an_array p).
      * pose proof (stream_handler_failing_message p good bad rest Hm Hb Hn Hmo Hme Hgood Hbad)
          as Hrun.
        destruct (nullish bad); now apply Hrun.
      * destruct (stream_handler_run p items Hm Hb Hwf) as (_ & _ & Hcalls).
        fold (trace_after run_handler (start tt)). rewrite Hcalls. unfold stream_calls.
        destruct (mappedModel (own p "model")) as [m|t] eqn:Hmap; [|reflexivity].
        destruct (key_accepted rev key) eqn:Hkey; [|reflexivity].
        destruct (existsb unloggable items) eqn:Hlog; [reflexivity|].
        destruct (Hnot p m). repeat split; eauto.
Qed.

End StreamHandler.

Section StreamMore.

Import Rules Coverage3 Coverage6.
Import AgentAnalyze ClaudeStream.

(** X26. A body that [validateClaudeRequest] of the buffered endpoint
    accepts also passes the validation of the streaming endpoint: its
    [model] is truthy, its [messages] are a non-empty array and the loop
    over the messages finds nothing to report. *)
Theorem stream_accepts_what_the_proxy_validates coerce prev parsed :
  ClaudeProxy.validateClaudeRequest coerce prev parsed = Normal ClaudeProxy.ok ->
  exists items, well_formed parsed items /\ validate_messages 0 items = Normal None.
Proof.
  intros Hok. apply validateClaudeRequest_passes in Hok
    as (Hdef & items & Hmsgs & Hne & Hall & Hmodel & _).
  assert (Hpass : Forall (fun msg => message_passes msg = true) items).
  { eapply Forall_impl; [exact Hall|]. exact message_ok_passes. }
  exists items. split; [now repeat split|]. now apply validate_messages_pass.
Qed.

(** X27. [maxTokens] has no part in the answer: two POST requests whose
    bodies agree on [model] and [messages] complete alike, get the same
    response and cause the same provider call, whatever else the bodies
    hold.  The field is read and logged, and not handed to [streamText]. *)
Theorem stream_ignores_maxTokens rev key streamText req1 req2 parsed1 parsed2 :
  method req1 = method req2 ->
  body req1 = Normal parsed1 -> body req2 = Normal parsed2 ->
  nullish parsed1 = false -> nullish parsed2 = false ->
  own parsed1 "model" = own parsed2 "model" ->
  own parsed1 "messages" = own parsed2 "messages" ->
  outcome (handler rev key streamText req1) (start tt)
  = outcome (handler rev key streamText req2) (start tt)
  /\ response_after (handler rev key streamText req1) (start tt)
     = response_after (handler rev key streamText req2) (start tt)
  /\ outbound (trace_after (handler rev key streamText req1) (start tt))
     = outbound (trace_after (handler rev key streamText req2) (start tt)).
Proof.
  intros Hmethod Hb1 Hb2 Hn1 Hn2 Hmodel Hmsgs.
  assert (Halike : forall code answer,
            answers (handler rev key streamText req1) (start tt) code answer ->
            answers (handler rev key streamText req2) (start tt) code answer ->
            outcome (handler rev key streamText req1) (start tt)
            = outcome (handler rev key streamText req2) (start tt)
            /\ response_after (handler rev key streamText req1) (start tt)
               = response_after (handler rev key streamText req2) (start tt)
            /\ outbound (trace_after (handler rev key streamText req1) (start tt))
               = outbound (trace_after (handler rev key streamText req2) (start tt))).
  { intros code answer (-> & -> & ->) (-> & -> & ->). now repeat split. }
  destruct (stream_cases req1)
    as [Hm | [(Hopt & Hpost) | [(Hm & t & Hb) | (Hm & p & Hb & Hcase)]]].
  - unfold outcome, response_after, trace_after.
    rewrite (stream_handler_preflight rev key streamText req1 Hm).
    rewrite Hmethod in Hm. now rewrite (stream_handler_preflight rev key streamText req2 Hm).
  - unfold outcome, response_after, trace_after.
    rewrite (stream_handler_method rev key streamText req1 Hopt Hpost).
    rewrite Hmethod in Hopt, Hpost.
    now rewrite (stream_handler_method rev key streamText req2 Hopt Hpost).
  - congruence.
  - assert (p = parsed1) as -> by congruence. clear Hb.
    assert (Hm2 : method req2 = "POST") by congruence.
    destruct Hcase
      as [Hn | [(_ & Hf) | [(_ & Hmo & Hme & Hshape)
          | [(_ & Hmo & good & bad & rest & Hme & Hgood & Hbad) | (items & Hwf)]]]].
    + congruence.
    + eapply Halike.
      * now apply (stream_handler_missing_fields rev key streamText req1 parsed1).
      * apply (stream_handler_missing_fields rev key streamText req2 parsed2); auto.
        now rewrite <- Hmodel, <- Hmsgs.
    + eapply Halike.
      * now apply (stream_handler_not_an_array rev key streamText req1 parsed1).
      * apply (stream_handler_not_an_array rev key streamText req2 parsed2); auto;
          rewrite <- ?Hmodel, <- ?Hmsgs; auto.
    + pose proof (stream_handler_failing_message rev key streamText req1 parsed1 good bad rest
                    Hm Hb1 Hn1 Hmo Hme Hgood Hbad) as Hrun1.
      rewrite Hmodel in Hmo. rewrite Hmsgs in Hme.
      pose proof (stream_handler_failing_message rev key streamText req2 parsed2 good bad rest
                    Hm2 Hb2 Hn2 Hmo Hme Hgood Hbad) as Hrun2.
      destruct (nullish bad); eapply Halike; eauto.
    + destruct (stream_handler_run rev key streamText req1 parsed1 items Hm Hb1 Hwf)
        as (-> & -> & ->).
      assert (Hwf2 : well_formed parsed2 items).
      { destruct Hwf as (_ & Hmo & Hme & Hrest). rewrite Hmodel in Hmo. rewrite Hmsgs in Hme.
        now repeat split. }
      destruct (stream_handler_run rev key streamText req2 parsed2 items Hm2 Hb2 Hwf2)
        as (-> & -> & ->).
      now rewrite Hmodel, Hmsgs.
Qed.

End StreamMore.

Section StreamCases.

Import Rules Coverage3 Coverage6.
Import AgentAnalyze ClaudeStream.


Lemma stream_logging_fails_the_request_witness :
  body_field
    (response_after
       (handler with_format_check (Some "sk-ant-api03-example") answering_sdk
          (Request "POST" (Normal chat_with_null_part)))
       (start tt)) "error"
  = VStr "Cannot read properties of null (reading 'type')".
Proof.
  refine (proj1 (proj2
            (stream_logging_fails_the_request with_format_check (Some "sk-ant-api03-example")
               answering_sdk (Request "POST" (Normal chat_with_null_part)) chat_with_null_part
               [VObj [("role", VStr "user");
                      ("content", VArr [VObj [("type", VStr "text"); ("text", VStr "Hi")]; VNull])]]
               (Plain (VStr "claude-sonnet-4")) eq_refl eq_refl _ eq_refl eq_refl eq_refl))).
  repeat split; [discriminate|repeat constructor].
Defined.

Lemma stream_accepts_what_the_proxy_validates_witness :
  exists items,
    well_formed (chat "claude-3-haiku-20240307" "user" (VStr "Hi") (VNum 100)) items
    /\ validate_messages 0 items = Normal None.
Proof.
  exact (stream_accepts_what_the_proxy_validates (fun _ => None) ClaudeProxy.revision_1
           (chat "claude-3-haiku-20240307" "user" (VStr "Hi") (VNum 100)) eq_refl).
Defined.

Lemma stream_ignores_maxTokens_witness :
  response_after
    (handler with_format_check (Some "sk-ant-api03-example") answering_sdk
       (Request "POST" (Normal (chat_with_budget 1)))) (start tt)
  = response_after
      (handler with_format_check (Some "sk-ant-api03-example") answering_sdk
         (Request "POST" (Normal (chat_with_budget 100000)))) (start tt).
Proof.
  exact (proj1 (proj2
           (stream_ignores_maxTokens with_format_check (Some "sk-ant-api03-example") answering_sdk
              (Request "POST" (Normal (chat_with_budget 1)))
              (Request "POST" (Normal (chat_with_budget 100000)))
              (chat_with_budget 1) (chat_with_budget 100000)
              eq_refl eq_refl eq_refl eq_refl eq_refl eq_refl eq_refl))).
Defined.

End StreamCases.

(** ** The test endpoint *)

Section TestEndpoint.

Import Rules.
Import AgentAnalyze TestBasic.

Lemma substring_all (s : string) (n : nat) :
  (String.length s <= n)%nat -> String.substring 0 n s = s.
Proof.
  revert n. induction s as [|a s IH]; intros [|n] Hlen; cbn in *; try reflexivity; try lia.
  f_equal. apply IH. lia.
Qed.

(** X28. The test endpoint does not check the method: every request
    other than OPTIONS is answered 200, and the answer discloses whether a
    credential is configured, its length and its first ten characters, so a
    credential of at most ten characters is disclosed whole.  Without a
    credential the length and the prefix are left out of the body.  It
    never answers 500 and calls nobody. *)
Theorem test_handler_discloses_the_key_prefix key req :
  method req <> "OPTIONS" ->
  outcome (handler key req) (start tt) = Normal tt
  /\ statusCode (response_after (handler key req) (start tt)) = 200
  /\ outbound (trace_after (handler key req) (start tt)) = []
  /\ match key with
     | Some k =>
         sent (response_after (handler key req) (start tt))
         = Some (Json (VObj [("success", VBool true); ("message", VStr "Test endpoint works!");
                             ("apiKeyExists", VBool (nonempty k));
                             ("apiKeyLength", VNum (Z.of_nat (String.length k)));
                             ("apiKeyPrefix", VStr (String.substring 0 10 k))]))
         /\ ((String.length k <= 10)%nat ->
             body_field (response_after (handler key req) (start tt)) "apiKeyPrefix" = VStr k)
     | None =>
         sent (response_after (handler key req) (start tt))
         = Some (Json (VObj [("success", VBool true); ("message", VStr "Test endpoint works!");
                             ("apiKeyExists", VBool false)]))
     end.
Proof.
  intros Hm. apply String.eqb_neq in Hm.
  unfold outcome, response_after, trace_after, handler, start, respond. exec. rewrite Hm. exec.
  cbn [fst snd res trace statusCode sent].
  split; [reflexivity|]. split; [reflexivity|]. split; [reflexivity|].
  destruct key as [k|]; cbn; [|reflexivity].
  split; [reflexivity|]. intros Hlen. unfold body_field. cbn.
  now rewrite substring_all.
Qed.

End TestEndpoint.

Section TestEndpointCases.

Import Rules.
Import AgentAnalyze TestBasic.

Lemma test_handler_discloses_the_key_prefix_witness :
  body_field (response_after (handler (Some "sk-ant-api03-example") (Request "GET" (Normal VUndefined)))
                (start tt)) "apiKeyPrefix"
  = VStr "sk-ant-api".
Proof.
  pose proof (test_handler_discloses_the_key_prefix (Some "sk-ant-api03-example")
                (Request "GET" (Normal VUndefined))) as H.
  destruct H as (_ & _ & _ & Hsent & _); [discriminate|].
  unfold body_field. now rewrite Hsent.
Defined.

End TestEndpointCases.

(** ** The agent's tools *)

Section Tools.

Import DesignAgent Coverage7.

Lemma total_app (fs gs : list finding) : total (fs ++ gs) = total fs + total gs.
Proof.
  unfold total. rewrite fold_left_app.
  generalize (fold_left (fun sum f => sum + score f) fs 0). intros base.
  revert base. induction gs as [|g gs IH]; intros base; cbn [fold_left]; [lia|].
  rewrite IH, (IH (0 + score g)). lia.
Qed.

Lemma total_at_most_one (fs : list finding) :
  Forall within_quarter fs -> (length fs <= 1)%nat -> 0 <= total fs <= 25.
Proof.
  intros Hall Hlen. destruct fs as [|f [|g fs]]; cbn in *; try lia.
  apply Forall_inv in Hall. unfold within_quarter in Hall. lia.
Qed.

Lemma consistency_finding pageData fs :
  consistency pageData = Normal fs -> Forall within_quarter fs /\ (length fs <= 1)%nat.
Proof.
  unfold consistency. destruct (filter_by _ _ _) as [detached|t]; [|discriminate].
  cbn [mbind completion_bind]. intros [= <-]. split; [|cbn; lia].
  constructor; [|constructor]. unfold within_quarter. cbn [score].
  destruct (length detached =? 0)%nat; lia.
Qed.

Lemma hierarchy_finding pageData fs :
  hierarchy pageData = Normal fs -> Forall within_quarter fs /\ (length fs <= 1)%nat.
Proof.
  unfold hierarchy. destruct (map_field _ _ _) as [sizes|t]; [|discriminate].
  cbn [mbind completion_bind]. intros [= <-]. split; [|cbn; lia].
  constructor; [|constructor]. unfold within_quarter. cbn [score].
  destruct (_ && _); lia.
Qed.

Lemma spacing_finding pageData fs :
  spacing pageData = Normal fs -> Forall within_quarter fs /\ (length fs <= 1)%nat.
Proof.
  unfold spacing. destruct (filter_by _ _ _) as [frames|t]; [|discriminate].
  cbn [mbind completion_bind]. intros [= <-]. split; [|cbn; lia].
  constructor; [|constructor]. unfold within_quarter. cbn [score].
  destruct (0 <? length frames)%nat; lia.
Qed.

Lemma optional_finding (applies : bool) (check : completion (list finding)) fs :
  (forall gs, check = Normal gs -> Forall within_quarter gs /\ (length gs <= 1)%nat) ->
  (if applies then check else Normal []) = Normal fs ->
  0 <= total fs <= 25.
Proof.
  intros Hcheck Hfs. destruct applies.
  - destruct (Hcheck fs Hfs). now apply total_at_most_one.
  - injection Hfs as <-. cbn. lia.
Qed.

(** X29. The quality score never reaches its maximum: whenever
    [analyzeDesignQuality] returns, [maxScore] is 100 and [score] lies
    between 0 and 75, each of the three checks that are made contributing
    at most 25; and the flag [checkAlignment] has no effect on the
    result. *)
Theorem analyzeDesignQuality_score_bound context
    (checkConsistency checkHierarchy checkSpacing checkAlignment : bool) result :
  analyzeDesignQuality context checkConsistency checkHierarchy checkSpacing checkAlignment
  = Normal result ->
  (exists n, own result "score" = VNum n /\ 0 <= n <= 75)
  /\ own result "maxScore" = VNum 100
  /\ analyzeDesignQuality context checkConsistency checkHierarchy checkSpacing
       (negb checkAlignment) = Normal result.
Proof.
  unfold analyzeDesignQuality. intros Hrun.
  destruct (destructure "context" "pageData" context "pageData") as [pageData|t]; [|discriminate].
  cbn [mbind completion_bind] in *.
  destruct (if checkConsistency && _ then _ else _) as [first|t] eqn:Hfirst; [|discriminate].
  cbn [mbind completion_bind] in *.
  destruct (if checkHierarchy && _ then _ else _) as [second|t] eqn:Hsecond; [|discriminate].
  cbn [mbind completion_bind] in *.
  destruct (if checkSpacing && _ then _ else _) as [third|t] eqn:Hthird; [|discriminate].
  cbn [mbind completion_bind] in *.
  injection Hrun as <-. split; [|now split].
  exists (total (first ++ second ++ third)). split; [reflexivity|].
  apply optional_finding in Hfirst; [|apply consistency_finding].
  apply optional_finding in Hsecond; [|apply hierarchy_finding].
  apply optional_finding in Hthird; [|apply spacing_finding].
  rewrite !total_app. lia.
Qed.

Lemma reconnect_medium pageData ss :
  reconnect pageData = Normal ss ->
  Forall (fun s => priority s = "medium") ss /\ (length ss <= 1)%nat.
Proof.
  unfold reconnect. destruct (truthy _).
  - destruct (filter_by _ _ _) as [detached|t]; [|discriminate].
    cbn [mbind completion_bind]. intros [= <-].
    destruct (0 <? length detached)%nat; cbn; split; try lia; repeat constructor.
  - intros [= <-]. cbn. split; [constructor|lia].
Qed.

Lemma suggestions_for_priorities context focusArea ss :
  suggestions_for context focusArea = Normal ss ->
  Forall (fun s => priority s = "high" \/ priority s = "medium") ss /\ (length ss <= 3)%nat.
Proof.
  unfold suggestions_for. destruct (destructure "context" "pageData" context "pageData") as [pageData|t]; [|discriminate].
  cbn [mbind completion_bind].
  destruct (if String.eqb focusArea "design-system" || _ then _ else _) as [second|t] eqn:Hsecond;
    [|discriminate].
  cbn [mbind completion_bind]. intros [= <-].
  assert (Hmedium : Forall (fun s => priority s = "medium") second /\ (length second <= 1)%nat).
  { destruct (String.eqb focusArea "design-system" || _);
      [now apply (reconnect_medium pageData)|].
    injection Hsecond as <-. cbn. split; [constructor|lia]. }
  destruct Hmedium as (Hmedium & Hlen). clear Hsecond. split.
  - apply Forall_app. split.
    { destruct (String.eqb focusArea "accessibility" || _);
        [constructor; [now left|constructor]|constructor]. }
    apply Forall_app. split.
    + eapply Forall_impl; [exact Hmedium|]. intros s Hs. now right.
    + destruct (String.eqb focusArea "visual-hierarchy" || _);
        [constructor; [now right|constructor]|constructor].
  - rewrite !length_app.
    destruct (String.eqb focusArea "accessibility" || _),
      (String.eqb focusArea "visual-hierarchy" || _); cbn [length]; lia.
Qed.

(** X30. No suggestion is ever critical: whenever [suggestImprovements]
    returns, it reports at most three suggestions, [suggestionCount] being
    their number, each of priority "high" or "medium"; asked for a priority
    other than "all" it returns suggestions of that priority only, and asked
    for "critical" it returns none. *)
Theorem suggestImprovements_priorities context focusArea wanted result :
  suggestImprovements context focusArea wanted = Normal result ->
  exists kept,
    own result "suggestions" = VArr (map suggestion_value kept)
    /\ own result "suggestionCount" = VNum (Z.of_nat (length kept))
    /\ (length kept <= 3)%nat
    /\ Forall (fun s => priority s = "high" \/ priority s = "medium") kept
    /\ (wanted <> "all" -> Forall (fun s => priority s = wanted) kept)
    /\ (wanted = "critical" -> kept = []).
Proof.
  unfold suggestImprovements. intros Hrun.
  destruct (suggestions_for context focusArea) as [ss|t] eqn:Hss; [|discriminate].
  cbn [mbind completion_bind] in Hrun. injection Hrun as <-.
  destruct (suggestions_for_priorities _ _ _ Hss) as (Hall & Hlen). clear Hss.
  eexists. split; [reflexivity|]. split; [reflexivity|].
  destruct (String.eqb_spec wanted "all") as [->|Hwanted].
  - split; [exact Hlen|]. split; [exact Hall|]. split; [congruence|discriminate].
  - set (keep := fun s => String.eqb (priority s) wanted || String.eqb (priority s) "critical").
    assert (Hkept : Forall (fun s => priority s = wanted) (List.filter keep ss)).
    { clear Hlen. induction Hall as [|s ss Hs _ IH]; cbn [List.filter]; [constructor|].
      destruct (keep s) eqn:Hkeep; [|exact IH]. constructor; [|exact IH].
      unfold keep in Hkeep. apply orb_prop in Hkeep as [Hk|Hk]; apply String.eqb_eq in Hk.
      - exact Hk.
      - destruct Hs as [Hs|Hs]; rewrite Hs in Hk; discriminate. }
    split.
    { etransitivity; [|exact Hlen]. clear. induction ss as [|s ss IH]; cbn; [lia|].
      destruct (keep s); cbn; lia. }
    split.
    { clear Hkept Hlen. induction Hall as [|s ss Hs _ IH]; cbn [List.filter]; [constructor|].
      destruct (keep s); [now constructor|exact IH]. }
    split; [intros _; exact Hkept|].
    intros ->. destruct (List.filter keep ss) as [|s kept] eqn:Hfilter; [reflexivity|].
    assert (Hin : In s (List.filter keep ss)) by (rewrite Hfilter; now left).
    apply filter_In in Hin as (Hin & _).
    apply Forall_inv in Hkept.
    destruct (proj1 (List.Forall_forall _ _) Hall s Hin) as [Hs|Hs]; congruence.
Qed.

End Tools.

Section ToolCases.

Import DesignAgent Coverage7.

Lemma analyzeDesignQuality_score_bound_witness :
  analyzeDesignQuality example_page true true true false
  = Normal (VObj [("success", VBool true); ("score", VNum 46); ("maxScore", VNum 100);
                  ("findings",
                   VArr [finding_value (Finding "consistency" 21 "2 detached component instances found");
                         finding_value (Finding "hierarchy" 25 "4 unique font sizes used (optimal: 3-8)")])]).
Proof.
  exact (proj2 (proj2 (analyzeDesignQuality_score_bound example_page true true true true _ eq_refl))).
Defined.

Lemma suggestImprovements_priorities_witness :
  exists kept,
    own (VObj [("success", VBool true); ("suggestionCount", VNum 0); ("suggestions", VArr []);
               ("summary", VStr "Generated 0 critical priority suggestions for all")])
      "suggestions" = VArr (map suggestion_value kept)
    /\ own (VObj [("success", VBool true); ("suggestionCount", VNum 0); ("suggestions", VArr []);
                  ("summary", VStr "Generated 0 critical priority suggestions for all")])
         "suggestionCount" = VNum (Z.of_nat (length kept))
    /\ (length kept <= 3)%nat
    /\ Forall (fun s => priority s = "high" \/ priority s = "medium") kept
    /\ ("critical" <> "all" -> Forall (fun s => priority s = "critical") kept)
    /\ ("critical" = "critical" -> kept = []).
Proof.
  exact (suggestImprovements_priorities example_page "all" "critical" _ eq_refl).
Defined.

End ToolCases.

(** ** Failures that no branch classifies *)

Section Unclassified.

Import Rules Coverage2 Coverage3 Coverage8.

Local Abbreviation Store := (gmap string ClaudeProxy.entry).




End Unclassified.
